(** * pytwitch: the navigation controller of [twitch/app.py]

    A shallow embedding of class [App]: the live-status merger, the
    selection gate [show_items] and the recursive menu screens, followed by
    the properties of the specification that were checked against them.

    Conventions.
    - A Python [str] is a [string]; one [ascii] stands for one character.
    - An insertion-ordered [dict] with [str] keys is an association list
      ([dict_set] keeps the position of a key that is already present).
    - The screens talk to a menu process, to the Twitch API and to a player.
      The menu's answers are a script held in the state, every request and
      every presented screen is appended to a trace, and an API answer may
      depend on how many requests were made before it. *)

From Stdlib Require Import String Ascii ZArith Lia List.
From stdpp Require Import base tactics option list strings pretty.

Local Open Scope string_scope.
Local Open Scope list_scope.

(** ** Remote records ([twitch/datatypes.py], fields used by [app.py]) *)

Module ChannelUserFollows.
Record t := mk { to_id : string; to_name : string }.
End ChannelUserFollows.

Module FollowedStream.
Record t := mk {
  user_name : string;
  title : string;
  viewer_count : Z;
  started_at : string
}.
End FollowedStream.

Module BroadcasterInfo.
Record t := mk {
  broadcaster_id : string;
  broadcaster_name : string;
  game_name : string;
  title : string
}.
End BroadcasterInfo.

Module TwitchClip.
Record t := mk {
  title : string;
  creator_name : string;
  view_count : Z;
  created_at : string;
  url : string;
  broadcaster_name : string
}.
End TwitchClip.

Module TwitchVideo.
Record t := mk {
  title : string;
  duration : string;
  view_count : Z;
  url : string
}.
End TwitchVideo.

(** ** Python string and list primitives *)

(** [s[:n]] *)
Definition str_take (n : nat) (s : string) : string := substring 0 n s.

(** [sub in s] for strings. *)
Fixpoint str_contains (sub s : string) : bool :=
  String.prefix sub s ||
  match s with
  | EmptyString => false
  | String _ s' => str_contains sub s'
  end.

(** [s[n:]] *)
Fixpoint str_drop (n : nat) (s : string) : string :=
  match n, s with
  | S k, String _ s' => str_drop k s'
  | _, _ => s
  end.

(** [s.startswith(p)] *)
Definition startswith (s p : string) : bool := String.prefix p s.

(** [s.partition(sep)] at the first occurrence of a non-empty [sep];
    [None] when [sep] does not occur. *)
Fixpoint str_cut (sep s : string) : option (string * string) :=
  if String.prefix sep s
  then Some (EmptyString, str_drop (String.length sep) s)
  else match s with
       | EmptyString => None
       | String a s' =>
           match str_cut sep s' with
           | Some (h, t) => Some (String a h, t)
           | None => None
           end
       end.

(** [s.split(sep)]: [None] is the [ValueError] of an empty separator. The
    fuel is the number of pieces that can still be cut off. *)
Fixpoint str_split_go (fuel : nat) (sep s : string) : list string :=
  match fuel with
  | O => [s]
  | S k =>
      match str_cut sep s with
      | Some (h, t) => h :: str_split_go k sep t
      | None => [s]
      end
  end.

Definition str_split (sep s : string) : option (list string) :=
  match sep with
  | EmptyString => None
  | _ => Some (str_split_go (String.length s) sep s)
  end.

(** [s.replace(old, "")] for a non-empty [old]; an empty [old] leaves [s]
    as it is. *)
Fixpoint str_remove_go (fuel : nat) (old s : string) : string :=
  match fuel with
  | O => s
  | S k =>
      match str_cut old s with
      | Some (h, t) => h +:+ str_remove_go k old t
      | None => s
      end
  end.

Definition str_remove (old s : string) : string :=
  match old with
  | EmptyString => s
  | _ => str_remove_go (String.length s) old s
  end.

(** [str.isspace] on one character. *)
Definition is_whitespace (a : ascii) : bool :=
  let n := nat_of_ascii a in
  (((9 <=? n) && (n <=? 13)) || ((28 <=? n) && (n <=? 32))
   || (n =? 133) || (n =? 160))%nat.

Fixpoint str_lstrip (s : string) : string :=
  match s with
  | EmptyString => EmptyString
  | String a s' => if is_whitespace a then str_lstrip s' else s
  end.

Fixpoint str_rstrip (s : string) : string :=
  match s with
  | EmptyString => EmptyString
  | String a s' =>
      match str_rstrip s' with
      | EmptyString => if is_whitespace a then EmptyString else String a EmptyString
      | t => String a t
      end
  end.

(** [s.strip()] *)
Definition str_strip (s : string) : string := str_lstrip (str_rstrip s).

(** The character [a] occurs in [s]. *)
Fixpoint has_char (a : ascii) (s : string) : bool :=
  match s with
  | EmptyString => false
  | String b s' => bool_decide (a = b) || has_char a s'
  end.

(** [c * n] for a one-character string. *)
Fixpoint str_repeat (s : string) (n : nat) : string :=
  match n with
  | O => EmptyString
  | S k => s +:+ str_repeat s k
  end.

(** [not l] *)
Definition is_empty {A} (l : list A) : bool :=
  match l with
  | [] => true
  | _ => false
  end.

(** [x in l] *)
Definition in_list (x : string) (l : list string) : bool :=
  bool_decide (x ∈ l).

(** [l.index(x)]: the first position of [x]; [None] is [ValueError]. *)
Fixpoint index (x : string) (l : list string) : option nat :=
  match l with
  | [] => None
  | y :: l' => if decide (x = y) then Some O else S <$> index x l'
  end.

(** [sorted(l)] on strings: insertion sort by code points. *)
Fixpoint insert_sorted (x : string) (l : list string) : list string :=
  match l with
  | [] => [x]
  | y :: l' => if String.leb x y then x :: l else y :: insert_sorted x l'
  end.

Definition sorted (l : list string) : list string :=
  foldr insert_sorted [] l.

(** ** Insertion-ordered dictionaries *)

Section Dict.
Context {V : Type}.

Definition dict := list (string * V).

Fixpoint dict_set (k : string) (v : V) (d : dict) : dict :=
  match d with
  | [] => [(k, v)]
  | (k', v') :: d' =>
      if decide (k = k') then (k', v) :: d' else (k', v') :: dict_set k v d'
  end.

Fixpoint dict_get (k : string) (d : dict) : option V :=
  match d with
  | [] => None
  | (k', v') :: d' => if decide (k = k') then Some v' else dict_get k d'
  end.

Definition dict_keys (d : dict) : list string := d.*1.
Definition dict_values (d : dict) : list V := d.*2.

(** [{key(x): x for x in l}] and its [enumerate] variant. *)
Definition dict_of (key : V → string) (l : list V) : dict :=
  fold_left (λ d x, dict_set (key x) x d) l [].

Definition dict_of_enumerate (key : nat → V → string) (l : list V) : dict :=
  fold_left (λ d ix, dict_set (key ix.1 ix.2) ix.2 d) (imap pair l) [].
End Dict.
Arguments dict : clear implicits.

(** ** The collaborators of [App]

    Their code is outside [app.py]; the controller sees them through the
    attributes and calls below. *)

Module Unicode.
Record t := mk {
  BULLET_ICON : string;
  EYE : string;
  CLOCK : string;
  CALENDAR : string
}.
End Unicode.

(** [self.menu]. [Menu.show_items] is handed the list object [items]
    itself: [listing items back] is what that list holds when the call
    returns (the identity for a menu that leaves its argument alone). *)
Record Menu := {
  unicode : Unicode.t;
  back : string;
  listing : list string → option bool → list string
}.

(** [self.twitch]. The [nat] argument of a query is the number of API
    requests issued before it, so that two requests may be answered
    differently. *)
Record TwitchClient := {
  live_icon : string;
  delimiter : string;
  follows : nat → list ChannelUserFollows.t;
  followed_streams_live : nat → list FollowedStream.t;
  channels_live_for_menu : nat → list FollowedStream.t;
  information : nat → string → BroadcasterInfo.t;
  is_online : nat → string → bool;
  get_videos : nat → string → list TwitchVideo.t;
  get_clips : nat → string → list TwitchClip.t
}.

(** ** Effects *)

Inductive Level := DEBUG | INFO | WARNING.

Inductive Request :=
| ReqFollows
| ReqFollowedStreamsLive
| ReqChannelsLiveForMenu
| ReqInformation (user_id : string)
| ReqIsOnline (user_id : string)
| ReqVideos (user_id : string)
| ReqClips (broadcaster_id : string).

Inductive Event :=
| Log (level : Level) (msg : string)
| Api (r : Request)
| MenuShow (items : list string) (prompt : option string)
    (back : option bool) (mesg : option string)
| Notification (msg : string)
| Play (url : string)
| Launch (url : string).

Inductive Error :=
| NotImplementedError
| KeyError (key : string)
| IndexError
| ValueError.

(** How a call ends: it returns, [sys.exit] or an exception unwinds the
    stack, the menu waits for an answer the script does not hold, or the
    call depth granted to the run is used up. *)
Inductive Outcome (A : Type) :=
| Return (a : A)
| SystemExit (code : Z)
| Raise (e : Error)
| AwaitInput
| OutOfFuel.
Arguments Return {A} a.
Arguments SystemExit {A} code.
Arguments Raise {A} e.
Arguments AwaitInput {A}.
Arguments OutOfFuel {A}.

Record State := mkState {
  replies : list string;
  trace : list Event;
  requests : nat;
  _user_follows : option (list ChannelUserFollows.t)
}.

Definition M (A : Type) : Type := State → Outcome A * State.

Definition ret {A} (a : A) : M A := λ st, (Return a, st).

(** An outcome that is not a return, at another result type. *)
Definition unwind {A B} (o : Outcome A) : Outcome B :=
  match o with
  | Return _ => OutOfFuel
  | SystemExit c => SystemExit c
  | Raise e => Raise e
  | AwaitInput => AwaitInput
  | OutOfFuel => OutOfFuel
  end.

Definition bind {A B} (m : M A) (f : A → M B) : M B := λ st,
  match m st with
  | (Return a, st') => f a st'
  | (o, st') => (unwind o, st')
  end.

Notation "'do' x <- m ; k" := (bind m (λ x, k))
  (at level 10, x name, m at level 100, k at level 200,
   format "'[v' 'do'  x  <-  m ; '/' k ']'").
Notation "'do_' m ; k" := (bind m (λ _, k))
  (at level 10, m at level 100, k at level 200,
   format "'[v' 'do_'  m ; '/' k ']'").

Definition emit (e : Event) : M unit := λ st,
  (Return tt,
   mkState (replies st) (trace st ++ [e]) (requests st) (_user_follows st)).

Definition log (level : Level) (msg : string) : M unit := emit (Log level msg).

Definition sys_exit {A} (code : Z) : M A := λ st, (SystemExit code, st).
Definition raise {A} (e : Error) : M A := λ st, (Raise e, st).
Definition out_of_fuel {A} : M A := λ st, (OutOfFuel, st).

(** [d[k]] *)
Definition subscript {V} (d : dict V) (k : string) : M V :=
  match dict_get k d with
  | Some v => ret v
  | None => raise (KeyError k)
  end.

(** One API query: the answer of the collaborator at this point of the
    run, recorded in the trace. *)
Definition request {A} (r : Request) (answer : nat → A) : M A := λ st,
  (Return (answer (requests st)),
   mkState (replies st) (trace st ++ [Api r]) (S (requests st))
     (_user_follows st)).

(** [self.menu.show_items(self._executor, items, ...)]: the screen is
    presented and the call blocks until the menu process answers. *)
Definition menu_show_items (items : list string) (prompt : option string)
    (back : option bool) (mesg : option string) : M string := λ st,
  let shown := trace st ++ [MenuShow items prompt back mesg] in
  match replies st with
  | [] => (AwaitInput, mkState [] shown (requests st) (_user_follows st))
  | r :: rest => (Return r, mkState rest shown (requests st) (_user_follows st))
  end.

(** ** class [App] *)

(** The methods that are reached through [self], as fallback functions or
    as child screens. [functools.partial(self.show_info, id)] is
    [ShowInfo id]. *)
Inductive Call :=
| ShowMenu
| ShowFollowsAndOnline
| ShowOnlineFollows
| ShowInfo (user_id : string)
| ShowVideos (channel : BroadcasterInfo.t)
| ShowClips (channel : BroadcasterInfo.t) (clips : option (list TwitchClip.t)).

Section App.
Variable twitch : TwitchClient.
Variable menu : Menu.
(** [self.player.name] and [self.tv.join]. *)
Variable player_name : string.
Variable tv_join : string → string.
(** [helpers.calculate_live_time], which reads the clock. *)
Variable calculate_live_time : string → string.

(** Modelled from the spec: [helpers.clean_string] of [twitch/utils] is
    not among the sources; the specification has the selected label
    stripped of its live icon before it is cut at the delimiter. *)
Definition clean_string (s icon : string) : string := str_remove icon s.

(** *** The live-status merger *)

(** The label written in the loop of [merge_with_online]. *)
Definition live_label (c : FollowedStream.t) : string :=
  let live_since := calculate_live_time (FollowedStream.started_at c) in
  let title :=
    live_icon twitch +:+ " " +:+ FollowedStream.user_name c +:+ " "
    +:+ delimiter twitch +:+ " " +:+ str_take 40 (FollowedStream.title c) in
  let info :=
    "(" +:+ Unicode.EYE (unicode menu)
    +:+ pretty (FollowedStream.viewer_count c) +:+ " viewers "
    +:+ delimiter twitch +:+ " " +:+ live_since +:+ ")" in
  title +:+ " " +:+ info.

(** One turn of the loop, on the list as the earlier turns left it. *)
Definition merge_step (follows_names : list string) (c : FollowedStream.t)
    : list string :=
  if in_list (FollowedStream.user_name c) follows_names then
    match index (FollowedStream.user_name c) follows_names with
    | Some idx => <[idx := live_label c]> follows_names
    | None => follows_names
    end
  else follows_names.

(** [merge_with_online] on the streams the API returned. *)
Definition merge_with_online (follows_names : list string)
    (streams : list FollowedStream.t) : list string :=
  fold_left merge_step streams follows_names.

(** *** Cache, player and messages *)

Definition set_user_follows (v : list ChannelUserFollows.t) : M unit := λ st,
  (Return tt, mkState (replies st) (trace st) (requests st) (Some v)).

(** The property [user_follows]: [not self._user_follows] holds for
    [None] and for an empty collection. *)
Definition user_follows : M (list ChannelUserFollows.t) := λ st,
  match _user_follows st with
  | Some (f :: fs) => ret (f :: fs) st
  | _ =>
      (do v <- request ReqFollows (follows twitch);
       do_ set_user_follows v;
       ret v) st
  end.

Definition play_stream_selected (stream : string) : M unit :=
  let url := tv_join stream in
  do_ log INFO ("[yellow]Opening[/] [red bold]" +:+ stream
                +:+ "[/] with [green]" +:+ player_name +:+ "[/]");
  do_ emit (Notification ("Opening stream <b>" +:+ stream +:+ "</b>"));
  emit (Play url).

Definition play_clip_selected (clip : TwitchClip.t) : M unit :=
  do_ log INFO ("[yellow]Opening[/] clip [red bold]"
                +:+ str_take 40 (TwitchClip.title clip)
                +:+ "...[/] with [green]" +:+ player_name +:+ "[/]");
  do_ emit (Notification ("Opening clip <b>"
                          +:+ TwitchClip.broadcaster_name clip +:+ "@"
                          +:+ TwitchClip.title clip +:+ "</b>"));
  emit (Launch (TwitchClip.url clip)).

Definition show_no_results_message (log_msg : string) : M unit :=
  do_ log WARNING log_msg;
  do _ <- menu_show_items [log_msg] None None None;
  ret tt.

Definition not_found_message (selected : string) : string :=
  "Option '" +:+ selected +:+ "' selected not found.".

(** *** The selection gate *)

Section Gate.
(** A call through [self], one frame deeper. *)
Variable call : Call → M unit.

Definition run_fallback (fallback_fn : option Call) : M unit :=
  match fallback_fn with
  | Some f => call f
  | None => ret tt
  end.

Definition handle_missing_option
    (show_items : list string → option Call → string → bool
                  → option string → M string)
    (selected : string) : M unit :=
  do_ log WARNING ("Option [bold yellow]" +:+ selected +:+ "[/] not found.");
  do _ <- show_items [not_found_message selected] None "twitch:" false None;
  ret tt.

Fixpoint show_items (depth : nat) (items : list string)
    (fallback_fn : option Call) (prompt : string) (back_ : bool)
    (mesg : option string) : M string :=
  match depth with
  | O => out_of_fuel
  | S d =>
      do selected <-
        menu_show_items items (Some prompt) (Some back_) mesg;
      let items := listing menu items (Some back_) in
      if negb (in_list selected items) then
        do_ handle_missing_option (show_items d) selected;
        do_ run_fallback fallback_fn;
        sys_exit 1
      else
        do_ (if bool_decide (selected = back menu)
                && bool_decide (fallback_fn ≠ None)
             then run_fallback fallback_fn
             else ret tt);
        ret selected
  end.
End Gate.

(** *** The screens *)

Definition video_label (i : nat) (v : TwitchVideo.t) : string :=
  pretty i +:+ " " +:+ Unicode.BULLET_ICON (unicode menu) +:+ " "
  +:+ str_take 50 (TwitchVideo.title v) +:+ " " +:+ delimiter twitch +:+ " "
  +:+ Unicode.CLOCK (unicode menu) +:+ TwitchVideo.duration v
  +:+ " (" +:+ Unicode.EYE (unicode menu)
  +:+ pretty (TwitchVideo.view_count v) +:+ " views)".

Definition clip_label (idx : nat) (c : TwitchClip.t) : string :=
  let icons := unicode menu in
  let clip_title :=
    pretty idx +:+ " " +:+ Unicode.BULLET_ICON icons +:+ " "
    +:+ str_take 40 (TwitchClip.title c) +:+ " createor: "
    +:+ TwitchClip.creator_name c in
  let clip_info :=
    "(" +:+ Unicode.EYE icons +:+ pretty (TwitchClip.view_count c)
    +:+ " views " +:+ delimiter twitch +:+ " " +:+ Unicode.CALENDAR icons
    +:+ " " +:+ TwitchClip.created_at c +:+ ")" in
  clip_title +:+ " " +:+ clip_info.

Definition menu_options : dict Call :=
  dict_set (Unicode.BULLET_ICON (unicode menu) +:+ " Live followed")
    ShowOnlineFollows
    (dict_set (Unicode.BULLET_ICON (unicode menu) +:+ " All follows")
       ShowFollowsAndOnline []).

(** The key under which [show_follows] looks its selection up. *)
Definition follow_key (selected : string) : M string :=
  if str_contains (live_icon twitch) selected then
    match str_split " " selected with
    | Some (_ :: name :: _) => ret name
    | _ => raise IndexError
    end
  else ret selected.

Definition resolve_follow (follows : dict ChannelUserFollows.t)
    (selected : string) : M ChannelUserFollows.t :=
  do key <- follow_key selected;
  subscript follows key.

(** The name [show_online_follows] hands to the player. *)
Definition online_name (selected : string) : M string :=
  match str_split (delimiter twitch)
          (clean_string selected (live_icon twitch)) with
  | Some (name :: _) => ret (str_strip name)
  | Some [] => raise IndexError
  | None => raise ValueError
  end.

Section Screens.
(** A call through [self] and the frames left to the selection gate. *)
Variable call : Call → M unit.
Variable depth : nat.

Definition show_online_follows : M unit :=
  do channels <-
    request ReqChannelsLiveForMenu (channels_live_for_menu twitch);
  let items := dict_of FollowedStream.user_name channels in
  if is_empty items then
    show_no_results_message "No online followed channels"
  else
    let options := dict_keys items in
    do selected <-
      show_items call depth options (Some ShowMenu) "'twitch live:'"
        true None;
    do selected <- online_name selected;
    play_stream_selected selected.

Definition show_follows : M ChannelUserFollows.t :=
  do users <- user_follows;
  let follows := dict_of ChannelUserFollows.to_name users in
  let follows_names := dict_keys follows in
  do streams <-
    request ReqFollowedStreamsLive (followed_streams_live twitch);
  let follows_names := merge_with_online (sorted follows_names) streams in
  do selected <-
    show_items call depth follows_names (Some ShowMenu)
      "'twitch follows:'" true
      (Some (Unicode.BULLET_ICON (unicode menu)
             +:+ " Offline and Online channels"));
  resolve_follow follows selected.

Definition show_follows_and_online : M unit :=
  do follow <- show_follows;
  call (ShowInfo (ChannelUserFollows.to_id follow)).

Definition show_videos (channel : BroadcasterInfo.t) : M unit :=
  let user_id := BroadcasterInfo.broadcaster_id channel in
  let name := BroadcasterInfo.broadcaster_name channel in
  do channel_videos <-
    request (ReqVideos user_id) (λ n, get_videos twitch n user_id);
  let videos_dict := dict_of_enumerate video_label channel_videos in
  if is_empty videos_dict then
    do_ show_no_results_message
          ("No available videos from followed channel: " +:+ name);
    call (ShowInfo user_id)
  else
    do selected <-
      show_items call depth (dict_keys videos_dict)
        (Some (ShowInfo user_id)) ("'" +:+ name +:+ " videos:'") true
        (Some ("Showing " +:+ pretty (length videos_dict)
               +:+ " videos"));
    do video <- subscript videos_dict selected;
    do_ play_stream_selected (TwitchVideo.url video);
    call (ShowVideos channel).

Definition show_menu : M unit :=
  let options_keys := dict_keys menu_options in
  do selected <- show_items call depth options_keys None "twitch:" false None;
  do action <- subscript menu_options selected;
  call action.

Definition show_info (user_id : string) : M unit :=
  do channel <-
    request (ReqInformation user_id) (λ n, information twitch n user_id);
  let name := BroadcasterInfo.broadcaster_name channel in
  let category := "Category: " +:+ BroadcasterInfo.game_name channel in
  do online <-
    request (ReqIsOnline user_id) (λ n, is_online twitch n user_id);
  let status :=
    if online : bool
    then live_icon twitch +:+ " Live Stream: "
         +:+ BroadcasterInfo.title channel
    else "Last Stream: " +:+ BroadcasterInfo.title channel in
  let menu_info :=
    [category; status; str_repeat "-" (String.length status);
     "Videos: Get videos"; "Clips: Get clips"] in
  do selected <-
    show_items call depth menu_info (Some ShowFollowsAndOnline)
      ("'" +:+ name +:+ " info:'") true
      (Some ("Channel " +:+ name +:+ " information"));
  do_ (if startswith selected "Clips"
       then call (ShowClips channel None) else ret tt);
  do_ (if startswith selected "Videos"
       then call (ShowVideos channel) else ret tt);
  do_ (if startswith selected "Last"
       then raise NotImplementedError else ret tt);
  do_ (if startswith selected (live_icon twitch)
       then play_stream_selected name else ret tt);
  call (ShowInfo user_id).

(** [if not clips:] at the head of [show_clips]. *)
Definition clips_or_fetch (channel : BroadcasterInfo.t)
    (clips : option (list TwitchClip.t)) : M (list TwitchClip.t) :=
  match clips with
  | Some (c :: cs) => ret (c :: cs)
  | _ =>
      let id := BroadcasterInfo.broadcaster_id channel in
      do_ log DEBUG ("Getting [green bold]clips[/] from channel [red bold]"
                     +:+ BroadcasterInfo.broadcaster_name channel
                     +:+ "[/]");
      request (ReqClips id) (λ n, get_clips twitch n id)
  end.

Definition show_clips (channel : BroadcasterInfo.t)
    (clips : option (list TwitchClip.t)) : M unit :=
  let id := BroadcasterInfo.broadcaster_id channel in
  let name := BroadcasterInfo.broadcaster_name channel in
  do clips <- clips_or_fetch channel clips;
  let clips_dict := dict_of_enumerate clip_label clips in
  do_ (if is_empty clips_dict then
         do_ show_no_results_message
               ("No available clips from followed channel: " +:+ name);
         call (ShowInfo id)
       else ret tt);
  do selected <-
    show_items call depth (dict_keys clips_dict) (Some (ShowInfo id))
      ("'" +:+ name +:+ " clips:'") true
      (Some ("Showing " +:+ pretty (length clips_dict) +:+ " clips"));
  do clip <- subscript clips_dict selected;
  do_ play_clip_selected clip;
  call (ShowClips channel (Some (dict_values clips_dict))).
End Screens.

(** A method call with [depth] frames left on the stack. *)
Fixpoint run (depth : nat) (c : Call) : M unit :=
  match depth with
  | O => out_of_fuel
  | S d =>
      match c with
      | ShowMenu => show_menu (run d) d
      | ShowFollowsAndOnline => show_follows_and_online (run d) d
      | ShowOnlineFollows => show_online_follows (run d) d
      | ShowInfo user_id => show_info (run d) d user_id
      | ShowVideos channel => show_videos (run d) d channel
      | ShowClips channel clips => show_clips (run d) d channel clips
      end
  end.
End App.

(** ** A small installation to run the screens on *)

Module Demo.
Definition icons : Unicode.t := Unicode.mk "-" "@" "~" "#".

Definition menu : Menu :=
  {| unicode := icons; back := "< Back"; listing := λ items _, items |}.

Definition bob : FollowedStream.t :=
  FollowedStream.mk "bob" "Speedrun" 120 "2024-01-01T10:00:00Z".

Definition clips : list TwitchClip.t :=
  [TwitchClip.mk "Opening" "ann" 10 "2024-01-01" "https://clips/1" "bob";
   TwitchClip.mk "Endgame" "ben" 25 "2024-01-02" "https://clips/2" "bob"].

Definition videos : list TwitchVideo.t :=
  [TwitchVideo.mk "Round one" "1h2m" 300 "https://videos/1"].

Definition twitch : TwitchClient :=
  {| live_icon := "*";
     delimiter := "|";
     follows := λ _, [ChannelUserFollows.mk "1" "alice";
                      ChannelUserFollows.mk "2" "bob";
                      ChannelUserFollows.mk "3" "carol"];
     followed_streams_live := λ _, [bob];
     channels_live_for_menu := λ _, [bob];
     information := λ _ id, BroadcasterInfo.mk id "bob" "Chess" "Speedrun";
     is_online := λ _ _, true;
     get_videos := λ _ _, [];
     get_clips := λ _ id, if decide (id = "2") then clips else [] |}.

(** [bob] has clips, [carol] has none. *)
Definition bob_channel : BroadcasterInfo.t :=
  BroadcasterInfo.mk "2" "bob" "Chess" "Speedrun".
Definition carol_channel : BroadcasterInfo.t :=
  BroadcasterInfo.mk "3" "carol" "Go" "Joseki".

(** The same channel, reported live a second time. *)
Definition bob_again : FollowedStream.t :=
  FollowedStream.mk "bob" "Marathon" 95 "2024-01-01T10:30:00Z".

(** A channel whose display name holds a space. *)
Definition two_words : FollowedStream.t :=
  FollowedStream.mk "night owl" "Late show" 3 "2024-01-01T23:00:00Z".

Definition live_time (started_at : string) : string := "1h".

Definition tv_join (stream : string) : string :=
  "https://www.twitch.tv/" +:+ stream.

Definition start (script : list string) : State := mkState script [] 0 None.

(** The application on this installation. *)
Definition app : nat → Call → M unit :=
  run twitch menu "mpv" tv_join live_time.

(** An account that follows nobody. *)
Definition lonely : TwitchClient :=
  {| live_icon := "*";
     delimiter := "|";
     follows := λ _, [];
     followed_streams_live := λ _, [];
     channels_live_for_menu := λ _, [];
     information := λ _ id, BroadcasterInfo.mk id "bob" "Chess" "Speedrun";
     is_online := λ _ _, false;
     get_videos := λ _ _, [];
     get_clips := λ _ _, [] |}.

Definition lonely_app : nat → Call → M unit :=
  run lonely menu "mpv" tv_join live_time.
End Demo.

(** ** The laws of the specification, as predicates on the code *)

Section Laws.
Variable twitch : TwitchClient.
Variable menu : Menu.
Variable calculate_live_time : string → string.

Local Abbreviation label := (live_label twitch menu calculate_live_time).
Local Abbreviation merge := (merge_with_online twitch menu calculate_live_time).

(** No live stream is named like the label of a live stream. *)
Definition labels_apart (S : list FollowedStream.t) : Prop :=
  ∀ c c', c ∈ S → c' ∈ S → FollowedStream.user_name c' ≠ label c.

(** Order and length of the merge, as the specification has them: the
    result is as long as [L]; entry [i] is the name [L !! i] when no
    stream has that name, and the label of a stream of that name when one
    has. *)
Definition merge_law (L : list string) (S : list FollowedStream.t) : Prop :=
  length (merge L S) = length L ∧
  ∀ i name, L !! i = Some name →
    (name ∉ FollowedStream.user_name <$> S → merge L S !! i = Some name) ∧
    (name ∈ FollowedStream.user_name <$> S →
     ∃ c, c ∈ S ∧ FollowedStream.user_name c = name ∧
          merge L S !! i = Some (label c)).

(** A stream that is named like the label of [c]. *)
Definition named_like (c : FollowedStream.t) : FollowedStream.t :=
  FollowedStream.mk (label c) "Again" 7 "2024-01-01T11:00:00Z".

(** The entry of a name that is live twice carries the label of the
    later stream. *)
Definition last_write_wins (L : list string) (S : list FollowedStream.t)
    : Prop :=
  ∀ S1 c1 S2 c2 S3 i,
    S = S1 ++ c1 :: S2 ++ c2 :: S3 →
    FollowedStream.user_name c1 = FollowedStream.user_name c2 →
    FollowedStream.user_name c2 ∉ FollowedStream.user_name <$> S3 →
    L !! i = Some (FollowedStream.user_name c2) →
    merge L S !! i = Some (label c2).
End Laws.

(** ** Labels and the keys read back from them *)

(** [s] holds no occurrence of the first character of the icon; an empty
    icon occurs nowhere. *)
Definition icon_free (icon s : string) : bool :=
  match icon with
  | EmptyString => true
  | String a _ => negb (has_char a s)
  end.

(** The delimiter is not empty and [s] is free of its first character. *)
Definition delimiter_free (delimiter s : string) : bool :=
  match delimiter with
  | EmptyString => false
  | String a _ => negb (has_char a s)
  end.

Section LabelLaws.
Variable twitch : TwitchClient.
Variable menu : Menu.
Variable calculate_live_time : string → string.

(** The round trip of clips and videos: the label of an entry looks that
    entry up in the dictionary of the screen. *)
Definition clip_round_trip (clips : list TwitchClip.t) : Prop :=
  ∀ i c, clips !! i = Some c →
    dict_get (clip_label twitch menu i c)
      (dict_of_enumerate (clip_label twitch menu) clips) = Some c.

Definition video_round_trip (videos : list TwitchVideo.t) : Prop :=
  ∀ i v, videos !! i = Some v →
    dict_get (video_label twitch menu i v)
      (dict_of_enumerate (video_label twitch menu) videos) = Some v.
End LabelLaws.

(** ** The selection gate, branch by branch *)

Inductive Classification := KnownItem | Back | Invalid.

Section GateLaws.
Variable menu : Menu.
Variable call : Call → M unit.

(** The guards of the two [if] statements of [show_items], on the list
    [offered] as the menu call left it. *)
Inductive classifies (offered : list string) (fallback_fn : option Call)
    (selected : string) : Classification → Prop :=
| classifies_invalid :
    selected ∉ offered →
    classifies offered fallback_fn selected Invalid
| classifies_back :
    selected ∈ offered → selected = back menu → fallback_fn ≠ None →
    classifies offered fallback_fn selected Back
| classifies_known :
    selected ∈ offered → ¬ (selected = back menu ∧ fallback_fn ≠ None) →
    classifies offered fallback_fn selected KnownItem.

(** What [show_items] goes on to do in each branch, once the menu has
    answered. *)
Definition gate_branch (depth : nat) (fallback_fn : option Call)
    (selected : string) (c : Classification) : M string :=
  match c with
  | Invalid =>
      do_ handle_missing_option (show_items menu call depth) selected;
      do_ run_fallback call fallback_fn;
      sys_exit 1
  | Back =>
      do_ run_fallback call fallback_fn;
      ret selected
  | KnownItem => ret selected
  end.

(** The three events of an invalid selection [r]: the screen that was
    answered, the warning, and the information screen. *)
Definition invalid_events (items : list string) (prompt : string)
    (back_ : bool) (mesg : option string) (r : string) : list Event :=
  [MenuShow items (Some prompt) (Some back_) mesg;
   Log WARNING ("Option [bold yellow]" +:+ r +:+ "[/] not found.");
   MenuShow [not_found_message r] (Some "twitch:") (Some false) None].

(** [sys.exit(1)] once the fallback function has returned. *)
Definition then_exit (res : Outcome unit * State) : Outcome string * State :=
  match res with
  | (Return _, st) => (SystemExit 1, st)
  | (o, st) => (unwind o, st)
  end.

(** An invalid selection as the specification has it: the reply [r] is
    logged and shown on the information screen, and with that screen
    answered by [ack] the process ends with status 1, nothing else having
    been presented. *)
Definition invalid_selection_exits (depth : nat) (items : list string)
    (fallback_fn : option Call) (prompt : string) (back_ : bool)
    (mesg : option string) (r ack : string) (rest : list string) : Prop :=
  show_items menu call depth items fallback_fn prompt back_ mesg
    (mkState (r :: ack :: rest) [] 0 None)
  = (SystemExit 1,
     mkState rest
       [MenuShow items (Some prompt) (Some back_) mesg;
        Log WARNING ("Option [bold yellow]" +:+ r +:+ "[/] not found.");
        MenuShow ["Option '" +:+ r +:+ "' selected not found."]
          (Some "twitch:") (Some false) None]
       0 None).

(** The exit after the fallback, as the specification has it, read on
    the trace: a run of [show_items] with the fallback [f] bound that ends
    in [sys.exit] has entered the fallback screen, whose first event is
    [entered]. *)
Definition exit_only_after_fallback (depth : nat) (items : list string)
    (f : Call) (prompt : string) (back_ : bool) (mesg : option string)
    (entered : Event) (script : list string) : Prop :=
  ∀ code st',
    show_items menu call depth items (Some f) prompt back_ mesg
      (mkState script [] 0 None) = (SystemExit code, st') →
    entered ∈ trace st'.
End GateLaws.

(** ** Counting requests, and the events of a Clips session *)

Global Instance Request_eq_dec : EqDecision Request.
Proof. solve_decision. Defined.

Fixpoint count_requests (r : Request) (tr : list Event) : nat :=
  match tr with
  | [] => 0
  | Api r' :: tr' =>
      (if decide (r' = r) then 1 else 0) + count_requests r tr'
  | _ :: tr' => count_requests r tr'
  end.

(** A filled cache is kept from [st] to [st']: a non-empty cached
    collection is still cached, and the follows were not requested in
    between. *)
Definition cache_kept (st st' : State) : Prop :=
  ∀ u us, _user_follows st = Some (u :: us) →
    _user_follows st' = Some (u :: us) ∧
    count_requests ReqFollows (trace st')
    = count_requests ReqFollows (trace st).

Definition keeps_cache {A} (m : M A) : Prop := ∀ st, cache_kept st (m st).2.

Section ClipsSession.
Variable twitch : TwitchClient.
Variable menu : Menu.
Variable player_name : string.
Variable channel : BroadcasterInfo.t.
Variable clips : list TwitchClip.t.

(** The options of the Clips screen for the list [clips]. *)
Definition clip_options : list string :=
  dict_keys (dict_of_enumerate (clip_label twitch menu) clips).

(** A draw of the Clips screen over [clips]. *)
Definition clips_draw : Event :=
  MenuShow clip_options
    (Some ("'" +:+ BroadcasterInfo.broadcaster_name channel +:+ " clips:'"))
    (Some true)
    (Some ("Showing "
           +:+ pretty (length (dict_of_enumerate (clip_label twitch menu) clips))
           +:+ " clips")).

(** What [play_clip_selected] leaves in the trace. *)
Definition clip_played (clip : TwitchClip.t) : list Event :=
  [Log INFO ("[yellow]Opening[/] clip [red bold]"
             +:+ str_take 40 (TwitchClip.title clip)
             +:+ "...[/] with [green]" +:+ player_name +:+ "[/]");
   Notification ("Opening clip <b>" +:+ TwitchClip.broadcaster_name clip
                 +:+ "@" +:+ TwitchClip.title clip +:+ "</b>");
   Launch (TwitchClip.url clip)].

(** One turn of the session: the draw, then the selected clip played. *)
Definition clips_turn (selected : string) : list Event :=
  clips_draw ::
  match dict_get selected (dict_of_enumerate (clip_label twitch menu) clips)
  with
  | Some clip => clip_played clip
  | None => []
  end.

(** A reply that selects a clip: one of the options, offered by the
    menu, and not the back entry. *)
Definition selects_clip (selected : string) : Prop :=
  selected ∈ clip_options ∧
  selected ∈ listing menu clip_options (Some true) ∧
  selected ≠ back menu.
End ClipsSession.

(** ** The Follows screen *)

Global Instance Level_eq_dec : EqDecision Level.
Proof. solve_decision. Defined.

Global Instance Event_eq_dec : EqDecision Event.
Proof. solve_decision. Defined.

Section FollowsLaws.
Variable twitch : TwitchClient.
Variable menu : Menu.
Variable player_name : string.
Variable tv_join : string → string.
Variable calculate_live_time : string → string.

(** The message under the Follows screen. *)
Definition follows_mesg : string :=
  Unicode.BULLET_ICON (unicode menu) +:+ " Offline and Online channels".

(** The Follows screen answered with the label of the live stream [c]
    launches that stream: the player is started on the channel of [c]
    before anything else is asked. *)
Definition follows_selection_plays (depth : nat) (c : FollowedStream.t)
    : Prop :=
  Play (tv_join (FollowedStream.user_name c))
  ∈ trace (run twitch menu player_name tv_join calculate_live_time depth
             ShowFollowsAndOnline
             (mkState [live_label twitch menu calculate_live_time c]
                [] 0 None)).2.
End FollowsLaws.

(** ** Screens that loop, and the depth a run needs *)

(** The screens whose last statement enters a screen again. *)
Definition loops (c : Call) : bool :=
  match c with
  | ShowMenu | ShowOnlineFollows => false
  | _ => true
  end.

(** Every exit of [m] carries status 1. *)
Definition exits_with_one {A} (m : M A) : Prop :=
  ∀ st code, (m st).1 = SystemExit code → code = 1%Z.

(** Started with at most [k] replies in the script, [m] does not run out
    of depth and leaves no more replies than it found. *)
Definition within {A} (k : nat) (m : M A) : Prop :=
  ∀ st, (length (replies st) ≤ k)%nat →
    (m st).1 ≠ OutOfFuel ∧
    (length (replies (m st).2) ≤ length (replies st))%nat.

(** The same, and a reply is gone from the script when [m] returns. *)
Definition consuming {A} (k : nat) (m : M A) : Prop :=
  ∀ st, (length (replies st) ≤ k)%nat →
    (m st).1 ≠ OutOfFuel ∧
    (length (replies (m st).2) ≤ length (replies st))%nat ∧
    ∀ a, (m st).1 = Return a →
      (length (replies (m st).2) < length (replies st))%nat.

(** ** The Info screen, drawn *)

(** An answer that selects an item: the menu offers it, and it is not the
    back entry. *)
Definition picks (menu : Menu) (items : list string) (selected : string)
    : Prop :=
  selected ∈ listing menu items (Some true) ∧ selected ≠ back menu.

Section InfoScreen.
Variable twitch : TwitchClient.
Variable channel : BroadcasterInfo.t.
Variable online : bool.

(** The second line of the Info screen. *)
Definition info_status : string :=
  if online
  then live_icon twitch +:+ " Live Stream: " +:+ BroadcasterInfo.title channel
  else "Last Stream: " +:+ BroadcasterInfo.title channel.

Definition info_options : list string :=
  ["Category: " +:+ BroadcasterInfo.game_name channel;
   info_status;
   str_repeat "-" (String.length info_status);
   "Videos: Get videos";
   "Clips: Get clips"].

(** The two requests and the draw of the Info screen of [user_id]. *)
Definition info_drawn (user_id : string) : list Event :=
  [Api (ReqInformation user_id);
   Api (ReqIsOnline user_id);
   MenuShow info_options
     (Some ("'" +:+ BroadcasterInfo.broadcaster_name channel +:+ " info:'"))
     (Some true)
     (Some ("Channel " +:+ BroadcasterInfo.broadcaster_name channel
            +:+ " information"))].
End InfoScreen.

(** What [play_stream_selected] leaves in the trace. *)
Definition stream_played (player_name : string) (tv_join : string → string)
    (stream : string) : list Event :=
  [Log INFO ("[yellow]Opening[/] [red bold]" +:+ stream
             +:+ "[/] with [green]" +:+ player_name +:+ "[/]");
   Notification ("Opening stream <b>" +:+ stream +:+ "</b>");
   Play (tv_join stream)].

(** ** The events of a Videos session *)

Section VideosSession.
Variable twitch : TwitchClient.
Variable menu : Menu.
Variable player_name : string.
Variable tv_join : string → string.
Variable channel : BroadcasterInfo.t.
Variable videos : list TwitchVideo.t.

(** The options of the Videos screen for the list [videos]. *)
Definition video_options : list string :=
  dict_keys (dict_of_enumerate (video_label twitch menu) videos).

(** The request and the draw with which the Videos screen starts. *)
Definition videos_drawn : list Event :=
  [Api (ReqVideos (BroadcasterInfo.broadcaster_id channel));
   MenuShow video_options
     (Some ("'" +:+ BroadcasterInfo.broadcaster_name channel +:+ " videos:'"))
     (Some true)
     (Some ("Showing "
            +:+ pretty (length (dict_of_enumerate (video_label twitch menu)
                                  videos))
            +:+ " videos"))].

(** One turn of the session: request, draw, and the selected video
    handed to the player. *)
Definition videos_turn (selected : string) : list Event :=
  videos_drawn ++
  match dict_get selected (dict_of_enumerate (video_label twitch menu) videos)
  with
  | Some video => stream_played player_name tv_join (TwitchVideo.url video)
  | None => []
  end.

(** A reply that selects a video. *)
Definition selects_video (selected : string) : Prop :=
  selected ∈ video_options ∧ picks menu video_options selected.
End VideosSession.

(** The installation, with a channel that has a past broadcast. *)
Module DemoVideos.
Definition twitch : TwitchClient :=
  {| live_icon := live_icon Demo.twitch;
     delimiter := delimiter Demo.twitch;
     follows := follows Demo.twitch;
     followed_streams_live := followed_streams_live Demo.twitch;
     channels_live_for_menu := channels_live_for_menu Demo.twitch;
     information := information Demo.twitch;
     is_online := is_online Demo.twitch;
     get_videos := λ _ _, Demo.videos;
     get_clips := get_clips Demo.twitch |}.

Definition first_video : string :=
  video_label twitch Demo.menu 0
    (TwitchVideo.mk "Round one" "1h2m" 300 "https://videos/1").
End DemoVideos.

(** An account that follows a channel whose display name holds a space;
    the channel is live. *)
Module DemoSpace.
Definition night_owl : ChannelUserFollows.t :=
  ChannelUserFollows.mk "4" "night owl".

Definition twitch : TwitchClient :=
  {| live_icon := live_icon Demo.twitch;
     delimiter := delimiter Demo.twitch;
     follows := λ _, [ChannelUserFollows.mk "1" "alice"; night_owl];
     followed_streams_live := λ _, [Demo.two_words];
     channels_live_for_menu := λ _, [Demo.two_words];
     information := information Demo.twitch;
     is_online := is_online Demo.twitch;
     get_videos := get_videos Demo.twitch;
     get_clips := get_clips Demo.twitch |}.

Definition app : nat → Call → M unit :=
  run twitch Demo.menu "mpv" Demo.tv_join Demo.live_time.
End DemoSpace.

(** ** The root menu and the follows screens, drawn *)

(** The two entries of the root menu, in the order of the screen. *)
Definition root_entries (menu : Menu) : list (string * Call) :=
  [(Unicode.BULLET_ICON (unicode menu) +:+ " All follows",
    ShowFollowsAndOnline);
   (Unicode.BULLET_ICON (unicode menu) +:+ " Live followed",
    ShowOnlineFollows)].

(** A menu that puts its back entry under the items when asked to. *)
Module DemoBack.
Definition menu : Menu :=
  {| unicode := Demo.icons;
     back := "< Back";
     listing := λ items back_,
       match back_ with
       | Some true => items ++ ["< Back"]
       | _ => items
       end |}.

Definition app : nat → Call → M unit :=
  run Demo.lonely menu "mpv" Demo.tv_join Demo.live_time.
End DemoBack.

(** An installation whose live icon is a word, and a follow whose name
    starts with that word. *)
Module DemoIcon.
Definition twitch : TwitchClient :=
  {| live_icon := "LIVE";
     delimiter := "|";
     follows := λ _, [ChannelUserFollows.mk "7" "LIVEwire"];
     followed_streams_live := λ _, [];
     channels_live_for_menu := λ _, [];
     information := information Demo.twitch;
     is_online := λ _ _, false;
     get_videos := λ _ _, [];
     get_clips := λ _ _, [] |}.
End DemoIcon.

(** ** [__main__.py]

    [main] is glue around collaborators that are not among the sources
    ([setup], [logger], the client's entry points). What each of their
    calls does is taken from a [World]: it returns, or raises. The
    handler's own calls ([unregister_all], [select], [log.error]) are
    taken to return. *)

Module Main.

Record Args := {
  help : bool;
  verbose : bool;
  test : bool;
  channel : bool;
  games : bool
}.

(** The coroutines [main] hands to [asyncio.run]. *)
Inductive Entry := Test | ShowByQuery | ShowByGame | ShowAllStreams.

(** An exception by the clause that catches it: one of
    [CONNECTION_EXCEPTION] and [EXCEPTIONS], with its [repr] and its
    message; [KeyboardInterrupt]; or one that no clause names. *)
Inductive Exn :=
| Handled (repr msg : string)
| KeyboardInterrupt
| Other (repr : string).

Inductive Result (A : Type) :=
| Ok (a : A)
| Raised (e : Exn).
Arguments Ok {A} a.
Arguments Raised {A} e.

Inductive Event :=
| SetupHelp
| LoggerVerbose (v : bool)
| LogDebugArguments
| SetupMenu
| SetupApp
| SetupKeybinds
| Run (e : Entry)
| UnregisterAll
| Select (items : list string) (markup : bool) (prompt : string)
| LogError (msg : string)
| LogInfo (msg : string).

Record World := {
  app_result : Result unit;
  keybinds_result : Result unit;
  run_result : Entry → Result Z
}.

(** The body of the [try]. *)
Definition try_body (args : Args) (w : World) : Result Z * list Event :=
  match app_result w with
  | Raised e => (Raised e, [SetupApp])
  | Ok _ =>
      match keybinds_result w with
      | Raised e => (Raised e, [SetupApp; SetupKeybinds])
      | Ok _ =>
          if test args then
            (run_result w Test, [SetupApp; SetupKeybinds; Run Test])
          else if channel args then
            (run_result w ShowByQuery,
             [SetupApp; SetupKeybinds; Run ShowByQuery])
          else if games args then
            (run_result w ShowByGame,
             [SetupApp; SetupKeybinds; Run ShowByGame])
          else
            (run_result w ShowAllStreams,
             [SetupApp; SetupKeybinds; Run ShowAllStreams])
      end
  end.

Definition main (args : Args) (w : World) : Result Z * list Event :=
  if help args then (Ok 0%Z, [SetupHelp])
  else
    let before :=
      LoggerVerbose (verbose args)
      :: (if verbose args then [LogDebugArguments] else [])
      ++ [SetupMenu] in
    match try_body args w with
    | (Ok status, evs) => (Ok status, before ++ evs)
    | (Raised (Handled repr msg), evs) =>
        (Ok 1%Z,
         before ++ evs
         ++ [UnregisterAll; Select [repr] false "PyTwitchErr>"; LogError msg])
    | (Raised KeyboardInterrupt, evs) =>
        (Ok 1%Z, before ++ evs ++ [LogInfo "terminated by user"])
    | (Raised (Other repr), evs) => (Raised (Other repr), before ++ evs)
    end.

(** The entry point the flags select. *)
Definition entry (args : Args) : Entry :=
  if test args then Test
  else if channel args then ShowByQuery
  else if games args then ShowByGame
  else ShowAllStreams.

(** [e] is raised in the [try]: by the set-up of the client, by the
    key bindings, or by the entry point. *)
Definition raised_in_try (args : Args) (w : World) (e : Exn) : Prop :=
  app_result w = Raised e ∨
  (app_result w = Ok tt ∧ keybinds_result w = Raised e) ∨
  (app_result w = Ok tt ∧ keybinds_result w = Ok tt ∧
   run_result w (entry args) = Raised e).

End Main.

(** * Properties *)

(** ** Lists and strings *)

Lemma in_list_true x l : in_list x l = true ↔ x ∈ l.
Proof. unfold in_list. by rewrite bool_decide_eq_true. Qed.

Lemma in_list_false x l : in_list x l = false ↔ x ∉ l.
Proof. unfold in_list. by rewrite bool_decide_eq_false. Qed.

Lemma index_lookup x l i : index x l = Some i → l !! i = Some x.
Proof.
  revert i. induction l as [|y l IH]; intros i; simpl; [done|].
  destruct (decide (x = y)) as [->|Hne].
  - by intros [= <-].
  - destruct (index x l) as [j|] eqn:E; simpl; [|done].
    intros [= <-]. simpl. by apply IH.
Qed.

Lemma index_first x l i j : index x l = Some i → j < i → l !! j ≠ Some x.
Proof.
  revert i j. induction l as [|y l IH]; intros i j; simpl; [done|].
  destruct (decide (x = y)) as [->|Hne].
  - intros [= <-]. lia.
  - destruct (index x l) as [k|] eqn:E; simpl; [|done].
    intros [= <-] Hj. destruct j as [|j]; simpl.
    + congruence.
    + apply (IH k); [done|lia].
Qed.

Lemma index_elem x l : x ∈ l → is_Some (index x l).
Proof.
  induction l as [|y l IH]; simpl.
  - by intros ?%elem_of_nil.
  - intros [->|Hin]%elem_of_cons.
    + rewrite decide_True by done. eauto.
    + destruct (decide (x = y)); [eauto|].
      destruct (IH Hin) as [k ->]. simpl. eauto.
Qed.

Lemma index_intro x l i :
  l !! i = Some x → (∀ j, j < i → l !! j ≠ Some x) → index x l = Some i.
Proof.
  revert i. induction l as [|y l IH]; intros i; simpl; [done|].
  destruct i as [|i]; simpl.
  - intros [= ->] _. by rewrite decide_True.
  - intros Hi Hfirst. destruct (decide (x = y)) as [->|Hne].
    + by destruct (Hfirst 0); [lia|].
    + rewrite (IH i); [done|done|].
      intros j Hj. apply (Hfirst (S j)). lia.
Qed.

(** ** The live-status merger *)

Section Merger.
Variable twitch : TwitchClient.
Variable menu : Menu.
Variable calculate_live_time : string → string.

Local Abbreviation label := (live_label twitch menu calculate_live_time).
Local Abbreviation step := (merge_step twitch menu calculate_live_time).
Local Abbreviation merge := (merge_with_online twitch menu calculate_live_time).

Lemma merge_step_length L c : length (step L c) = length L.
Proof.
  unfold merge_step. destruct (in_list _ _); [|done].
  destruct (index _ _); [|done]. by rewrite length_insert.
Qed.

Lemma merge_length L S : length (merge L S) = length L.
Proof.
  revert L. induction S as [|c S IH]; intros L; simpl; [done|].
  unfold merge_with_online in *. simpl. by rewrite IH, merge_step_length.
Qed.

Lemma merge_cons L c S : merge L (c :: S) = merge (step L c) S.
Proof. done. Qed.

Lemma merge_app L S1 S2 : merge L (S1 ++ S2) = merge (merge L S1) S2.
Proof. unfold merge_with_online. by rewrite fold_left_app. Qed.

(** A turn of the loop writes at the first entry equal to the stream's
    name and nowhere else. *)
Lemma merge_step_other L c i x :
  L !! i = Some x → x ≠ FollowedStream.user_name c → step L c !! i = Some x.
Proof.
  intros Hi Hne. unfold merge_step.
  destruct (in_list _ _); [|done].
  destruct (index _ _) as [idx|] eqn:E; [|done].
  destruct (decide (idx = i)) as [->|Hidx].
  - apply index_lookup in E. congruence.
  - by rewrite list_lookup_insert_ne.
Qed.

Lemma merge_step_hit L c i :
  index (FollowedStream.user_name c) L = Some i →
  step L c !! i = Some (label c).
Proof.
  intros E. unfold merge_step.
  assert (FollowedStream.user_name c ∈ L) as Hin.
  { apply list_elem_of_lookup. exists i. by apply index_lookup. }
  apply in_list_true in Hin. rewrite Hin, E.
  apply list_lookup_insert_eq. apply index_lookup, lookup_lt_Some in E. done.
Qed.

Lemma merge_step_cases L c i x :
  L !! i = Some x →
  step L c !! i = Some x ∨
  (x = FollowedStream.user_name c ∧ step L c !! i = Some (label c)).
Proof.
  intros Hi. unfold merge_step.
  destruct (in_list _ _); [|by left].
  destruct (index _ _) as [idx|] eqn:E; [|by left].
  destruct (decide (idx = i)) as [->|Hidx].
  - right. apply index_lookup in E as E'. split; [congruence|].
    apply list_lookup_insert_eq. by eapply lookup_lt_Some.
  - left. by rewrite list_lookup_insert_ne.
Qed.

(** An entry that is the name of no stream to come stays as it is. *)
Lemma merge_keeps S L i x :
  L !! i = Some x → x ∉ FollowedStream.user_name <$> S →
  merge L S !! i = Some x.
Proof.
  revert L. induction S as [|c S IH]; intros L Hi Hx; [done|].
  rewrite merge_cons. rewrite fmap_cons, not_elem_of_cons in Hx.
  destruct Hx as [Hc HS]. apply IH; [|done]. by apply merge_step_other.
Qed.

Lemma labels_apart_cons c S :
  labels_apart twitch menu calculate_live_time (c :: S) →
  labels_apart twitch menu calculate_live_time S.
Proof. intros H c1 c2 H1 H2. apply H; by right. Qed.

Lemma labels_apart_not_name c S :
  labels_apart twitch menu calculate_live_time (c :: S) →
  label c ∉ FollowedStream.user_name <$> S.
Proof.
  intros H Hin. apply list_elem_of_fmap in Hin as (c' & Heq & Hc').
  eapply (H c c'); [by left|by right|done].
Qed.

Lemma merge_entries L S :
  labels_apart twitch menu calculate_live_time S →
  ∀ i name, L !! i = Some name →
    merge L S !! i = Some name ∨
    ∃ c, c ∈ S ∧ FollowedStream.user_name c = name ∧
         merge L S !! i = Some (label c).
Proof.
  revert L. induction S as [|c S IH]; intros L Hap i name Hi; [by left|].
  rewrite merge_cons.
  destruct (merge_step_cases L c i name Hi) as [Hsame|[-> Hhit]].
  - destruct (IH (step L c) (labels_apart_cons _ _ Hap) i name Hsame)
      as [?|(c' & Hc' & Hn & Hl)]; [by left|].
    right. exists c'. split; [by right|done].
  - right. exists c. split; [by left|]. split; [done|].
    apply merge_keeps; [done|]. by apply labels_apart_not_name.
Qed.
End Merger.

(** C1, as stated, fails in two ways. On a stream named like a label:
    [bob] is live, and the entry of [bob] ends up as the label of that
    other stream, which is not the label of a stream called [bob]. And on
    a list that holds a name twice: [bob] is live, the first entry is
    rewritten, and the second one stays the bare name. *)
Lemma merge_law_fails_on_label_name :
  ¬ merge_law Demo.twitch Demo.menu Demo.live_time ["bob"]
      [Demo.bob; named_like Demo.twitch Demo.menu Demo.live_time Demo.bob] ∧
  ¬ merge_law Demo.twitch Demo.menu Demo.live_time ["bob"; "bob"] [Demo.bob].
Proof.
  split.
  - intros [_ H]. destruct (H 0%nat "bob" eq_refl) as [_ Hlive].
    destruct Hlive as (c & Hc & Hn & Hl).
    { apply (bool_decide_unpack _). vm_compute. exact I. }
    apply elem_of_cons in Hc as [->|Hc].
    + vm_compute in Hl. discriminate.
    + apply elem_of_cons in Hc as [->|Hc]; [|by apply elem_of_nil in Hc].
      vm_compute in Hn. discriminate.
  - intros [_ H]. destruct (H 1%nat "bob" eq_refl) as [_ Hlive].
    destruct Hlive as (c & Hc & Hn & Hl).
    { apply (bool_decide_unpack _). vm_compute. exact I. }
    apply list_elem_of_singleton in Hc as ->.
    vm_compute in Hl. discriminate.
Qed.

(** C7, as stated, on [bob] reported live twice: the entry carries the
    label of the first report. *)
Lemma last_write_wins_fails_on_repeat :
  ¬ last_write_wins Demo.twitch Demo.menu Demo.live_time ["bob"]
      [Demo.bob; Demo.bob_again].
Proof.
  intros H.
  specialize (H [] Demo.bob [] Demo.bob_again [] 0 eq_refl eq_refl).
  simpl in H. specialize (H (not_elem_of_nil _) eq_refl).
  vm_compute in H. discriminate.
Qed.

Section FirstWrite.
Variable twitch : TwitchClient.
Variable menu : Menu.
Variable calculate_live_time : string → string.

Local Abbreviation label := (live_label twitch menu calculate_live_time).
Local Abbreviation merge := (merge_with_online twitch menu calculate_live_time).
Local Abbreviation apart := (labels_apart twitch menu calculate_live_time).

Lemma labels_apart_sub S S' : apart S → S' ⊆ S → apart S'.
Proof. intros H Hsub c c' Hc Hc'. apply H; by apply Hsub. Qed.

(** Until a stream of that name comes, the first entry holding a name
    stays the first one. *)
Lemma merge_index_stable L S x i :
  apart S → (∀ c, c ∈ S → x ≠ label c) →
  index x L = Some i → x ∉ FollowedStream.user_name <$> S →
  index x (merge L S) = Some i.
Proof.
  intros Hap Hlab Hidx Hnot. apply index_intro.
  - apply merge_keeps; [by apply index_lookup|done].
  - intros j Hj Hjx.
    assert (is_Some (L !! j)) as [y Hy].
    { apply lookup_lt_is_Some. apply index_lookup, lookup_lt_Some in Hidx. lia. }
    destruct (merge_entries twitch menu calculate_live_time L S Hap j y Hy)
      as [Hsame|(c & Hc & _ & Hl)].
    + rewrite Hsame in Hjx. injection Hjx as ->.
      by apply (index_first x L i j).
    + rewrite Hl in Hjx. injection Hjx as Heq. by apply (Hlab c).
Qed.
End FirstWrite.

(** C7 (amended): the first report wins. When a name is live more than
    once and no live stream is named like a label, the first entry of the
    list that holds the name carries the label of the first stream of that
    name; the later reports of the name do not write there. *)
Theorem merge_with_online_first_write_wins
    (twitch : TwitchClient) (menu : Menu) (calculate_live_time : string → string)
    (L : list string) (S1 S2 : list FollowedStream.t) (c : FollowedStream.t)
    (i : nat) :
  labels_apart twitch menu calculate_live_time (S1 ++ c :: S2) →
  FollowedStream.user_name c ∉ FollowedStream.user_name <$> S1 →
  index (FollowedStream.user_name c) L = Some i →
  merge_with_online twitch menu calculate_live_time L (S1 ++ c :: S2) !! i
  = Some (live_label twitch menu calculate_live_time c).
Proof.
  intros Hap Hfirst Hidx.
  rewrite merge_app, merge_cons.
  apply merge_keeps.
  - apply merge_step_hit. apply merge_index_stable; try done.
    + eapply labels_apart_sub; [done|]. intros x Hx. apply elem_of_app. by left.
    + intros c' Hc'. apply Hap; apply elem_of_app; [by left|right; by left].
  - intros (c' & Heq & Hc')%list_elem_of_fmap.
    apply (Hap c c'); [| |done]; apply elem_of_app; right; [by left|by right].
Qed.

Lemma merge_with_online_first_write_wins_witness :
  merge_with_online Demo.twitch Demo.menu Demo.live_time
    ["alice"; "bob"; "carol"] ([] ++ Demo.bob :: [Demo.bob_again]) !! 1
  = Some (live_label Demo.twitch Demo.menu Demo.live_time Demo.bob).
Proof.
  apply (merge_with_online_first_write_wins Demo.twitch Demo.menu
           Demo.live_time ["alice"; "bob"; "carol"] [] [Demo.bob_again]
           Demo.bob 1).
  - intros c c' Hc Hc'. simpl in Hc, Hc'.
    apply elem_of_cons in Hc as [->|Hc%list_elem_of_singleton];
      apply elem_of_cons in Hc' as [->|Hc'%list_elem_of_singleton];
      subst; vm_compute; discriminate.
  - simpl. apply not_elem_of_nil.
  - reflexivity.
Defined.

(** Membership in a list of strings that is given, by evaluation. *)
Ltac by_membership :=
  apply (bool_decide_unpack _); vm_compute; exact I.

(** ** Order and length of the merge *)

Section LiveEntries.
Variable twitch : TwitchClient.
Variable menu : Menu.
Variable calculate_live_time : string → string.

Local Abbreviation label := (live_label twitch menu calculate_live_time).
Local Abbreviation step := (merge_step twitch menu calculate_live_time).
Local Abbreviation merge := (merge_with_online twitch menu calculate_live_time).
Local Abbreviation apart := (labels_apart twitch menu calculate_live_time).

(** The first entry that holds a live name is written: it carries the
    label of a stream of that name. *)
Lemma merge_live_first_entry S :
  apart S →
  ∀ L name i,
    name ∈ FollowedStream.user_name <$> S → index name L = Some i →
    ∃ c, c ∈ S ∧ FollowedStream.user_name c = name ∧
         merge L S !! i = Some (label c).
Proof.
  induction S as [|c S IH]; intros Hap L name i Hlive Hidx.
  { by apply elem_of_nil in Hlive. }
  rewrite merge_cons.
  destruct (decide (FollowedStream.user_name c = name)) as [Hc|Hc].
  - exists c. split; [by left|]. split; [done|].
    apply merge_keeps; [apply merge_step_hit; by rewrite Hc|].
    by apply labels_apart_not_name.
  - rewrite fmap_cons in Hlive. apply elem_of_cons in Hlive as [Heq|Hlive];
      [by destruct Hc|].
    destruct (IH (labels_apart_cons _ _ _ _ _ Hap) (step L c) name i Hlive)
      as (c' & Hc' & Hn & Hl).
    + apply list_elem_of_fmap in Hlive as (c' & -> & Hc').
      apply (merge_index_stable twitch menu calculate_live_time L [c]).
      * apply (labels_apart_sub twitch menu calculate_live_time (c :: S));
          [done|]. intros x ->%list_elem_of_singleton. by left.
      * intros c1 ->%list_elem_of_singleton. apply Hap; [by left|by right].
      * done.
      * intros Hin. apply list_elem_of_singleton in Hin. by destruct Hc.
    + exists c'. split; [by right|done].
Qed.
End LiveEntries.

(** C1 (amended): whatever the streams, the merge keeps the length and
    returns an entry whose name is not live as it is, at its index. When
    no live stream is named like the label of a live stream, every entry
    is its name or the label of a stream of that name; and the entry of a
    live name is such a label, not the name, when no earlier entry of the
    list holds the same name (so for every live name of a list without
    repetition). The list need not be sorted for this. *)
Theorem merge_with_online_order_length
    (twitch : TwitchClient) (menu : Menu) (calculate_live_time : string → string)
    (L : list string) (S : list FollowedStream.t) :
  let out := merge_with_online twitch menu calculate_live_time L S in
  let label := live_label twitch menu calculate_live_time in
  length out = length L ∧
  (∀ i name, L !! i = Some name →
     name ∉ FollowedStream.user_name <$> S → out !! i = Some name) ∧
  (labels_apart twitch menu calculate_live_time S →
   ∀ i name, L !! i = Some name →
     (out !! i = Some name ∨
      ∃ c, c ∈ S ∧ FollowedStream.user_name c = name ∧
           out !! i = Some (label c)) ∧
     (name ∈ FollowedStream.user_name <$> S →
      (∀ j, (j < i)%nat → L !! j ≠ Some name) →
      ∃ c, c ∈ S ∧ FollowedStream.user_name c = name ∧
           out !! i = Some (label c))).
Proof.
  intros out label. split; [apply merge_length|]. split.
  - intros i name Hi Hnot. by apply merge_keeps.
  - intros Hap i name Hi. split; [by apply merge_entries|].
    intros Hlive Hfirst. apply merge_live_first_entry; [done|done|].
    by apply index_intro.
Qed.

Lemma merge_with_online_order_length_witness :
  let out :=
    merge_with_online Demo.twitch Demo.menu Demo.live_time
      ["alice"; "bob"; "carol"] [Demo.bob] in
  length out = 3%nat ∧
  out !! 0%nat = Some "alice" ∧
  out !! 1%nat = Some (live_label Demo.twitch Demo.menu Demo.live_time Demo.bob) ∧
  out !! 2%nat = Some "carol".
Proof.
  intros out.
  destruct (merge_with_online_order_length Demo.twitch Demo.menu
              Demo.live_time ["alice"; "bob"; "carol"] [Demo.bob])
    as (Hlen & Hkept & Hlive).
  split; [exact Hlen|].
  split; [apply Hkept; [reflexivity|by_membership]|].
  split; [|apply Hkept; [reflexivity|by_membership]].
  assert (labels_apart Demo.twitch Demo.menu Demo.live_time [Demo.bob]) as Hap.
  { intros c c' ->%list_elem_of_singleton ->%list_elem_of_singleton.
    vm_compute. discriminate. }
  destruct (Hlive Hap 1%nat "bob" eq_refl) as [_ Hbob].
  destruct Hbob as (c & Hc & _ & Hl).
  - by_membership.
  - intros [|j] Hj; [discriminate|lia].
  - apply list_elem_of_singleton in Hc. by rewrite Hc in Hl.
Defined.

(** ** The effect monad *)

Lemma bind_return {A B} (m : M A) (f : A → M B) st a st' :
  m st = (Return a, st') → bind m f st = f a st'.
Proof. unfold bind. by intros ->. Qed.

Lemma bind_unwind {A B} (m : M A) (f : A → M B) st o st' :
  m st = (o, st') → (∀ a, o ≠ Return a) → bind m f st = (unwind o, st').
Proof. unfold bind. intros -> Ho. destruct o; try done. by destruct (Ho a). Qed.

Lemma bind_assoc {A B C} (m : M A) (f : A → M B) (g : B → M C) st :
  bind (bind m f) g st = bind m (λ a, bind (f a) g) st.
Proof. unfold bind. by destruct (m st) as [[| | | |] ?]. Qed.

Lemma bind_ext {A B} (m m' : M A) (f g : A → M B) st :
  m st = m' st → (∀ a st', f a st' = g a st') → bind m f st = bind m' g st.
Proof.
  unfold bind. intros -> Hfg. by destruct (m' st) as [[| | | |] ?].
Qed.

Lemma bind_not_return_l {A B} (m : M A) (f : A → M B) st :
  (∀ a, (m st).1 ≠ Return a) → ∀ b, (bind m f st).1 ≠ Return b.
Proof.
  unfold bind. intros Hm b. destruct (m st) as [[a| | | |] st']; simpl in *;
    try done. by destruct (Hm a).
Qed.

Lemma bind_not_return_r {A B} (m : M A) (f : A → M B) st :
  (∀ a st' b, (f a st').1 ≠ Return b) → ∀ b, (bind m f st).1 ≠ Return b.
Proof.
  unfold bind. intros Hf b.
  destruct (m st) as [[a| | | |] st']; simpl; [apply Hf|done..].
Qed.

(** ** The selection gate *)

Section GateFacts.
Variable menu : Menu.
Variable call : Call → M unit.



(** [show_items] takes the branch of the class of the reply. *)
Lemma show_items_branch d items fallback_fn prompt back_ mesg r rest tr rq
    cache c :
  classifies menu (listing menu items (Some back_)) fallback_fn r c →
  show_items menu call (S d) items fallback_fn prompt back_ mesg
    (mkState (r :: rest) tr rq cache)
  = gate_branch menu call d fallback_fn r c
      (mkState rest (tr ++ [MenuShow items (Some prompt) (Some back_) mesg])
         rq cache).
Proof.
  intros Hc. simpl. unfold bind at 1. simpl.
  destruct Hc as [Hout|Hin Hb Hf|Hin Hnb]; simpl.
  - apply in_list_false in Hout. by rewrite Hout.
  - apply in_list_true in Hin. rewrite Hin. simpl.
    by rewrite !bool_decide_eq_true_2.
  - apply in_list_true in Hin. rewrite Hin. simpl.
    destruct (bool_decide (r = back menu)) eqn:E1;
      destruct (bool_decide (fallback_fn ≠ None)) eqn:E2; simpl; try done.
    apply bool_decide_eq_true in E1, E2. by destruct Hnb.
Qed.
End GateFacts.


Section MissingOption.
Variable menu : Menu.
Variable call : Call → M unit.

Local Abbreviation gate := (show_items menu call).

Lemma then_exit_not_return res v : (then_exit res).1 ≠ Return v.
Proof. by destruct res as [[| | | |] ?]. Qed.

(** The first turn of an invalid selection: warning, then the
    information screen one frame deeper. *)
Lemma show_items_invalid d items fallback_fn prompt back_ mesg r rest tr rq
    cache :
  r ∉ listing menu items (Some back_) →
  gate (S d) items fallback_fn prompt back_ mesg
    (mkState (r :: rest) tr rq cache)
  = (do _ <- gate d [not_found_message r] None "twitch:" false None;
     do_ run_fallback call fallback_fn;
     sys_exit 1)
      (mkState rest
         (tr ++ [MenuShow items (Some prompt) (Some back_) mesg;
                 Log WARNING ("Option [bold yellow]" +:+ r
                              +:+ "[/] not found.")])
         rq cache).
Proof.
  intros Hout.
  rewrite (show_items_branch menu call d items fallback_fn prompt back_ mesg
             r rest tr rq cache Invalid (classifies_invalid _ _ _ _ Hout)).
  unfold gate_branch, handle_missing_option, bind, log, emit, ret.
  simpl. rewrite <- app_assoc. simpl.
  by destruct (show_items _ _ _ _ _ _ _ _ _) as [[| | | |] ?].
Qed.

(** The information screen answered with its one item. *)
Lemma show_items_acknowledged d msg ack rest tr rq cache :
  ack ∈ listing menu [msg] (Some false) →
  gate (S d) [msg] None "twitch:" false None (mkState (ack :: rest) tr rq cache)
  = (Return ack,
     mkState rest (tr ++ [MenuShow [msg] (Some "twitch:") (Some false) None])
       rq cache).
Proof.
  intros Hin.
  rewrite (show_items_branch menu call d [msg] None "twitch:" false None
             ack rest tr rq cache KnownItem); [done|].
  constructor; [done|]. by intros [_ ?].
Qed.

Lemma show_items_missing_ack d items fallback_fn prompt back_ mesg
    r ack rest tr rq cache :
  r ∉ listing menu items (Some back_) →
  ack ∈ listing menu [not_found_message r] (Some false) →
  gate (S (S d)) items fallback_fn prompt back_ mesg
    (mkState (r :: ack :: rest) tr rq cache)
  = let st' :=
      mkState rest (tr ++ invalid_events items prompt back_ mesg r) rq cache in
    match fallback_fn with
    | None => (SystemExit 1, st')
    | Some f => then_exit (call f st')
    end.
Proof.
  intros Hout Hack.
  rewrite (show_items_invalid _ _ _ _ _ _ _ _ _ _ _ Hout).
  rewrite (bind_return _ _ _ _ _ (show_items_acknowledged _ _ _ _ _ _ _ Hack)).
  unfold invalid_events.
  rewrite <- app_assoc. simpl.
  destruct fallback_fn as [f|]; simpl; [|done].
  unfold bind, then_exit.
  by destruct (call f _) as [[| | | |] ?].
Qed.

Lemma show_items_blocks d items fallback_fn prompt back_ mesg tr rq cache :
  gate (S d) items fallback_fn prompt back_ mesg (mkState [] tr rq cache)
  = (AwaitInput,
     mkState [] (tr ++ [MenuShow items (Some prompt) (Some back_) mesg])
       rq cache).
Proof. done. Qed.

(** An invalid selection never comes back to the screen that asked. *)
Lemma show_items_invalid_never_returns depth items fallback_fn prompt back_
    mesg r rest tr rq cache v :
  r ∉ listing menu items (Some back_) →
  (gate depth items fallback_fn prompt back_ mesg
     (mkState (r :: rest) tr rq cache)).1 ≠ Return v.
Proof.
  intros Hout. destruct depth as [|d]; [done|].
  rewrite (show_items_invalid _ _ _ _ _ _ _ _ _ _ _ Hout).
  apply bind_not_return_r. intros _ st1 b.
  apply bind_not_return_r. by intros _ st2 b'.
Qed.

Lemma information_chain d :
  ∀ items prompt back_ mesg r rest tr rq cache,
    r ∉ listing menu items (Some back_) →
    (length rest ≤ d)%nat →
    ∃ st' tl,
      trace st' = tr ++ invalid_events items prompt back_ mesg r ++ tl ∧
      (gate (S (S d)) items None prompt back_ mesg
         (mkState (r :: rest) tr rq cache) = (SystemExit 1, st') ∨
       gate (S (S d)) items None prompt back_ mesg
         (mkState (r :: rest) tr rq cache) = (AwaitInput, st') ∧
       replies st' = []).
Proof.
  induction d as [|d IH];
    intros items prompt back_ mesg r rest tr rq cache Hout Hlen;
    rewrite (show_items_invalid _ _ _ _ _ _ _ _ _ _ _ Hout);
    (destruct rest as [|ack rest];
     [ eexists _, []; split;
       [|right; by rewrite (bind_unwind _ _ _ _ _
                              (show_items_blocks _ _ _ _ _ _ _ _ _))];
       unfold invalid_events; simpl; by rewrite <- !app_assoc
     | ]).
  - simpl in Hlen. lia.
  - destruct (decide (ack ∈ listing menu [not_found_message r] (Some false)))
      as [Hack|Hnack].
    + eexists _, []. split; [|left].
      2:{ by rewrite (bind_return _ _ _ _ _
                        (show_items_acknowledged _ _ _ _ _ _ _ Hack)). }
      unfold invalid_events. simpl. by rewrite <- !app_assoc.
    + edestruct (IH [not_found_message r] "twitch:" false None ack rest
                   (tr ++ [MenuShow items (Some prompt) (Some back_) mesg;
                           Log WARNING ("Option [bold yellow]" +:+ r
                                        +:+ "[/] not found.")])
                   rq cache)
        as (st' & tl & Htr & Hres); [done|simpl in Hlen; lia|].
      exists st'. eexists. split.
      { rewrite Htr. simpl. unfold invalid_events.
        rewrite <- !app_assoc. simpl. done. }
      destruct Hres as [Hres|[Hres Hrep]]; [left|right; split; [|done]];
        by rewrite (bind_unwind _ _ _ _ _ Hres).
Qed.
End MissingOption.

(** Without a fallback function [show_items] makes no call through
    [self] but to itself. *)
Lemma show_items_none_any_call menu call call' depth :
  ∀ items prompt back_ mesg st,
    show_items menu call depth items None prompt back_ mesg st
    = show_items menu call' depth items None prompt back_ mesg st.
Proof.
  induction depth as [|d IH]; intros items prompt back_ mesg st; [done|].
  cbn [show_items]. apply bind_ext; [done|]. intros selected st1.
  destruct (negb (in_list selected _)).
  - apply bind_ext; [|done]. unfold handle_missing_option.
    apply bind_ext; [done|]. intros _ st2. apply bind_ext; [apply IH|done].
  - unfold run_fallback. by destruct (_ && _).
Qed.

(** An invalid selection whose information screen is answered by
    something that screen does not offer: the run is the run of the
    information screens alone. Neither the fallback function nor any
    other method of the controller is called. *)
Lemma show_items_unacknowledged menu call call' depth items fallback_fn
    fallback_fn' prompt back_ mesg r ack rest tr rq cache :
  r ∉ listing menu items (Some back_) →
  ack ∉ listing menu [not_found_message r] (Some false) →
  show_items menu call depth items fallback_fn prompt back_ mesg
    (mkState (r :: ack :: rest) tr rq cache)
  = show_items menu call' depth items fallback_fn' prompt back_ mesg
      (mkState (r :: ack :: rest) tr rq cache).
Proof.
  intros Hout Hnack. destruct depth as [|d]; [done|].
  rewrite !(show_items_invalid _ _ _ _ _ _ _ _ _ _ _ _ _ Hout).
  set (st1 := mkState (ack :: rest)
                (tr ++ [MenuShow items (Some prompt) (Some back_) mesg;
                        Log WARNING ("Option [bold yellow]" +:+ r
                                     +:+ "[/] not found.")])
                rq cache).
  destruct (show_items menu call d [not_found_message r] None "twitch:" false
              None st1) as [o st'] eqn:E.
  assert (∀ v, o ≠ Return v) as Hnot.
  { intros v Ho.
    apply (show_items_invalid_never_returns menu call d
             [not_found_message r] None "twitch:" false None ack rest
             (trace st1) rq cache v Hnack).
    subst st1. cbn [trace]. by rewrite E. }
  rewrite (bind_unwind _ _ _ _ _ E Hnot).
  rewrite (show_items_none_any_call menu call call') in E.
  by rewrite (bind_unwind _ _ _ _ _ E Hnot).
Qed.

(** C2, as stated, on the Info screen of [bob]: the reply [zzz] is not
    offered and its information screen is acknowledged, but the process
    does not end there. The fallback of the Info screen, the Follows
    screen, is entered; [alice] is selected, then the live stream of her
    Info screen, which is played. *)
Lemma invalid_selection_goes_on :
  ¬ invalid_selection_exits Demo.menu (Demo.app 8) 3
      (info_options Demo.twitch (information Demo.twitch 0 "2") true)
      (Some ShowFollowsAndOnline) "'bob info:'" true
      (Some "Channel bob information")
      "zzz" "Option 'zzz' selected not found."
      ["alice"; "* Live Stream: Speedrun"].
Proof.
  unfold invalid_selection_exits. intros H. vm_compute in H. discriminate.
Qed.

(** The same answers given to the Info screen itself: a stream is played
    after the invalid selection, and the menu waits for the next answer. *)
Example invalid_selection_then_play :
  let res :=
    Demo.app 12 (ShowInfo "2")
      (Demo.start ["zzz"; "Option 'zzz' selected not found."; "alice";
                   "* Live Stream: Speedrun"]) in
  res.1 = AwaitInput ∧
  Play "https://www.twitch.tv/bob" ∈ trace res.2.
Proof. split; [reflexivity|by_membership]. Qed.

(** C2 (amended): a reply that is not in the offered list is logged with
    a warning and shown on an information screen whose one item is
    ["Option '<reply>' selected not found."], and the call never returns
    to the screen that asked. What follows depends on the answer to the
    information screen. Without an answer the menu waits. Answered with
    what it offers: without a fallback function the process ends there
    with [sys.exit(1)]; with one, the fallback function runs from that
    state and [sys.exit(1)] is reached only if it returns, the run ending
    as the fallback ends otherwise. Answered with something else: the run
    ends in [sys.exit(1)], or waits on an information screen with the
    script used up. *)
Theorem show_items_invalid_selection
    (menu : Menu) (call : Call → M unit) (d : nat) (items : list string)
    (fallback_fn : option Call) (prompt : string) (back_ : bool)
    (mesg : option string) (r : string) (rest : list string)
    (tr : list Event) (rq : nat) (cache : option (list ChannelUserFollows.t)) :
  r ∉ listing menu items (Some back_) →
  let msg := "Option '" +:+ r +:+ "' selected not found." in
  let shown :=
    tr ++ [MenuShow items (Some prompt) (Some back_) mesg;
           Log WARNING ("Option [bold yellow]" +:+ r +:+ "[/] not found.");
           MenuShow [msg] (Some "twitch:") (Some false) None] in
  let res :=
    show_items menu call (S (S d)) items fallback_fn prompt back_ mesg
      (mkState (r :: rest) tr rq cache) in
  (∀ v, res.1 ≠ Return v) ∧
  match rest with
  | [] => res = (AwaitInput, mkState [] shown rq cache)
  | ack :: rest' =>
      (ack ∈ listing menu [msg] (Some false) →
       res = match fallback_fn with
             | None => (SystemExit 1, mkState rest' shown rq cache)
             | Some f =>
                 match call f (mkState rest' shown rq cache) with
                 | (Return _, st') => (SystemExit 1, st')
                 | (o, st') => (unwind o, st')
                 end
             end) ∧
      (ack ∉ listing menu [msg] (Some false) →
       (length rest' < d)%nat →
       ∃ st' tl,
         trace st' = shown ++ tl ∧
         (res = (SystemExit 1, st') ∨
          (res = (AwaitInput, st') ∧ replies st' = [])))
  end.
Proof.
  intros Hout msg shown res. split.
  { intros v. by apply show_items_invalid_never_returns. }
  subst res shown msg. destruct rest as [|ack rest'].
  { rewrite (show_items_invalid _ _ _ _ _ _ _ _ _ _ _ _ _ Hout).
    rewrite (bind_unwind _ _ _ _ _ (show_items_blocks _ _ _ _ _ _ _ _ _ _ _))
      by done.
    by rewrite <- app_assoc. }
  split.
  - intros Hack.
    rewrite (show_items_missing_ack menu call d items fallback_fn prompt
               back_ mesg r ack rest' tr rq cache Hout Hack).
    by destruct fallback_fn.
  - intros Hnack Hlen. destruct d as [|d]; [lia|].
    rewrite (show_items_invalid _ _ _ _ _ _ _ _ _ _ _ _ _ Hout).
    destruct (information_chain menu call d [not_found_message r] "twitch:"
                false None ack rest'
                (tr ++ [MenuShow items (Some prompt) (Some back_) mesg;
                        Log WARNING ("Option [bold yellow]" +:+ r
                                     +:+ "[/] not found.")])
                rq cache Hnack)
      as (st' & tl & Htr & Hres); [lia|].
    exists st'. eexists. split.
    { rewrite Htr. unfold invalid_events. rewrite <- !app_assoc.
      cbn [app]. reflexivity. }
    destruct Hres as [Hres|[Hres Hrep]];
      rewrite (bind_unwind _ _ _ _ _ Hres) by done; simpl; auto.
Qed.

Lemma show_items_invalid_selection_witness :
  show_items Demo.menu (Demo.app 3) 2 ["a"; "b"] (Some ShowMenu)
    "'twitch follows:'" true None
    (mkState ["z"; "Option 'z' selected not found."; "- Live followed"; "bob"]
       [] 0 None)
  = (SystemExit 1,
     mkState []
       [MenuShow ["a"; "b"] (Some "'twitch follows:'") (Some true) None;
        Log WARNING "Option [bold yellow]z[/] not found.";
        MenuShow ["Option 'z' selected not found."] (Some "twitch:")
          (Some false) None;
        MenuShow ["- All follows"; "- Live followed"] (Some "twitch:")
          (Some false) None;
        Api ReqChannelsLiveForMenu;
        MenuShow ["bob"] (Some "'twitch live:'") (Some true) None;
        Log INFO "[yellow]Opening[/] [red bold]bob[/] with [green]mpv[/]";
        Notification "Opening stream <b>bob</b>";
        Play "https://www.twitch.tv/bob"]
       1 None).
Proof.
  destruct (show_items_invalid_selection Demo.menu (Demo.app 3) 0 ["a"; "b"]
              (Some ShowMenu) "'twitch follows:'" true None "z"
              ["Option 'z' selected not found."; "- Live followed"; "bob"]
              [] 0 None) as [_ [Hack _]].
  - by_membership.
  - etransitivity; [apply Hack; by_membership|].
    vm_compute. reflexivity.
Defined.

(** The scenario of the specification: options [a] and [b], reply [z],
    no fallback function. *)
Example invalid_selection_scenario :
  show_items Demo.menu (λ _, ret tt) 2 ["a"; "b"] None "twitch:" false None
    (mkState ["z"; "Option 'z' selected not found."] [] 0 None)
  = (SystemExit 1,
     mkState []
       [MenuShow ["a"; "b"] (Some "twitch:") (Some false) None;
        Log WARNING "Option [bold yellow]z[/] not found.";
        MenuShow ["Option 'z' selected not found."] (Some "twitch:")
          (Some false) None]
       0 None).
Proof. reflexivity. Qed.

(** C10, as stated, on a screen whose fallback is the root menu: the
    reply [z] is not offered, and the information screen is answered with
    the empty string, which it does not offer either. The information
    screen of that answer follows and the process exits with status 1; the
    root menu was never shown, and the answers meant for it are still in
    the script. *)
Lemma fallback_skipped_when_unacknowledged :
  ¬ exit_only_after_fallback Demo.menu (Demo.app 3) 3 ["a"; "b"] ShowMenu
      "'twitch follows:'" true None
      (MenuShow ["- All follows"; "- Live followed"] (Some "twitch:")
         (Some false) None)
      ["z"; ""; "Option '' selected not found."; "- Live followed"; "bob"].
Proof.
  intros H.
  specialize (H 1%Z
    (mkState ["- Live followed"; "bob"]
       [MenuShow ["a"; "b"] (Some "'twitch follows:'") (Some true) None;
        Log WARNING "Option [bold yellow]z[/] not found.";
        MenuShow ["Option 'z' selected not found."] (Some "twitch:")
          (Some false) None;
        Log WARNING "Option [bold yellow][/] not found.";
        MenuShow ["Option '' selected not found."] (Some "twitch:")
          (Some false) None]
       0 None)
    ltac:(vm_compute; reflexivity)).
  revert H. by_membership.
Qed.

(** C10 (amended): with a fallback function bound, what an invalid
    selection does turns on the answer to its information screen.
    Answered with what it offers, the fallback function runs first, from
    the state the information screen left: the parent screen is entered
    again and may prompt again, and [sys.exit(1)] is reached only if that
    whole navigation returns; if it ends otherwise (it waits at a prompt,
    exits or raises), so does [show_items], in the state the fallback
    left. Answered with something else, the fallback function is never
    called: the run is the same whatever function is bound and whatever
    the controller's methods do, and it ends in [sys.exit(1)] after the
    information screen of that answer, unless the script ends on an
    information screen. *)
Theorem show_items_fallback_before_exit
    (menu : Menu) (call : Call → M unit) (d : nat) (items : list string)
    (f : Call) (prompt : string) (back_ : bool) (mesg : option string)
    (r ack : string) (rest : list string)
    (tr : list Event) (rq : nat) (cache : option (list ChannelUserFollows.t)) :
  r ∉ listing menu items (Some back_) →
  let msg := "Option '" +:+ r +:+ "' selected not found." in
  let shown :=
    tr ++ [MenuShow items (Some prompt) (Some back_) mesg;
           Log WARNING ("Option [bold yellow]" +:+ r +:+ "[/] not found.");
           MenuShow [msg] (Some "twitch:") (Some false) None] in
  let st := mkState (r :: ack :: rest) tr rq cache in
  let res :=
    show_items menu call (S (S d)) items (Some f) prompt back_ mesg st in
  (ack ∈ listing menu [msg] (Some false) →
   res = match call f (mkState rest shown rq cache) with
         | (Return _, st') => (SystemExit 1, st')
         | (o, st') => (unwind o, st')
         end) ∧
  (ack ∉ listing menu [msg] (Some false) →
   (∀ call' fallback_fn',
      res = show_items menu call' (S (S d)) items fallback_fn' prompt back_
              mesg st) ∧
   ((length rest < d)%nat →
    ∃ st' tl,
      trace st'
      = shown
        ++ [Log WARNING ("Option [bold yellow]" +:+ ack +:+ "[/] not found.");
            MenuShow ["Option '" +:+ ack +:+ "' selected not found."]
              (Some "twitch:") (Some false) None]
        ++ tl ∧
      (res = (SystemExit 1, st') ∨
       (res = (AwaitInput, st') ∧ replies st' = [])))).
Proof.
  intros Hout msg shown st res. subst res st shown msg. split.
  - intros Hack.
    by rewrite (show_items_missing_ack menu call d items (Some f) prompt back_
                  mesg r ack rest tr rq cache Hout Hack).
  - intros Hnack. split.
    + intros call' fallback_fn'. by apply show_items_unacknowledged.
    + intros Hlen. destruct d as [|d]; [lia|].
      rewrite (show_items_invalid _ _ _ _ _ _ _ _ _ _ _ _ _ Hout).
      destruct (information_chain menu call d [not_found_message r] "twitch:"
                  false None ack rest
                  (tr ++ [MenuShow items (Some prompt) (Some back_) mesg;
                          Log WARNING ("Option [bold yellow]" +:+ r
                                       +:+ "[/] not found.")])
                  rq cache Hnack)
        as (st' & tl & Htr & Hres); [lia|].
      exists st', tl. split.
      { rewrite Htr. unfold invalid_events. by rewrite <- !app_assoc. }
      destruct Hres as [Hres|[Hres Hrep]];
        rewrite (bind_unwind _ _ _ _ _ Hres) by done; simpl; auto.
Qed.

Lemma show_items_fallback_before_exit_witness :
  show_items Demo.menu (Demo.app 3) 2 ["a"; "b"] (Some ShowMenu)
    "'twitch follows:'" true None
    (mkState ["z"; "Option 'z' selected not found."] [] 0 None)
  = (AwaitInput,
     mkState []
       [MenuShow ["a"; "b"] (Some "'twitch follows:'") (Some true) None;
        Log WARNING "Option [bold yellow]z[/] not found.";
        MenuShow ["Option 'z' selected not found."] (Some "twitch:")
          (Some false) None;
        MenuShow ["- All follows"; "- Live followed"] (Some "twitch:")
          (Some false) None]
       0 None).
Proof.
  destruct (show_items_fallback_before_exit Demo.menu (Demo.app 3) 0
              ["a"; "b"] ShowMenu "'twitch follows:'" true None "z"
              "Option 'z' selected not found." [] [] 0 None) as [Hack _].
  - by_membership.
  - etransitivity; [apply Hack; by_membership|].
    vm_compute. reflexivity.
Defined.

(** ** Strings: cutting at a separator *)

Lemma str_app_nil (s : string) : EmptyString +:+ s = s.
Proof. done. Qed.

Lemma str_app_cons x (a b : string) : String x a +:+ b = String x (a +:+ b).
Proof. done. Qed.

Lemma str_app_nil_r (s : string) : s +:+ EmptyString = s.
Proof. induction s as [|x s IH]; [done|]. by rewrite str_app_cons, IH. Qed.

Lemma str_app_assoc (a b c : string) : (a +:+ b) +:+ c = a +:+ (b +:+ c).
Proof.
  induction a as [|x a IH]; [done|]. by rewrite !str_app_cons, IH.
Qed.

Lemma str_length_app (a b : string) :
  String.length (a +:+ b) = (String.length a + String.length b)%nat.
Proof.
  induction a as [|x a IH]; [done|]. rewrite str_app_cons. simpl. by rewrite IH.
Qed.

Lemma has_char_app a s1 s2 :
  has_char a (s1 +:+ s2) = has_char a s1 || has_char a s2.
Proof.
  induction s1 as [|b s1 IH]; [done|].
  rewrite str_app_cons. simpl. by rewrite IH, orb_assoc.
Qed.

Lemma prefix_app (p s : string) : String.prefix p (p +:+ s) = true.
Proof.
  induction p as [|a p IH]; [by destruct s|].
  rewrite str_app_cons. simpl. by destruct (ascii_dec a a).
Qed.

Lemma prefix_head_ne d p b s :
  d ≠ b → String.prefix (String d p) (String b s) = false.
Proof. intros Hne. simpl. by destruct (ascii_dec d b). Qed.

Lemma str_drop_app (p s : string) : str_drop (String.length p) (p +:+ s) = s.
Proof.
  induction p as [|a p IH]; [by destruct s|]. by rewrite str_app_cons.
Qed.

Lemma str_cut_unfold (sep s : string) :
  str_cut sep s
  = if String.prefix sep s
    then Some (EmptyString, str_drop (String.length sep) s)
    else match s with
         | EmptyString => None
         | String a s' =>
             match str_cut sep s' with
             | Some (h, t) => Some (String a h, t)
             | None => None
             end
         end.
Proof. by destruct s. Qed.

Lemma str_cut_prefix (sep s : string) :
  str_cut sep (sep +:+ s) = Some (EmptyString, s).
Proof. by rewrite str_cut_unfold, prefix_app, str_drop_app. Qed.

Lemma str_contains_unfold (sub s : string) :
  str_contains sub s
  = String.prefix sub s ||
    match s with
    | EmptyString => false
    | String _ s' => str_contains sub s'
    end.
Proof. by destruct s. Qed.

Lemma str_contains_prefix (p s : string) : str_contains p (p +:+ s) = true.
Proof. by rewrite str_contains_unfold, prefix_app. Qed.

(** A cut through a head that is free of the separator's first character
    is a cut of the rest. *)
Lemma str_cut_skip d sep a s :
  has_char d a = false →
  str_cut (String d sep) (a +:+ s)
  = match str_cut (String d sep) s with
    | Some (h, t) => Some (a +:+ h, t)
    | None => None
    end.
Proof.
  induction a as [|x a IH]; intros Hfree.
  - rewrite str_app_nil. by destruct (str_cut _ s) as [[??]|].
  - simpl in Hfree. apply orb_false_elim in Hfree as [Hx Ha].
    apply bool_decide_eq_false in Hx.
    rewrite str_app_cons. cbn [str_cut].
    rewrite prefix_head_ne by done. rewrite IH by done.
    by destruct (str_cut _ s) as [[??]|].
Qed.

(** The first cut falls after a head that is free of the separator's first
    character. *)
Lemma str_cut_app d sep a b :
  has_char d a = false →
  str_cut (String d sep) (a +:+ String d sep +:+ b) = Some (a, b).
Proof.
  intros Hfree. rewrite str_cut_skip by done.
  by rewrite str_cut_prefix, str_app_nil_r.
Qed.

Lemma str_cut_free d sep s :
  has_char d s = false → str_cut (String d sep) s = None.
Proof.
  induction s as [|x s IH]; intros Hfree; [done|].
  simpl in Hfree. apply orb_false_elim in Hfree as [Hx Hs].
  apply bool_decide_eq_false in Hx.
  cbn [str_cut]. rewrite prefix_head_ne by done. by rewrite IH.
Qed.

Lemma str_split_go_app n d sep a b :
  has_char d a = false →
  str_split_go (S n) (String d sep) (a +:+ String d sep +:+ b)
  = a :: str_split_go n (String d sep) b.
Proof. intros Hfree. cbn [str_split_go]. by rewrite str_cut_app. Qed.

Lemma str_split_go_free n d sep s :
  has_char d s = false → str_split_go n (String d sep) s = [s].
Proof. intros Hfree. destruct n; [done|]. simpl. by rewrite str_cut_free. Qed.

Lemma str_remove_go_skip n d old a s :
  has_char d a = false →
  str_remove_go n (String d old) (a +:+ s)
  = a +:+ str_remove_go n (String d old) s.
Proof.
  intros Hfree. destruct n; [done|]. cbn [str_remove_go].
  rewrite str_cut_skip by done.
  destruct (str_cut _ s) as [[h t]|]; [|done]. by rewrite str_app_assoc.
Qed.

Lemma str_remove_go_free n d old s :
  has_char d s = false → str_remove_go n (String d old) s = s.
Proof. intros Hfree. destruct n; [done|]. simpl. by rewrite str_cut_free. Qed.

Lemma str_remove_go_prefix n old s :
  str_remove_go (S n) old (old +:+ s) = str_remove_go n old s.
Proof. cbn [str_remove_go]. by rewrite str_cut_prefix. Qed.

(** ** Strings: stripping white space *)

Lemma str_rstrip_snoc_space s : str_rstrip (s +:+ " ") = str_rstrip s.
Proof.
  induction s as [|a s IH]; [done|].
  rewrite str_app_cons. cbn [str_rstrip]. by rewrite IH.
Qed.

Lemma str_strip_spaces s : str_strip (" " +:+ s +:+ " ") = str_strip s.
Proof.
  unfold str_strip. rewrite str_app_cons, str_app_nil.
  cbn [str_rstrip]. rewrite str_rstrip_snoc_space.
  by destruct (str_rstrip s).
Qed.

(** ** Decimal numerals hold no space *)

Lemma pretty_N_go_no_space x s :
  has_char " " s = false → has_char " " (pretty_N_go x s) = false.
Proof.
  revert s. induction (N.lt_wf_0 x) as [x _ IH]; intros s Hs.
  destruct (decide (x = 0)%N) as [->|Hx]; [by rewrite pretty_N_go_0|].
  rewrite pretty_N_go_step by lia. apply IH.
  - apply N.div_lt; lia.
  - simpl. rewrite Hs. unfold pretty_N_char. by repeat case_match.
Qed.

Lemma pretty_nat_no_space (n : nat) : has_char " " (pretty n) = false.
Proof.
  unfold pretty, pretty_nat, pretty, pretty_N.
  case_decide; [done|]. by apply pretty_N_go_no_space.
Qed.

(** Two strings with the same separator-free head before a separator. *)
Lemma app_sep_inj d a b x y :
  has_char d a = false → has_char d b = false →
  a +:+ String d x = b +:+ String d y → a = b.
Proof.
  revert b. induction a as [|u a IH]; intros [|v b] Ha Hb Heq;
    rewrite ?str_app_nil, ?str_app_cons in Heq; simpl in Ha, Hb.
  - done.
  - injection Heq as -> _. by rewrite bool_decide_eq_true_2 in Hb.
  - injection Heq as -> _. by rewrite bool_decide_eq_true_2 in Ha.
  - injection Heq as -> Heq.
    apply orb_false_elim in Ha as [_ Ha]. apply orb_false_elim in Hb as [_ Hb].
    f_equal. by apply IH.
Qed.

(** ** Dictionaries built by [enumerate] *)

Section DictFacts.
Context {V : Type}.
Implicit Types (d : dict V) (l : list V).

Lemma dict_set_fresh k v d : k ∉ d.*1 → dict_set k v d = d ++ [(k, v)].
Proof.
  induction d as [|[k' v'] d IH]; intros Hk; simpl; [done|].
  rewrite fmap_cons, not_elem_of_cons in Hk. destruct Hk as [Hne Hk].
  rewrite decide_False by done. by rewrite IH.
Qed.

Variable key : nat → V → string.
Hypothesis key_index : ∀ i j x y, key i x = key j y → i = j.

Lemma dict_of_enumerate_snoc l x :
  dict_of_enumerate key (l ++ [x])
  = dict_set (key (length l) x) x (dict_of_enumerate key l).
Proof.
  unfold dict_of_enumerate. rewrite imap_app, fold_left_app. simpl.
  by rewrite Nat.add_0_r.
Qed.

Lemma dict_of_enumerate_imap l :
  dict_of_enumerate key l = imap (λ i x, (key i x, x)) l.
Proof.
  induction l as [|x l IH] using rev_ind; [done|].
  rewrite dict_of_enumerate_snoc, IH, imap_app. simpl.
  rewrite Nat.add_0_r. apply dict_set_fresh.
  intros Hin. apply list_elem_of_fmap in Hin as ([k v] & Hk & Hin).
  apply list_elem_of_lookup in Hin as [i Hi].
  rewrite list_lookup_imap in Hi.
  destruct (l !! i) as [y|] eqn:E; simpl in Hi; [|done].
  injection Hi as <- <-. simpl in Hk.
  apply key_index in Hk. apply lookup_lt_Some in E. lia.
Qed.

Lemma dict_values_enumerate l : dict_values (dict_of_enumerate key l) = l.
Proof.
  rewrite dict_of_enumerate_imap. unfold dict_values.
  apply list_eq. intros i.
  rewrite list_lookup_fmap, list_lookup_imap. by destruct (l !! i).
Qed.

Lemma dict_keys_enumerate l :
  dict_keys (dict_of_enumerate key l) = imap key l.
Proof.
  rewrite dict_of_enumerate_imap. unfold dict_keys.
  apply list_eq. intros i.
  rewrite list_lookup_fmap, !list_lookup_imap. by destruct (l !! i).
Qed.

Lemma dict_of_enumerate_nil l : dict_of_enumerate key l = [] → l = [].
Proof. rewrite dict_of_enumerate_imap. by destruct l. Qed.
End DictFacts.

Lemma dict_get_imap {V} (key : nat → V → string) (l : list V) i x :
  (∀ i j x y, key i x = key j y → i = j) →
  l !! i = Some x →
  dict_get (key i x) (imap (λ i x, (key i x, x)) l) = Some x.
Proof.
  revert key i. induction l as [|y l IH]; intros key i Hinj Hi; [done|].
  simpl. destruct (decide (key i x = key 0 y)) as [Heq|Hne].
  - apply Hinj in Heq as ->. simpl in Hi. congruence.
  - destruct i as [|i]; simpl in Hi.
    + injection Hi as ->. done.
    + apply (IH (λ j, key (S j)) i); [|done].
      intros ???? Hk. apply Hinj in Hk. lia.
Qed.

Lemma dict_get_enumerate {V} (key : nat → V → string) (l : list V) i x :
  (∀ i j x y, key i x = key j y → i = j) →
  l !! i = Some x →
  dict_get (key i x) (dict_of_enumerate key l) = Some x.
Proof.
  intros Hinj Hi. rewrite dict_of_enumerate_imap by done.
  by apply dict_get_imap.
Qed.

(** ** Labels *)

Section Labels.
Variable twitch : TwitchClient.
Variable menu : Menu.
Variable calculate_live_time : string → string.

Local Abbreviation label := (live_label twitch menu calculate_live_time).

(** The ordinal in front of a clip or video label tells entries apart. *)
Lemma clip_label_index i j c c' :
  clip_label twitch menu i c = clip_label twitch menu j c' → i = j.
Proof.
  unfold clip_label. cbv zeta. rewrite !str_app_assoc.
  intros Heq. apply app_sep_inj in Heq; auto using pretty_nat_no_space.
  by apply (inj pretty).
Qed.

Lemma video_label_index i j v v' :
  video_label twitch menu i v = video_label twitch menu j v' → i = j.
Proof.
  unfold video_label. intros Heq.
  apply app_sep_inj in Heq; auto using pretty_nat_no_space.
  by apply (inj pretty).
Qed.

Lemma clip_round_trip_holds clips : clip_round_trip twitch menu clips.
Proof.
  intros i c Hi. apply dict_get_enumerate; [|done].
  intros ????. apply clip_label_index.
Qed.

Lemma video_round_trip_holds videos : video_round_trip twitch menu videos.
Proof.
  intros i c Hi. apply dict_get_enumerate; [|done].
  intros ????. apply video_label_index.
Qed.

(** The label of the merger begins with the icon, the name and the
    delimiter, each followed by a space. *)
Lemma live_label_shape c :
  ∃ tail,
    label c
    = live_icon twitch +:+ " " +:+ FollowedStream.user_name c +:+ " "
      +:+ delimiter twitch +:+ tail.
Proof.
  unfold live_label. cbv zeta. rewrite !str_app_assoc. eauto.
Qed.
End Labels.

Lemma str_split_go_two n d sep a b rest :
  has_char d a = false → has_char d b = false → (2 ≤ n)%nat →
  ∃ more,
    str_split_go n (String d sep)
      (a +:+ String d sep +:+ b +:+ String d sep +:+ rest)
    = a :: b :: more.
Proof.
  intros Ha Hb Hn. destruct n as [|[|n]]; [lia|lia|].
  rewrite str_split_go_app by done. rewrite str_split_go_app by done. eauto.
Qed.

Lemma str_split_go_head n d sep a rest :
  has_char d a = false → (1 ≤ n)%nat →
  ∃ more,
    str_split_go n (String d sep) (a +:+ String d sep +:+ rest) = a :: more.
Proof.
  intros Ha Hn. destruct n as [|n]; [lia|].
  rewrite str_split_go_app by done. eauto.
Qed.

Section RoundTrip.
Variable twitch : TwitchClient.
Variable menu : Menu.
Variable calculate_live_time : string → string.

Local Abbreviation label := (live_label twitch menu calculate_live_time).

(** [selected.split(" ")[1]] on a label of the merger. *)
Lemma follow_key_label c st :
  has_char " " (live_icon twitch) = false →
  has_char " " (FollowedStream.user_name c) = false →
  follow_key twitch (label c) st = (Return (FollowedStream.user_name c), st).
Proof.
  intros Hlive Hname.
  destruct (live_label_shape twitch menu calculate_live_time c) as [tail ->].
  unfold follow_key. rewrite str_contains_prefix. unfold str_split.
  edestruct (str_split_go_two
               (String.length
                  (live_icon twitch +:+ " " +:+ FollowedStream.user_name c
                   +:+ " " +:+ delimiter twitch +:+ tail))
               " "%char EmptyString (live_icon twitch)
               (FollowedStream.user_name c) (delimiter twitch +:+ tail))
    as [more ->]; [done|done| |done].
  rewrite !str_length_app. simpl. lia.
Qed.

(** [clean_string(selected, live_icon)] on a label of the merger: the
    icon in front goes, the name and the delimiter stay. *)
Lemma clean_string_label name tail :
  icon_free (live_icon twitch) (" " +:+ name +:+ " " +:+ delimiter twitch)
  = true →
  ∃ tail',
    clean_string
      (live_icon twitch +:+ " " +:+ name +:+ " " +:+ delimiter twitch
       +:+ tail) (live_icon twitch)
    = (" " +:+ name +:+ " ") +:+ delimiter twitch +:+ tail'.
Proof.
  unfold clean_string, str_remove, icon_free.
  destruct (live_icon twitch) as [|l icon] eqn:E; intros Hfree.
  - exists tail. by rewrite str_app_nil, !str_app_assoc.
  - apply negb_true_iff in Hfree.
    rewrite str_length_app. cbn [String.length Nat.add].
    rewrite str_remove_go_prefix.
    replace (" " +:+ name +:+ " " +:+ delimiter twitch +:+ tail)
      with ((" " +:+ name +:+ " " +:+ delimiter twitch) +:+ tail)
      by (by rewrite !str_app_assoc).
    rewrite str_remove_go_skip by done.
    eexists. by rewrite !str_app_assoc.
Qed.

(** [clean_string(...).split(delimiter)[0].strip()] on a label of the
    merger. *)
Lemma online_name_label c st :
  str_strip (FollowedStream.user_name c) = FollowedStream.user_name c →
  delimiter_free (delimiter twitch)
    (" " +:+ FollowedStream.user_name c +:+ " ") = true →
  icon_free (live_icon twitch)
    (" " +:+ FollowedStream.user_name c +:+ " " +:+ delimiter twitch) = true →
  online_name twitch (label c) st = (Return (FollowedStream.user_name c), st).
Proof.
  intros Hstrip Hdelim Hicon.
  destruct (live_label_shape twitch menu calculate_live_time c) as [tail ->].
  destruct (clean_string_label (FollowedStream.user_name c) tail Hicon)
    as [tail' Hclean].
  unfold online_name. rewrite Hclean. unfold str_split, delimiter_free in *.
  destruct (delimiter twitch) as [|d delim] eqn:E; [done|].
  apply negb_true_iff in Hdelim.
  edestruct (str_split_go_head
               (String.length
                  ((" " +:+ FollowedStream.user_name c +:+ " ")
                   +:+ String d delim +:+ tail'))
               d delim (" " +:+ FollowedStream.user_name c +:+ " ") tail')
    as [more ->]; [done| |].
  - rewrite !str_length_app. simpl. lia.
  - by rewrite str_strip_spaces, Hstrip.
Qed.
End RoundTrip.

(** C9 at its failing input: the followed channel [night owl] is live.
    Its label stands on the Follows screen and its follow is in the
    dictionary under the whole name, but the key [show_follows] reads back
    from the label, [selected.split(" ")[1]], is the first word of the
    name: the lookup raises [KeyError] and no screen follows. *)
Theorem follow_key_cuts_name_at_space :
  let label :=
    live_label DemoSpace.twitch Demo.menu Demo.live_time Demo.two_words in
  let followed :=
    dict_of ChannelUserFollows.to_name (follows DemoSpace.twitch 0) in
  let res := DemoSpace.app 6 ShowFollowsAndOnline (Demo.start [label]) in
  label = "* night owl | Late show (@3 viewers | 1h)" ∧
  dict_get "night owl" followed = Some DemoSpace.night_owl ∧
  follow_key DemoSpace.twitch label (Demo.start [])
  = (Return "night", Demo.start []) ∧
  res
  = (Raise (KeyError "night"),
     mkState []
       [Api ReqFollows; Api ReqFollowedStreamsLive;
        MenuShow ["alice"; label] (Some "'twitch follows:'") (Some true)
          (Some "- Offline and Online channels")]
       2 (Some (follows DemoSpace.twitch 0))).
Proof. repeat split; vm_compute; reflexivity. Qed.

(** On the same label the reading of the "Live followed" screen,
    [clean_string(...).split(delimiter)[0].strip()] (with [clean_string]
    as modelled), keeps the name whole. *)
Example online_name_keeps_space :
  online_name DemoSpace.twitch
    (live_label DemoSpace.twitch Demo.menu Demo.live_time Demo.two_words)
    (Demo.start [])
  = (Return "night owl", Demo.start []).
Proof. reflexivity. Qed.

(** ** The screens *)

Lemma unwind_same {A} (o : Outcome A) :
  (∀ a, o ≠ Return a) → @unwind A A o = o.
Proof. destruct o; try done. intros H. by destruct (H a). Qed.

Section ScreenFacts.
Variable twitch : TwitchClient.
Variable menu : Menu.
Variable player_name : string.
Variable tv_join : string → string.
Variable calculate_live_time : string → string.

Local Abbreviation app :=
  (run twitch menu player_name tv_join calculate_live_time).

(** The Info screen ends by entering itself again: it never returns to
    its caller. *)
Lemma show_info_never_returns depth user_id st v :
  (app depth (ShowInfo user_id) st).1 ≠ Return v.
Proof.
  revert user_id st v. induction depth as [|d IH]; intros user_id st v;
    [done|].
  cbn [run]. unfold show_info.
  repeat (apply bind_not_return_r; intros).
  apply IH.
Qed.

Lemma show_follows_and_online_never_returns depth st v :
  (app depth ShowFollowsAndOnline st).1 ≠ Return v.
Proof.
  destruct depth as [|d]; [done|].
  cbn [run]. unfold show_follows_and_online.
  apply bind_not_return_r. intros. apply show_info_never_returns.
Qed.

Lemma clips_or_fetch_empty channel clips script tr rq cache :
  clips = None ∨ clips = Some [] →
  clips_or_fetch twitch channel clips (mkState script tr rq cache)
  = (Return (get_clips twitch rq (BroadcasterInfo.broadcaster_id channel)),
     mkState script
       (tr ++ [Log DEBUG
                 ("Getting [green bold]clips[/] from channel [red bold]"
                  +:+ BroadcasterInfo.broadcaster_name channel +:+ "[/]");
               Api (ReqClips (BroadcasterInfo.broadcaster_id channel))])
       (S rq) cache).
Proof.
  intros [-> | ->]; unfold clips_or_fetch, bind, log, emit, request; simpl;
    by rewrite <- app_assoc.
Qed.

Lemma clips_or_fetch_cached channel c cs st :
  clips_or_fetch twitch channel (Some (c :: cs)) st = (Return (c :: cs), st).
Proof. done. Qed.

Lemma show_no_results_message_answered msg r rest tr rq cache :
  show_no_results_message msg (mkState (r :: rest) tr rq cache)
  = (Return tt,
     mkState rest (tr ++ [Log WARNING msg; MenuShow [msg] None None None])
       rq cache).
Proof.
  unfold show_no_results_message, bind, log, emit, menu_show_items, ret.
  simpl. by rewrite <- app_assoc.
Qed.
End ScreenFacts.

(** C5: when the clip fetch of a channel returns an empty list, the Clips
    screen logs and shows the no-results message and then is the Info
    screen of that same channel: from the state the message left, the run
    of [show_clips] is the run of [show_info] on the channel's id, with the
    same outcome and the same trace. The Info screen never returns, so the
    selection prompt over the clip options that follows in [show_clips] is
    not reached. *)
Theorem show_clips_no_results
    (twitch : TwitchClient) (menu : Menu) (player_name : string)
    (tv_join : string → string) (calculate_live_time : string → string)
    (d : nat) (channel : BroadcasterInfo.t)
    (clips : option (list TwitchClip.t)) (r : string) (rest : list string)
    (tr : list Event) (rq : nat) (cache : option (list ChannelUserFollows.t)) :
  clips = None ∨ clips = Some [] →
  get_clips twitch rq (BroadcasterInfo.broadcaster_id channel) = [] →
  let id := BroadcasterInfo.broadcaster_id channel in
  let msg := "No available clips from followed channel: "
             +:+ BroadcasterInfo.broadcaster_name channel in
  let res :=
    run twitch menu player_name tv_join calculate_live_time (S d)
      (ShowClips channel clips) (mkState (r :: rest) tr rq cache) in
  res
  = run twitch menu player_name tv_join calculate_live_time d (ShowInfo id)
      (mkState rest
         (tr ++ [Log DEBUG
                   ("Getting [green bold]clips[/] from channel [red bold]"
                    +:+ BroadcasterInfo.broadcaster_name channel +:+ "[/]");
                 Api (ReqClips id);
                 Log WARNING msg;
                 MenuShow [msg] None None None])
         (S rq) cache)
  ∧ ∀ v, res.1 ≠ Return v.
Proof.
  intros Hclips Hfetch id msg res.
  assert (res
    = run twitch menu player_name tv_join calculate_live_time d (ShowInfo id)
        (mkState rest
           (tr ++ [Log DEBUG
                     ("Getting [green bold]clips[/] from channel [red bold]"
                      +:+ BroadcasterInfo.broadcaster_name channel +:+ "[/]");
                   Api (ReqClips id);
                   Log WARNING msg;
                   MenuShow [msg] None None None])
           (S rq) cache)) as Hres.
  { subst res. cbn [run]. unfold show_clips.
    rewrite (bind_return _ _ _ _ _
               (clips_or_fetch_empty twitch channel clips _ _ _ _ Hclips)).
    rewrite Hfetch.
    change (dict_of_enumerate _ []) with (@nil (string * TwitchClip.t)).
    cbv zeta. cbn [is_empty].
    match goal with
    | |- bind (bind ?m ?k) ?k' ?s = run _ _ _ _ _ _ _ ?s' =>
        assert (bind m k s = run twitch menu player_name tv_join
                               calculate_live_time d (ShowInfo id) s') as Hinfo
    end.
    { rewrite (bind_return _ _ _ _ _
                 (show_no_results_message_answered _ _ _ _ _ _)).
      rewrite <- app_assoc. done. }
    destruct (run twitch menu player_name tv_join calculate_live_time d
                (ShowInfo id) _) as [o st'] eqn:E.
    assert (∀ v, o ≠ Return v) as Hnot.
    { intros v.
      match type of E with
      | run _ _ _ _ _ _ _ ?s = _ =>
          pose proof (show_info_never_returns twitch menu player_name
                        tv_join calculate_live_time d id s v) as Hn
      end.
      by rewrite E in Hn. }
    rewrite (bind_unwind _ _ _ _ _ Hinfo Hnot).
    by rewrite unwind_same. }
  split; [done|].
  rewrite Hres. intros v. apply show_info_never_returns.
Qed.

Lemma show_clips_no_results_witness :
  get_clips Demo.twitch 0 (BroadcasterInfo.broadcaster_id Demo.carol_channel)
  = [] ∧
  (let res := Demo.app 3 (ShowClips Demo.carol_channel None)
                (Demo.start ["ok"; "Clips: Get clips"]) in
   res
   = Demo.app 2 (ShowInfo "3")
       (mkState ["Clips: Get clips"]
          ([] ++ [Log DEBUG
                    "Getting [green bold]clips[/] from channel [red bold]carol[/]";
                  Api (ReqClips "3");
                  Log WARNING "No available clips from followed channel: carol";
                  MenuShow ["No available clips from followed channel: carol"]
                    None None None])
          1 None)
   ∧ ∀ v, res.1 ≠ Return v).
Proof.
  split; [reflexivity|].
  apply (show_clips_no_results Demo.twitch Demo.menu "mpv" Demo.tv_join
           Demo.live_time 2 Demo.carol_channel None "ok" ["Clips: Get clips"]
           [] 0 None).
  - by left.
  - reflexivity.
Defined.

(** ** A session on the Clips screen *)

Lemma dict_get_keys {V} (d : dict V) k :
  k ∈ dict_keys d → is_Some (dict_get k d).
Proof.
  unfold dict_keys. induction d as [|[k' v] d IH]; simpl.
  - by intros ?%elem_of_nil.
  - intros Hin. destruct (decide (k = k')); [eauto|].
    apply elem_of_cons in Hin as [?|?]; [done|]. by apply IH.
Qed.

Lemma count_requests_app r tr1 tr2 :
  count_requests r (tr1 ++ tr2)
  = (count_requests r tr1 + count_requests r tr2)%nat.
Proof.
  induction tr1 as [|e tr1 IH]; [done|].
  destruct e; simpl; rewrite IH; lia.
Qed.

Section ClipsFacts.
Variable twitch : TwitchClient.
Variable menu : Menu.
Variable player_name : string.
Variable tv_join : string → string.
Variable calculate_live_time : string → string.
Variable channel : BroadcasterInfo.t.
Variable clips : list TwitchClip.t.
Hypothesis clips_nonempty : clips ≠ [].

Local Abbreviation app :=
  (run twitch menu player_name tv_join calculate_live_time).
Local Abbreviation turn := (clips_turn twitch menu player_name channel clips).
Local Abbreviation draw := (clips_draw twitch menu channel clips).
Local Abbreviation clips_dict :=
  (dict_of_enumerate (clip_label twitch menu) clips).

Lemma clips_dict_nonempty : is_empty clips_dict = false.
Proof.
  destruct clips_dict eqn:E; [|done].
  apply dict_of_enumerate_nil in E; [done|].
  intros ????. apply clip_label_index.
Qed.

Lemma clips_dict_values : dict_values clips_dict = clips.
Proof.
  apply dict_values_enumerate. intros ????. apply clip_label_index.
Qed.

Lemma play_clip_selected_events clip script tr rq cache :
  play_clip_selected player_name clip (mkState script tr rq cache)
  = (Return tt,
     mkState script (tr ++ clip_played player_name clip) rq cache).
Proof.
  unfold play_clip_selected, clip_played, bind, log, emit. simpl.
  by rewrite <- !app_assoc.
Qed.

Lemma count_requests_turn r selected : count_requests r (turn selected) = 0%nat.
Proof.
  unfold clips_turn. simpl. by destruct (dict_get _ _).
Qed.

Lemma count_requests_turns r picks :
  count_requests r (flat_map turn picks) = 0%nat.
Proof.
  induction picks as [|p picks IH]; [done|].
  cbn [flat_map]. by rewrite count_requests_app, count_requests_turn, IH.
Qed.

Lemma clips_or_fetch_kept st :
  clips_or_fetch twitch channel (Some clips) st = (Return clips, st).
Proof using clips_nonempty. by destruct clips. Qed.

(** The screen with the script used up: it draws and waits. *)
Lemma show_clips_waits d arg st tr rq cache :
  clips_or_fetch twitch channel arg st
  = (Return clips, mkState [] tr rq cache) →
  app (S (S d)) (ShowClips channel arg) st
  = (AwaitInput, mkState [] (tr ++ [draw]) rq cache).
Proof.
  intros Hfetch. cbn [run]. unfold show_clips.
  rewrite (bind_return _ _ _ _ _ Hfetch). cbv zeta.
  rewrite clips_dict_nonempty.
  rewrite (bind_return _ _ (mkState [] tr rq cache) tt
             (mkState [] tr rq cache)) by done.
  by rewrite (bind_unwind _ _ _ _ _ (show_items_blocks _ _ _ _ _ _ _ _ _ _ _)).
Qed.

(** One turn: the draw, the clip played, and the screen entered again
    with the list it already has. *)
Lemma show_clips_turn d arg st selected rest tr rq cache :
  clips_or_fetch twitch channel arg st
  = (Return clips, mkState (selected :: rest) tr rq cache) →
  selects_clip twitch menu clips selected →
  app (S (S d)) (ShowClips channel arg) st
  = app (S d) (ShowClips channel (Some clips))
      (mkState rest (tr ++ turn selected) rq cache).
Proof.
  intros Hfetch (Hopt & Hlist & Hback). cbn [run]. unfold show_clips.
  rewrite (bind_return _ _ _ _ _ Hfetch). cbv zeta.
  rewrite clips_dict_nonempty.
  rewrite (bind_return _ _ (mkState (selected :: rest) tr rq cache) tt
             (mkState (selected :: rest) tr rq cache)) by done.
  rewrite (bind_return _ _ _ _ _
             (show_items_branch menu _ d _ _ _ _ _ selected rest tr rq cache
                KnownItem
                (classifies_known _ _ _ _ Hlist (λ H, Hback (proj1 H))))).
  cbn [gate_branch].
  destruct (dict_get_keys clips_dict selected Hopt) as [clip Hclip].
  unfold subscript at 1. rewrite Hclip.
  rewrite (bind_return _ _ _ clip _ eq_refl).
  rewrite (bind_return _ _ _ _ _ (play_clip_selected_events _ _ _ _ _)).
  rewrite clips_dict_values.
  unfold clips_turn. rewrite Hclip.
  by rewrite <- app_assoc.
Qed.

(** The session from any way of having the list. *)
Lemma show_clips_session k picks :
  Forall (selects_clip twitch menu clips) picks →
  ∀ arg st tr rq cache,
    clips_or_fetch twitch channel arg st
    = (Return clips, mkState picks tr rq cache) →
    app (length picks + S (S k)) (ShowClips channel arg) st
    = (AwaitInput,
       mkState [] (tr ++ flat_map turn picks ++ [draw]) rq cache).
Proof.
  induction 1 as [|selected picks Hsel _ IH]; intros arg st tr rq cache Hfetch.
  - by apply show_clips_waits.
  - cbn [length Nat.add flat_map].
    replace (length picks + S (S k))%nat with (S (length picks + S k))%nat
      by lia.
    rewrite (show_clips_turn _ _ _ _ _ _ _ _ Hfetch Hsel).
    replace (S (length picks + S k))%nat with (length picks + S (S k))%nat
      by lia.
    rewrite (IH (Some clips) _ (tr ++ turn selected) rq cache
               (clips_or_fetch_kept _)).
    by rewrite <- !app_assoc.
Qed.
End ClipsFacts.

(** C6: one Clips session fetches the clip list once. Entered without a
    list, the screen requests the clips of the channel; after each clip
    that is selected and played it enters itself again with the list it
    already has. Whatever the number of selections, every draw shows the
    options of the fetched list, the trace of the session holds one clip
    request, and it is the only API request of the session. *)
Theorem show_clips_fetches_once
    (twitch : TwitchClient) (menu : Menu) (player_name : string)
    (tv_join : string → string) (calculate_live_time : string → string)
    (channel : BroadcasterInfo.t) (clips : list TwitchClip.t)
    (picks : list string) (k : nat)
    (tr : list Event) (rq : nat) (cache : option (list ChannelUserFollows.t)) :
  get_clips twitch rq (BroadcasterInfo.broadcaster_id channel) = clips →
  clips ≠ [] →
  Forall (selects_clip twitch menu clips) picks →
  let id := BroadcasterInfo.broadcaster_id channel in
  ∃ st',
    run twitch menu player_name tv_join calculate_live_time
      (length picks + S (S k)) (ShowClips channel None)
      (mkState picks tr rq cache)
    = (AwaitInput, st') ∧
    trace st'
    = tr ++ [Log DEBUG ("Getting [green bold]clips[/] from channel [red bold]"
                        +:+ BroadcasterInfo.broadcaster_name channel +:+ "[/]");
             Api (ReqClips id)]
         ++ flat_map (clips_turn twitch menu player_name channel clips) picks
         ++ [clips_draw twitch menu channel clips] ∧
    count_requests (ReqClips id) (trace st')
    = S (count_requests (ReqClips id) tr) ∧
    requests st' = S rq.
Proof.
  intros Hfetch Hne Hpicks id.
  eexists. split; [|split; [|split]].
  - apply show_clips_session; [done|done|].
    rewrite (clips_or_fetch_empty twitch channel None picks tr rq cache)
      by (by left).
    by rewrite Hfetch.
  - cbn [trace]. by rewrite <- !app_assoc.
  - cbn [trace]. rewrite !count_requests_app, count_requests_turns.
    simpl. rewrite decide_True by done. lia.
  - done.
Qed.

Lemma show_clips_fetches_once_witness :
  let first := clip_label Demo.twitch Demo.menu 0
                 (TwitchClip.mk "Opening" "ann" 10 "2024-01-01"
                    "https://clips/1" "bob") in
  let second := clip_label Demo.twitch Demo.menu 1
                  (TwitchClip.mk "Endgame" "ben" 25 "2024-01-02"
                     "https://clips/2" "bob") in
  ∃ st',
    Demo.app (length [first; second; first] + 2)
      (ShowClips Demo.bob_channel None)
      (mkState [first; second; first] [] 0 None)
    = (AwaitInput, st') ∧
    trace st'
    = [] ++ [Log DEBUG
               "Getting [green bold]clips[/] from channel [red bold]bob[/]";
             Api (ReqClips "2")]
         ++ flat_map (clips_turn Demo.twitch Demo.menu "mpv" Demo.bob_channel
                        Demo.clips) [first; second; first]
         ++ [clips_draw Demo.twitch Demo.menu Demo.bob_channel Demo.clips] ∧
    count_requests (ReqClips "2") (trace st')
    = S (count_requests (ReqClips "2") []) ∧
    requests st' = 1%nat.
Proof.
  intros first second.
  apply (show_clips_fetches_once Demo.twitch Demo.menu "mpv" Demo.tv_join
           Demo.live_time Demo.bob_channel Demo.clips [first; second; first]
           0 [] 0 None).
  - reflexivity.
  - discriminate.
  - repeat constructor;
      solve [ apply (bool_decide_unpack _); vm_compute; exact I
            | vm_compute; discriminate ].
Defined.

(** ** The Follows screen *)

(** C3, as stated, on the installation: the Follows screen is answered
    with the label of the live channel [bob]; the Info screen of [bob] is
    fetched and presented, and no player is started. *)
Lemma follows_selection_does_not_play :
  ¬ follows_selection_plays Demo.twitch Demo.menu "mpv" Demo.tv_join
      Demo.live_time 6 Demo.bob.
Proof.
  unfold follows_selection_plays. apply (bool_decide_unpack _).
  vm_compute. exact I.
Qed.

Example follows_selection_trace :
  Demo.app 6 ShowFollowsAndOnline
    (mkState ["* bob | Speedrun (@120 viewers | 1h)"] [] 0 None)
  = (AwaitInput,
     mkState []
       [Api ReqFollows; Api ReqFollowedStreamsLive;
        MenuShow ["alice"; "* bob | Speedrun (@120 viewers | 1h)"; "carol"]
          (Some "'twitch follows:'") (Some true)
          (Some "- Offline and Online channels");
        Api (ReqInformation "2"); Api (ReqIsOnline "2");
        MenuShow ["Category: Chess"; "* Live Stream: Speedrun";
                  "-----------------------"; "Videos: Get videos";
                  "Clips: Get clips"]
          (Some "'bob info:'") (Some true) (Some "Channel bob information")]
       4 (Some [ChannelUserFollows.mk "1" "alice";
                ChannelUserFollows.mk "2" "bob";
                ChannelUserFollows.mk "3" "carol"])).
Proof. reflexivity. Qed.

(** C3 (amended): the Follows screen has one caller,
    [show_follows_and_online], the "All follows" entry of the root menu
    and the back target of the Info screen. When the selection is the
    label of a live stream, offered by the menu, and neither the live icon
    nor the name of the stream holds a space, the selection is cut down to
    its second token, the bare name, and looked up among the follows; with
    the name followed, the run then is the Info screen of that follow. No
    stream is launched on the way: the trace grows by the live request and
    the draw of the Follows screen only. (What a name with a space does
    is the matter of C9.) *)
Theorem show_follows_selection_to_info
    (twitch : TwitchClient) (menu : Menu) (player_name : string)
    (tv_join : string → string) (calculate_live_time : string → string)
    (d : nat) (c : FollowedStream.t) (f : ChannelUserFollows.t)
    (users : list ChannelUserFollows.t) (rest : list string)
    (tr tr1 : list Event) (rq rq1 : nat)
    (cache cache1 : option (list ChannelUserFollows.t)) :
  let selected := live_label twitch menu calculate_live_time c in
  let follows := dict_of ChannelUserFollows.to_name users in
  let names :=
    merge_with_online twitch menu calculate_live_time
      (sorted (dict_keys follows)) (followed_streams_live twitch rq1) in
  user_follows twitch (mkState (selected :: rest) tr rq cache)
  = (Return users, mkState (selected :: rest) tr1 rq1 cache1) →
  selected ∈ listing menu names (Some true) →
  selected ≠ back menu →
  has_char " " (live_icon twitch) = false →
  has_char " " (FollowedStream.user_name c) = false →
  dict_get (FollowedStream.user_name c) follows = Some f →
  run twitch menu player_name tv_join calculate_live_time (S (S d))
    ShowFollowsAndOnline (mkState (selected :: rest) tr rq cache)
  = run twitch menu player_name tv_join calculate_live_time (S d)
      (ShowInfo (ChannelUserFollows.to_id f))
      (mkState rest
         (tr1 ++ [Api ReqFollowedStreamsLive;
                  MenuShow names (Some "'twitch follows:'") (Some true)
                    (Some (follows_mesg menu))])
         (S rq1) cache1).
Proof.
  intros selected follows names Hfetch Hlist Hback Hlive Hname Hget.
  cbn [run]. unfold show_follows_and_online, show_follows.
  rewrite bind_assoc, (bind_return _ _ _ _ _ Hfetch). cbv zeta.
  rewrite bind_assoc. unfold request at 1. unfold bind at 1.
  cbn [requests replies trace _user_follows].
  rewrite bind_assoc.
  rewrite (bind_return _ _ _ _ _
             (show_items_branch menu _ d _ _ _ _ _ selected rest _ _ _
                KnownItem
                (classifies_known _ _ _ _ Hlist (λ H, Hback (proj1 H))))).
  cbn [gate_branch]. unfold resolve_follow. subst selected.
  rewrite bind_assoc.
  rewrite (bind_return _ _ _ _ _
             (follow_key_label twitch menu calculate_live_time c _ Hlive Hname)).
  unfold subscript. subst follows. rewrite Hget.
  rewrite (bind_return _ _ _ f _ eq_refl).
  by rewrite <- app_assoc.
Qed.

Lemma show_follows_selection_to_info_witness :
  Demo.app 6 ShowFollowsAndOnline
    (mkState
       [live_label Demo.twitch Demo.menu Demo.live_time Demo.bob;
        "Clips: Get clips"] [] 0 None)
  = Demo.app 5 (ShowInfo "2")
      (mkState ["Clips: Get clips"]
         ([Api ReqFollows]
          ++ [Api ReqFollowedStreamsLive;
              MenuShow
                (merge_with_online Demo.twitch Demo.menu Demo.live_time
                   (sorted
                      (dict_keys
                         (dict_of ChannelUserFollows.to_name
                            (follows Demo.twitch 0))))
                   (followed_streams_live Demo.twitch 1))
                (Some "'twitch follows:'") (Some true)
                (Some (follows_mesg Demo.menu))])
         2 (Some (follows Demo.twitch 0))).
Proof.
  apply (show_follows_selection_to_info Demo.twitch Demo.menu "mpv"
           Demo.tv_join Demo.live_time 4 Demo.bob
           (ChannelUserFollows.mk "2" "bob") (follows Demo.twitch 0)
           ["Clips: Get clips"] [] [Api ReqFollows] 0 1 None
           (Some (follows Demo.twitch 0))).
  - reflexivity.
  - apply (bool_decide_unpack _). vm_compute. exact I.
  - vm_compute. discriminate.
  - reflexivity.
  - reflexivity.
  - reflexivity.
Defined.

(** The launch belongs to the "Live followed" screen: its selection, read
    back to a name, goes to the player and the screen returns. *)
Lemma show_online_follows_plays
    (twitch : TwitchClient) (menu : Menu) (player_name : string)
    (tv_join : string → string) (calculate_live_time : string → string)
    (d : nat) (selected name : string) (rest : list string)
    (tr : list Event) (rq : nat) (cache : option (list ChannelUserFollows.t)) :
  let items :=
    dict_of FollowedStream.user_name (channels_live_for_menu twitch rq) in
  is_empty items = false →
  selected ∈ listing menu (dict_keys items) (Some true) →
  selected ≠ back menu →
  (∀ st, online_name twitch selected st = (Return name, st)) →
  run twitch menu player_name tv_join calculate_live_time (S (S d))
    ShowOnlineFollows (mkState (selected :: rest) tr rq cache)
  = (Return tt,
     mkState rest
       (tr ++ [Api ReqChannelsLiveForMenu;
               MenuShow (dict_keys items) (Some "'twitch live:'") (Some true)
                 None;
               Log INFO ("[yellow]Opening[/] [red bold]" +:+ name
                         +:+ "[/] with [green]" +:+ player_name +:+ "[/]");
               Notification ("Opening stream <b>" +:+ name +:+ "</b>");
               Play (tv_join name)])
       (S rq) cache).
Proof.
  intros items Hne Hlist Hback Hname.
  cbn [run]. unfold show_online_follows.
  unfold request at 1. unfold bind at 1.
  cbn [requests replies trace _user_follows].
  fold items. rewrite Hne.
  rewrite (bind_return _ _ _ _ _
             (show_items_branch menu _ d _ _ _ _ _ selected rest _ _ _
                KnownItem
                (classifies_known _ _ _ _ Hlist (λ H, Hback (proj1 H))))).
  cbn [gate_branch].
  rewrite (bind_return _ _ _ _ _ (Hname _)).
  unfold play_stream_selected, bind, log, emit. simpl.
  by rewrite <- !app_assoc.
Qed.

(** ** The cache of follows *)

Section Cache.
Variable twitch : TwitchClient.

(** A non-empty cached collection is returned as it is. *)
Lemma user_follows_cached u us st :
  _user_follows st = Some (u :: us) →
  user_follows twitch st = (Return (u :: us), st).
Proof. unfold user_follows. by intros ->. Qed.

(** Unset or empty, the cache is filled by a request. *)
Lemma user_follows_fetches script tr rq cache :
  cache = None ∨ cache = Some [] →
  user_follows twitch (mkState script tr rq cache)
  = (Return (follows twitch rq),
     mkState script (tr ++ [Api ReqFollows]) (S rq)
       (Some (follows twitch rq))).
Proof. by intros [-> | ->]. Qed.
End Cache.

(** C4 at its failing input: an account that follows nobody. The user
    opens "All follows", answers the empty list with something it does not
    hold, acknowledges the information screen and, back on the root menu,
    opens "All follows" again. The follows are requested twice: the empty
    collection of the first request is stored, and [not self._user_follows]
    takes it for a cache that was never filled. *)
Theorem user_follows_refetched_when_empty :
  let res :=
    Demo.lonely_app 8 ShowMenu
      (Demo.start ["- All follows"; "x"; "Option 'x' selected not found.";
                   "- All follows"]) in
  count_requests ReqFollows (trace res.2) = 2%nat ∧
  _user_follows res.2 = Some [].
Proof. split; reflexivity. Qed.

(** The same two steps on the property alone. *)
Lemma user_follows_twice_when_empty twitch script tr rq :
  follows twitch rq = [] →
  (do _ <- user_follows twitch; user_follows twitch)
    (mkState script tr rq None)
  = (Return (follows twitch (S rq)),
     mkState script (tr ++ [Api ReqFollows; Api ReqFollows]) (S (S rq))
       (Some (follows twitch (S rq)))).
Proof.
  intros Hempty.
  rewrite (bind_return _ _ _ _ _
             (user_follows_fetches twitch _ _ _ _ (or_introl eq_refl))).
  rewrite Hempty.
  rewrite (user_follows_fetches twitch _ _ _ _ (or_intror eq_refl)).
  by rewrite <- app_assoc.
Qed.

(** ** A filled cache stays for the rest of the run

    Once a non-empty collection is cached, no screen and no sequence of
    screens changes the cache or requests the follows again. *)

Lemma cache_kept_refl st : cache_kept st st.
Proof. by intros u us ?. Qed.

Lemma cache_kept_trans st1 st2 st3 :
  cache_kept st1 st2 → cache_kept st2 st3 → cache_kept st1 st3.
Proof.
  intros H12 H23 u us H1. destruct (H12 u us H1) as [H2 Hc2].
  destruct (H23 u us H2) as [H3 Hc3]. split; [done|congruence].
Qed.

Lemma keeps_cache_ret {A} (a : A) : keeps_cache (ret a).
Proof. intros st. apply cache_kept_refl. Qed.

Lemma keeps_cache_bind {A B} (m : M A) (f : A → M B) :
  keeps_cache m → (∀ a, keeps_cache (f a)) → keeps_cache (bind m f).
Proof.
  intros Hm Hf st. unfold bind. specialize (Hm st).
  destruct (m st) as [[a| | | |] st1]; simpl in *; try done.
  eapply cache_kept_trans; [done|apply Hf].
Qed.

Lemma keeps_cache_emit e :
  count_requests ReqFollows [e] = 0%nat → keeps_cache (emit e).
Proof.
  intros He st u us Hst. simpl. split; [done|].
  rewrite count_requests_app, He. lia.
Qed.

Lemma keeps_cache_log level msg : keeps_cache (log level msg).
Proof. by apply keeps_cache_emit. Qed.

Lemma keeps_cache_request {A} r (answer : nat → A) :
  r ≠ ReqFollows → keeps_cache (request r answer).
Proof.
  intros Hr st u us Hst. simpl. split; [done|].
  rewrite count_requests_app. simpl. rewrite decide_False by done. lia.
Qed.

Lemma keeps_cache_menu items prompt back_ mesg :
  keeps_cache (menu_show_items items prompt back_ mesg).
Proof.
  intros st u us Hst. unfold menu_show_items.
  destruct (replies st); simpl; (split; [done|]);
    rewrite count_requests_app; simpl; lia.
Qed.

Lemma keeps_cache_sys_exit {A} code : keeps_cache (@sys_exit A code).
Proof. intros st. apply cache_kept_refl. Qed.

Lemma keeps_cache_raise {A} e : keeps_cache (@raise A e).
Proof. intros st. apply cache_kept_refl. Qed.

Lemma keeps_cache_out_of_fuel {A} : keeps_cache (@out_of_fuel A).
Proof. intros st. apply cache_kept_refl. Qed.

Lemma keeps_cache_subscript {V} (d : dict V) k : keeps_cache (subscript d k).
Proof.
  unfold subscript. destruct (dict_get k d);
    [apply keeps_cache_ret|apply keeps_cache_raise].
Qed.

Lemma keeps_cache_user_follows twitch : keeps_cache (user_follows twitch).
Proof.
  intros st u us Hst. unfold user_follows. rewrite Hst. by simpl.
Qed.

Create HintDb cache discriminated.

#[local] Hint Resolve keeps_cache_ret keeps_cache_log keeps_cache_menu
  keeps_cache_sys_exit keeps_cache_raise keeps_cache_out_of_fuel
  keeps_cache_subscript keeps_cache_user_follows : cache.
#[local] Hint Extern 1 (keeps_cache (request _ _)) =>
  apply keeps_cache_request; discriminate : cache.
#[local] Hint Extern 1 (keeps_cache (emit _)) =>
  apply keeps_cache_emit; reflexivity : cache.

(** One step through a method body. *)
Ltac keeps_cache_step :=
  match goal with
  | |- keeps_cache (bind _ _) => apply keeps_cache_bind; [|intros ?]
  | |- keeps_cache (if ?b then _ else _) => destruct b
  | |- keeps_cache (match ?x with _ => _ end) => destruct x
  | |- keeps_cache (let _ := _ in _) => cbv zeta
  | |- keeps_cache _ => solve [auto with cache]
  end.

Section CacheKept.
Variable twitch : TwitchClient.
Variable menu : Menu.
Variable player_name : string.
Variable tv_join : string → string.
Variable calculate_live_time : string → string.

Local Abbreviation app :=
  (run twitch menu player_name tv_join calculate_live_time).

Lemma keeps_cache_show_items call depth :
  (∀ c, keeps_cache (call c)) →
  ∀ items fallback_fn prompt back_ mesg,
    keeps_cache (show_items menu call depth items fallback_fn prompt back_ mesg).
Proof.
  intros Hcall. induction depth as [|d IH]; intros; cbn [show_items];
    [auto with cache|].
  unfold handle_missing_option, run_fallback.
  repeat keeps_cache_step; auto with cache.
Qed.

Lemma keeps_cache_run depth : ∀ c, keeps_cache (app depth c).
Proof.
  induction depth as [|d IH]; intros c; cbn [run]; [auto with cache|].
  pose proof (keeps_cache_show_items _ d IH) as Hgate.
  destruct c; unfold show_menu, show_follows_and_online, show_follows,
    show_online_follows, show_info, show_videos, show_clips, clips_or_fetch,
    resolve_follow, follow_key, online_name, show_no_results_message,
    play_stream_selected, play_clip_selected;
    repeat keeps_cache_step; auto with cache.
Qed.

(** X23: Whatever screens follow, a non-empty cache is still there and the
    follows have not been requested again. *)
Lemma user_follows_never_refetched depth c st u us :
  _user_follows st = Some (u :: us) →
  _user_follows (app depth c st).2 = Some (u :: us) ∧
  count_requests ReqFollows (trace (app depth c st).2)
  = count_requests ReqFollows (trace st).
Proof. intros Hst. by apply keeps_cache_run. Qed.
End CacheKept.

(** ** What the screens never do *)

Section NeverReturn.
Variable twitch : TwitchClient.
Variable menu : Menu.
Variable player_name : string.
Variable tv_join : string → string.
Variable calculate_live_time : string → string.

Local Abbreviation app :=
  (run twitch menu player_name tv_join calculate_live_time).

Lemma loops_never_return depth c st v :
  loops c = true → (app depth c st).1 ≠ Return v.
Proof.
  revert c st v. induction depth as [|d IH]; intros c st v Hc; [done|].
  destruct c; try discriminate Hc; cbn [run];
    unfold show_follows_and_online, show_info, show_videos, show_clips.
  - apply bind_not_return_r. intros. by apply IH.
  - repeat (apply bind_not_return_r; intros). by apply IH.
  - apply bind_not_return_r. intros videos st' b. cbv zeta.
    destruct (is_empty _); repeat (apply bind_not_return_r; intros);
      by apply IH.
  - repeat (apply bind_not_return_r; intros). by apply IH.
Qed.
End NeverReturn.

(** X1: The Info, Videos, Clips and "All follows" screens never return to
    their caller: each ends by entering a screen of this family again, so a
    run through them ends in [sys.exit], in an exception or at a prompt
    that is not answered. Only the root menu and the "Live followed"
    screen can return. *)
Theorem looping_screens_never_return
    (twitch : TwitchClient) (menu : Menu) (player_name : string)
    (tv_join : string → string) (calculate_live_time : string → string)
    (depth : nat) (c : Call) (st : State) (v : unit) :
  loops c = true →
  (run twitch menu player_name tv_join calculate_live_time depth c st).1
  ≠ Return v.
Proof.
  intros Hc. destruct c; try discriminate Hc;
    by apply loops_never_return.
Qed.

Lemma looping_screens_never_return_witness :
  (Demo.app 6 (ShowVideos Demo.bob_channel) (Demo.start ["ok"])).1
  ≠ Return tt.
Proof.
  apply (looping_screens_never_return Demo.twitch Demo.menu "mpv" Demo.tv_join
           Demo.live_time 6 (ShowVideos Demo.bob_channel) (Demo.start ["ok"])
           tt).
  reflexivity.
Defined.

(** ** The exit status *)

Lemma exits_with_one_bind {A B} (m : M A) (f : A → M B) :
  exits_with_one m → (∀ a, exits_with_one (f a)) → exits_with_one (bind m f).
Proof.
  intros Hm Hf st code. unfold bind. specialize (Hm st code).
  destruct (m st) as [[a| | | |] st1]; simpl in *;
    [apply Hf|intros [= ->]; by apply Hm|done..].
Qed.

Lemma exits_with_one_plain {A} (m : M A) :
  (∀ st code, (m st).1 ≠ SystemExit code) → exits_with_one m.
Proof. intros H st code Hm. by destruct (H st code). Qed.

Lemma exits_with_one_sys_exit {A} : exits_with_one (@sys_exit A 1).
Proof. intros st code. simpl. by intros [= <-]. Qed.

Lemma exits_with_one_menu items prompt back_ mesg :
  exits_with_one (menu_show_items items prompt back_ mesg).
Proof.
  apply exits_with_one_plain. intros st code. unfold menu_show_items.
  by destruct (replies st).
Qed.

Lemma exits_with_one_subscript {V} (d : dict V) k :
  exits_with_one (subscript d k).
Proof.
  apply exits_with_one_plain. intros st code. unfold subscript.
  by destruct (dict_get k d).
Qed.

Lemma exits_with_one_user_follows twitch : exits_with_one (user_follows twitch).
Proof.
  apply exits_with_one_plain. intros st code. unfold user_follows.
  by destruct (_user_follows st) as [[|??]|].
Qed.

Create HintDb exits discriminated.

#[local] Hint Resolve exits_with_one_sys_exit exits_with_one_menu
  exits_with_one_subscript exits_with_one_user_follows : exits.
#[local] Hint Extern 2 (exits_with_one _) =>
  apply exits_with_one_plain; intros ??; discriminate : exits.

Ltac exits_with_one_step :=
  match goal with
  | |- exits_with_one (bind _ _) => apply exits_with_one_bind; [|intros ?]
  | |- exits_with_one (if ?b then _ else _) => destruct b
  | |- exits_with_one (match ?x with _ => _ end) => destruct x
  | |- exits_with_one (let _ := _ in _) => cbv zeta
  | |- exits_with_one _ => solve [auto with exits]
  end.

Section ExitStatus.
Variable twitch : TwitchClient.
Variable menu : Menu.
Variable player_name : string.
Variable tv_join : string → string.
Variable calculate_live_time : string → string.

Lemma exits_with_one_show_items call depth :
  (∀ c, exits_with_one (call c)) →
  ∀ items fallback_fn prompt back_ mesg,
    exits_with_one
      (show_items menu call depth items fallback_fn prompt back_ mesg).
Proof.
  intros Hcall. induction depth as [|d IH]; intros; cbn [show_items];
    [auto with exits|].
  unfold handle_missing_option, run_fallback, log, emit.
  repeat exits_with_one_step; auto with exits.
Qed.

(** X2: Whatever the screens, the script and the state, a run that ends in
    [sys.exit] ends with status 1: the only exit of the controller is the
    one of an invalid selection. *)
Theorem exit_status_is_one depth c st code :
  (run twitch menu player_name tv_join calculate_live_time depth c st).1
  = SystemExit code →
  code = 1%Z.
Proof.
  revert c st code.
  enough (∀ c, exits_with_one
                 (run twitch menu player_name tv_join calculate_live_time
                    depth c)) as H by (intros c; apply H).
  induction depth as [|d IH]; intros c; cbn [run]; [auto with exits|].
  pose proof (exits_with_one_show_items _ d IH) as Hgate.
  destruct c; unfold show_menu, show_follows_and_online, show_follows,
    show_online_follows, show_info, show_videos, show_clips, clips_or_fetch,
    resolve_follow, follow_key, online_name, show_no_results_message,
    play_stream_selected, play_clip_selected, log, emit, request, ret, raise;
    repeat exits_with_one_step; auto with exits.
Qed.
End ExitStatus.

Lemma exit_status_is_one_witness :
  (Demo.app 4 ShowMenu (Demo.start ["z"; "Option 'z' selected not found."])).1
  = SystemExit 1 ∧
  1%Z = 1%Z.
Proof.
  split; [reflexivity|].
  apply (exit_status_is_one Demo.twitch Demo.menu "mpv" Demo.tv_join
           Demo.live_time 4 ShowMenu
           (Demo.start ["z"; "Option 'z' selected not found."]) 1).
  reflexivity.
Defined.

(** ** Depth: every screen asks before it enters another *)

Lemma within_plain {A} (m : M A) k :
  (∀ st, (m st).1 ≠ OutOfFuel ∧ replies (m st).2 = replies st) → within k m.
Proof. intros H st _. destruct (H st) as [? ->]. done. Qed.

Lemma within_mono {A} (m : M A) j k :
  (j ≤ k)%nat → within k m → within j m.
Proof. intros Hjk H st Hst. apply H. lia. Qed.

Lemma consuming_within {A} (m : M A) k : consuming k m → within k m.
Proof. intros H st Hst. destruct (H st Hst) as (? & ? & _). done. Qed.

Lemma within_bind {A B} (m : M A) (f : A → M B) k :
  within k m → (∀ a, within k (f a)) → within k (bind m f).
Proof.
  intros Hm Hf st Hst. unfold bind. destruct (Hm st Hst) as [Ho Hlen].
  destruct (m st) as [[a| | | |] st1]; simpl in *; try done.
  destruct (Hf a st1) as [? ?]; [lia|]. split; [done|lia].
Qed.

Lemma within_assoc {A B C} (m : M A) (f : A → M B) (g : B → M C) k :
  within k (bind m (λ a, bind (f a) g)) → within k (bind (bind m f) g).
Proof. intros H st Hst. rewrite bind_assoc. by apply H. Qed.

Lemma consuming_bind {A B} (m : M A) (f : A → M B) k :
  consuming k m → (∀ a j, k = S j → within j (f a)) →
  consuming k (bind m f).
Proof.
  intros Hm Hf st Hst. unfold bind. destruct (Hm st Hst) as (Ho & Hlen & Hlt).
  destruct (m st) as [[a| | | |] st1]; simpl in *; try done.
  specialize (Hlt a eq_refl).
  destruct k as [|j]; [lia|].
  destruct (Hf a j eq_refl st1) as [? ?]; [lia|].
  split; [done|]. split; [lia|]. intros; lia.
Qed.

Lemma within_consuming_bind {A B} (m : M A) (f : A → M B) k :
  consuming k m → (∀ a j, k = S j → within j (f a)) → within k (bind m f).
Proof. intros. by apply consuming_within, consuming_bind. Qed.

Lemma consuming_menu items prompt back_ mesg k :
  consuming k (menu_show_items items prompt back_ mesg).
Proof.
  intros st _. unfold menu_show_items.
  destruct (replies st) as [|r rest]; simpl; repeat split;
    try done; try lia; intros; lia.
Qed.

Lemma within_subscript {V} (d : dict V) key k : within k (subscript d key).
Proof.
  apply within_plain. intros st. unfold subscript.
  by destruct (dict_get key d).
Qed.

Lemma within_user_follows twitch k : within k (user_follows twitch).
Proof.
  apply within_plain. intros st. unfold user_follows.
  by destruct (_user_follows st) as [[|??]|].
Qed.

Lemma consuming_show_no_results_message msg k :
  consuming k (show_no_results_message msg).
Proof.
  unfold show_no_results_message. intros st Hst.
  unfold bind, log, emit, menu_show_items, ret. simpl.
  destruct (replies st) as [|r rest]; simpl; repeat split;
    try done; try lia; intros; lia.
Qed.

Create HintDb depth discriminated.

#[local] Hint Resolve within_subscript within_user_follows : depth.
#[local] Hint Extern 2 (within _ _) =>
  apply within_plain; intros ?; split; [discriminate|reflexivity] : depth.

Section Depth.
Variable twitch : TwitchClient.
Variable menu : Menu.
Variable player_name : string.
Variable tv_join : string → string.
Variable calculate_live_time : string → string.

Local Abbreviation app :=
  (run twitch menu player_name tv_join calculate_live_time).

Lemma consuming_show_items call d :
  ∀ k items fallback_fn prompt back_ mesg,
    (k < d)%nat →
    (∀ j c, k = S j → within j (call c)) →
    consuming k (show_items menu call d items fallback_fn prompt back_ mesg).
Proof.
  induction d as [|d IH]; intros k items fallback_fn prompt back_ mesg Hk Hcall;
    [lia|].
  cbn [show_items]. apply consuming_bind; [apply consuming_menu|].
  intros selected j ->. specialize (Hcall j).
  assert (∀ fb, within j (run_fallback call fb)) as Hfb.
  { intros [f|]; simpl; [by apply Hcall|auto with depth]. }
  assert (within j (handle_missing_option
                      (show_items menu call d) selected)) as Hmiss.
  { unfold handle_missing_option, log, emit.
    apply within_bind; [auto with depth|intros _].
    apply within_bind; [|intros; auto with depth].
    apply consuming_within, IH; [lia|].
    intros j' c ->. eapply within_mono; [|apply Hcall]; [lia|done]. }
  cbv zeta. destruct (negb _).
  - apply within_bind; [done|intros _].
    apply within_bind; [done|intros _]. auto with depth.
  - apply within_bind; [|intros; auto with depth].
    destruct (_ && _); [done|auto with depth].
Qed.

(** One step through a method body, [d] being the depth of the calls. *)
Ltac depth_step IH :=
  match goal with
  | |- within _ (let _ := _ in _) => cbv zeta
  | |- within _ (bind (bind _ _) _) => apply within_assoc
  | |- within _ (bind (if ?b then _ else _) _) => destruct b
  | |- within _ (bind (show_items _ _ _ _ _ _ _ _) _) =>
      apply within_consuming_bind;
      [apply consuming_show_items; [lia|intros ?? ->; apply IH; lia]
      |intros ?? ->]
  | |- within _ (bind (show_no_results_message _) _) =>
      apply within_consuming_bind;
      [apply consuming_show_no_results_message|intros ?? ->]
  | |- within _ (bind _ _) => apply within_bind; [|intros ?]
  | |- within _ (if ?b then _ else _) => destruct b
  | |- within _ (match ?x with _ => _ end) => destruct x
  | |- within _ (run _ _ _ _ _ _ _) => apply IH; lia
  | |- within _ (show_no_results_message _) =>
      apply consuming_within, consuming_show_no_results_message
  | |- within _ _ => solve [auto with depth]
  end.

Lemma within_run depth : ∀ c k, (k + 2 ≤ depth)%nat → within k (app depth c).
Proof.
  induction depth as [|d IH]; intros c k Hk; [lia|].
  cbn [run].
  destruct c; unfold show_menu, show_follows_and_online, show_follows,
    show_online_follows, show_info, show_videos, show_clips, clips_or_fetch,
    resolve_follow, follow_key, online_name,
    play_stream_selected, play_clip_selected, log, emit, request, ret, raise;
    repeat depth_step IH.
Qed.

(** X3: A run that is granted two frames more than the script has replies
    does not stop for lack of depth: every screen takes an answer of the
    menu before it enters another screen, so the run ends by returning, in
    [sys.exit], in an exception, or at a prompt the script no longer
    answers. *)
Theorem run_never_out_of_depth depth c st :
  (length (replies st) + 2 ≤ depth)%nat →
  (app depth c st).1 ≠ OutOfFuel.
Proof. intros Hd. by apply (within_run depth c (length (replies st))). Qed.
End Depth.

Lemma run_never_out_of_depth_witness :
  (length (replies (Demo.start ["- All follows"; "bob"])) + 2 ≤ 4)%nat ∧
  (Demo.app 4 ShowMenu (Demo.start ["- All follows"; "bob"])).1 ≠ OutOfFuel.
Proof.
  assert (length (replies (Demo.start ["- All follows"; "bob"])) + 2 ≤ 4)%nat
    as H by (simpl; lia).
  split; [exact H|].
  apply (run_never_out_of_depth Demo.twitch Demo.menu "mpv" Demo.tv_join
           Demo.live_time 4 ShowMenu (Demo.start ["- All follows"; "bob"]) H).
Defined.

(** ** The Info screen *)

Section InfoFacts.
Variable twitch : TwitchClient.
Variable menu : Menu.
Variable player_name : string.
Variable tv_join : string → string.
Variable calculate_live_time : string → string.

Local Abbreviation app :=
  (run twitch menu player_name tv_join calculate_live_time).

Lemma play_stream_selected_events stream script tr rq cache :
  play_stream_selected player_name tv_join stream (mkState script tr rq cache)
  = (Return tt,
     mkState script (tr ++ stream_played player_name tv_join stream) rq cache).
Proof.
  unfold play_stream_selected, stream_played, bind, log, emit. simpl.
  by rewrite <- !app_assoc.
Qed.

(** A call that never returns, followed by anything, is that call. *)
Lemma bind_never_returns (m k : M unit) st :
  (∀ v, (m st).1 ≠ Return v) → bind m (λ _, k) st = m st.
Proof.
  intros Hm. destruct (m st) as [o st'] eqn:E.
  rewrite (bind_unwind _ _ _ _ _ E) by (intros v; apply (Hm v)).
  rewrite unwind_same; [done|]. intros v. apply (Hm v).
Qed.

(** The Info screen once an item is selected: the four tests on the
    selection, in their order, and the screen again. *)
Lemma show_info_selected d user_id selected rest tr rq cache :
  let channel := information twitch rq user_id in
  let online := is_online twitch (S rq) user_id in
  picks menu (info_options twitch channel online) selected →
  app (S (S d)) (ShowInfo user_id) (mkState (selected :: rest) tr rq cache)
  = (do_ (if startswith selected "Clips"
          then app (S d) (ShowClips channel None) else ret tt);
     do_ (if startswith selected "Videos"
          then app (S d) (ShowVideos channel) else ret tt);
     do_ (if startswith selected "Last"
          then raise NotImplementedError else ret tt);
     do_ (if startswith selected (live_icon twitch)
          then play_stream_selected player_name tv_join
                 (BroadcasterInfo.broadcaster_name channel)
          else ret tt);
     app (S d) (ShowInfo user_id))
      (mkState rest (tr ++ info_drawn twitch channel online user_id)
         (S (S rq)) cache).
Proof.
  intros channel online [Hlist Hback]. cbn [run]. unfold show_info.
  unfold request at 1. unfold bind at 1. cbn [requests replies trace _user_follows].
  unfold request at 1. unfold bind at 1. cbn [requests replies trace _user_follows].
  fold channel. fold online. cbv zeta.
  rewrite (bind_return _ _ _ _ _
             (show_items_branch menu _ d _ _ _ _ _ selected rest _ _ _
                KnownItem
                (classifies_known _ _ _ _ Hlist (λ H, Hback (proj1 H))))).
  cbn [gate_branch]. unfold info_drawn. by rewrite <- !app_assoc.
Qed.
End InfoFacts.

Lemma startswith_head (s : string) a p b q :
  a ≠ b → startswith s (String a p) = true → startswith s (String b q) = false.
Proof.
  unfold startswith. destruct s as [|x s]; simpl; [done|].
  destruct (ascii_dec a x) as [->|]; [|done].
  intros Hne _. by destruct (ascii_dec b x) as [->|].
Qed.

Section InfoSelections.
Variable twitch : TwitchClient.
Variable menu : Menu.
Variable player_name : string.
Variable tv_join : string → string.
Variable calculate_live_time : string → string.
Variable d : nat.
Variable user_id selected : string.
Variable rest : list string.
Variable tr : list Event.
Variable rq : nat.
Variable cache : option (list ChannelUserFollows.t).

Local Abbreviation app :=
  (run twitch menu player_name tv_join calculate_live_time).
Local Abbreviation channel := (information twitch rq user_id).
Local Abbreviation online := (is_online twitch (S rq) user_id).
Local Abbreviation drawn :=
  (mkState rest (tr ++ info_drawn twitch channel online user_id)
     (S (S rq)) cache).

Hypothesis selected_picks :
  picks menu (info_options twitch channel online) selected.

(** X4: A selection of the Info screen that starts with [Clips] opens the
    Clips screen of the channel, without a list of clips; nothing of the
    Info screen runs after it. *)
Theorem show_info_opens_clips :
  startswith selected "Clips" = true →
  app (S (S d)) (ShowInfo user_id) (mkState (selected :: rest) tr rq cache)
  = app (S d) (ShowClips channel None) drawn.
Proof using selected_picks.
  intros Hclips. rewrite show_info_selected by done. cbv zeta.
  rewrite Hclips. apply bind_never_returns.
  intros v. by apply loops_never_return.
Qed.

(** X5: A selection that starts with [Videos] opens the Videos screen of the
    channel. *)
Theorem show_info_opens_videos :
  startswith selected "Videos" = true →
  app (S (S d)) (ShowInfo user_id) (mkState (selected :: rest) tr rq cache)
  = app (S d) (ShowVideos channel) drawn.
Proof using selected_picks.
  intros Hvideos. rewrite show_info_selected by done. cbv zeta.
  rewrite (startswith_head selected "V" "ideos" "C" "lips") by done.
  rewrite (bind_return _ _ _ tt _ eq_refl). rewrite Hvideos.
  apply bind_never_returns.
  intros v. by apply loops_never_return.
Qed.

(** X6: A selection that starts with [Last], as the status line of a channel
    that is not live does, raises [NotImplementedError]: the run ends
    there, with the Info screen drawn and nothing played. *)
Theorem show_info_last_stream_not_implemented :
  startswith selected "Last" = true →
  app (S (S d)) (ShowInfo user_id) (mkState (selected :: rest) tr rq cache)
  = (Raise NotImplementedError, drawn).
Proof using selected_picks.
  intros Hlast. rewrite show_info_selected by done. cbv zeta.
  rewrite (startswith_head selected "L" "ast" "C" "lips") by done.
  rewrite (startswith_head selected "L" "ast" "V" "ideos") by done.
  rewrite Hlast. done.
Qed.

(** X7: A selection that starts with the live icon, and with none of [Clips],
    [Videos] and [Last], starts the player on the channel's name and the
    Info screen is entered again. *)
Theorem show_info_plays_live_stream :
  startswith selected "Clips" = false →
  startswith selected "Videos" = false →
  startswith selected "Last" = false →
  startswith selected (live_icon twitch) = true →
  app (S (S d)) (ShowInfo user_id) (mkState (selected :: rest) tr rq cache)
  = app (S d) (ShowInfo user_id)
      (mkState rest
         (tr ++ info_drawn twitch channel online user_id
             ++ stream_played player_name tv_join
                  (BroadcasterInfo.broadcaster_name channel))
         (S (S rq)) cache).
Proof using selected_picks.
  intros Hclips Hvideos Hlast Hlive. rewrite show_info_selected by done.
  cbv zeta. rewrite Hclips, Hvideos, Hlast, Hlive.
  rewrite !(bind_return _ _ _ tt _ eq_refl).
  rewrite (bind_return _ _ _ _ _ (play_stream_selected_events _ _ _ _ _ _ _)).
  by rewrite <- app_assoc.
Qed.

(** X8: Any other selection (the category, the separator) does nothing: the
    Info screen is entered again, which requests the channel anew. *)
Theorem show_info_redraws :
  startswith selected "Clips" = false →
  startswith selected "Videos" = false →
  startswith selected "Last" = false →
  startswith selected (live_icon twitch) = false →
  app (S (S d)) (ShowInfo user_id) (mkState (selected :: rest) tr rq cache)
  = app (S d) (ShowInfo user_id) drawn.
Proof using selected_picks.
  intros Hclips Hvideos Hlast Hlive. rewrite show_info_selected by done.
  cbv zeta. rewrite Hclips, Hvideos, Hlast, Hlive.
  by rewrite !(bind_return _ _ _ tt _ eq_refl).
Qed.
End InfoSelections.

(** Membership and difference on the installation, by evaluation. *)
Ltac by_evaluation :=
  solve [ reflexivity
        | apply (bool_decide_unpack _); vm_compute; exact I
        | vm_compute; discriminate ].

Lemma show_info_opens_clips_witness :
  Demo.app 4 (ShowInfo "2") (mkState ["Clips: Get clips"] [] 0 None)
  = Demo.app 3 (ShowClips (information Demo.twitch 0 "2") None)
      (mkState []
         ([] ++ info_drawn Demo.twitch (information Demo.twitch 0 "2")
                  (is_online Demo.twitch 1 "2") "2")
         2 None).
Proof.
  apply (show_info_opens_clips Demo.twitch Demo.menu "mpv" Demo.tv_join
           Demo.live_time 2 "2" "Clips: Get clips" [] [] 0 None).
  - split; by_evaluation.
  - reflexivity.
Defined.

Lemma show_info_opens_videos_witness :
  Demo.app 4 (ShowInfo "2") (mkState ["Videos: Get videos"] [] 0 None)
  = Demo.app 3 (ShowVideos (information Demo.twitch 0 "2"))
      (mkState []
         ([] ++ info_drawn Demo.twitch (information Demo.twitch 0 "2")
                  (is_online Demo.twitch 1 "2") "2")
         2 None).
Proof.
  apply (show_info_opens_videos Demo.twitch Demo.menu "mpv" Demo.tv_join
           Demo.live_time 2 "2" "Videos: Get videos" [] [] 0 None).
  - split; by_evaluation.
  - reflexivity.
Defined.

Lemma show_info_last_stream_not_implemented_witness :
  Demo.lonely_app 4 (ShowInfo "2")
    (mkState ["Last Stream: Speedrun"; "Clips: Get clips"] [] 0 None)
  = (Raise NotImplementedError,
     mkState ["Clips: Get clips"]
       ([] ++ info_drawn Demo.lonely (information Demo.lonely 0 "2")
                (is_online Demo.lonely 1 "2") "2")
       2 None).
Proof.
  apply (show_info_last_stream_not_implemented Demo.lonely Demo.menu "mpv"
           Demo.tv_join Demo.live_time 2 "2" "Last Stream: Speedrun"
           ["Clips: Get clips"] [] 0 None).
  - split; by_evaluation.
  - reflexivity.
Defined.

Lemma show_info_plays_live_stream_witness :
  Demo.app 4 (ShowInfo "2") (mkState ["* Live Stream: Speedrun"] [] 0 None)
  = Demo.app 3 (ShowInfo "2")
      (mkState []
         ([] ++ info_drawn Demo.twitch (information Demo.twitch 0 "2")
                  (is_online Demo.twitch 1 "2") "2"
             ++ stream_played "mpv" Demo.tv_join
                  (BroadcasterInfo.broadcaster_name
                     (information Demo.twitch 0 "2")))
         2 None).
Proof.
  apply (show_info_plays_live_stream Demo.twitch Demo.menu "mpv" Demo.tv_join
           Demo.live_time 2 "2" "* Live Stream: Speedrun" [] [] 0 None).
  - split; by_evaluation.
  - reflexivity.
  - reflexivity.
  - reflexivity.
  - reflexivity.
Defined.

Lemma show_info_redraws_witness :
  Demo.app 4 (ShowInfo "2") (mkState ["Category: Chess"] [] 0 None)
  = Demo.app 3 (ShowInfo "2")
      (mkState []
         ([] ++ info_drawn Demo.twitch (information Demo.twitch 0 "2")
                  (is_online Demo.twitch 1 "2") "2")
         2 None).
Proof.
  apply (show_info_redraws Demo.twitch Demo.menu "mpv" Demo.tv_join
           Demo.live_time 2 "2" "Category: Chess" [] [] 0 None).
  - split; by_evaluation.
  - reflexivity.
  - reflexivity.
  - reflexivity.
  - reflexivity.
Defined.

(** ** The Videos screen *)

(** X10: With no video to show, the Videos screen logs and shows the
    no-results message and then is the Info screen of the channel. *)
Theorem show_videos_no_results
    (twitch : TwitchClient) (menu : Menu) (player_name : string)
    (tv_join : string → string) (calculate_live_time : string → string)
    (d : nat) (channel : BroadcasterInfo.t) (r : string) (rest : list string)
    (tr : list Event) (rq : nat) (cache : option (list ChannelUserFollows.t)) :
  get_videos twitch rq (BroadcasterInfo.broadcaster_id channel) = [] →
  let id := BroadcasterInfo.broadcaster_id channel in
  let msg := "No available videos from followed channel: "
             +:+ BroadcasterInfo.broadcaster_name channel in
  run twitch menu player_name tv_join calculate_live_time (S d)
    (ShowVideos channel) (mkState (r :: rest) tr rq cache)
  = run twitch menu player_name tv_join calculate_live_time d (ShowInfo id)
      (mkState rest
         (tr ++ [Api (ReqVideos id); Log WARNING msg;
                 MenuShow [msg] None None None])
         (S rq) cache).
Proof.
  intros Hfetch id msg. cbn [run]. unfold show_videos.
  unfold request at 1. unfold bind at 1.
  cbn [requests replies trace _user_follows]. rewrite Hfetch.
  change (dict_of_enumerate _ []) with (@nil (string * TwitchVideo.t)).
  cbv zeta. cbn [is_empty].
  rewrite (bind_return _ _ _ _ _
             (show_no_results_message_answered _ _ _ _ _ _)).
  by rewrite <- app_assoc.
Qed.

Lemma show_videos_no_results_witness :
  get_videos Demo.twitch 0 (BroadcasterInfo.broadcaster_id Demo.carol_channel)
  = [] ∧
  Demo.app 3 (ShowVideos Demo.carol_channel) (Demo.start ["ok"])
  = Demo.app 2 (ShowInfo "3")
      (mkState []
         ([] ++ [Api (ReqVideos "3");
                 Log WARNING "No available videos from followed channel: carol";
                 MenuShow ["No available videos from followed channel: carol"]
                   None None None])
         1 None).
Proof.
  split; [reflexivity|].
  apply (show_videos_no_results Demo.twitch Demo.menu "mpv" Demo.tv_join
           Demo.live_time 2 Demo.carol_channel "ok" [] [] 0 None).
  reflexivity.
Defined.

Section VideosFacts.
Variable twitch : TwitchClient.
Variable menu : Menu.
Variable player_name : string.
Variable tv_join : string → string.
Variable calculate_live_time : string → string.
Variable channel : BroadcasterInfo.t.
Variable videos : list TwitchVideo.t.
Hypothesis videos_nonempty : videos ≠ [].
Hypothesis videos_stable :
  ∀ n, get_videos twitch n (BroadcasterInfo.broadcaster_id channel) = videos.

Local Abbreviation app :=
  (run twitch menu player_name tv_join calculate_live_time).
Local Abbreviation turn :=
  (videos_turn twitch menu player_name tv_join channel videos).
Local Abbreviation drawn := (videos_drawn twitch menu channel videos).
Local Abbreviation videos_dict :=
  (dict_of_enumerate (video_label twitch menu) videos).

Lemma videos_dict_nonempty : is_empty videos_dict = false.
Proof using videos_nonempty.
  destruct videos_dict eqn:E; [|done].
  apply dict_of_enumerate_nil in E; [done|].
  intros ????. apply video_label_index.
Qed.

Lemma count_requests_stream_played r stream :
  count_requests r (stream_played player_name tv_join stream) = 0%nat.
Proof. done. Qed.

Lemma count_requests_videos_turn selected :
  count_requests (ReqVideos (BroadcasterInfo.broadcaster_id channel))
    (turn selected) = 1%nat.
Proof.
  unfold videos_turn, videos_drawn. rewrite count_requests_app. simpl.
  rewrite decide_True by done. by destruct (dict_get _ _).
Qed.

Lemma show_videos_waits d tr rq cache :
  app (S (S d)) (ShowVideos channel) (mkState [] tr rq cache)
  = (AwaitInput, mkState [] (tr ++ drawn) (S rq) cache).
Proof using videos_nonempty videos_stable.
  cbn [run]. unfold show_videos.
  unfold request at 1. unfold bind at 1.
  cbn [requests replies trace _user_follows]. rewrite videos_stable.
  cbv zeta. rewrite videos_dict_nonempty.
  rewrite (bind_unwind _ _ _ _ _ (show_items_blocks _ _ _ _ _ _ _ _ _ _ _))
    by done.
  unfold videos_drawn. by rewrite <- app_assoc.
Qed.

(** One turn: the list is requested and drawn, the selected video goes to
    the player, and the screen is entered again. *)
Lemma show_videos_turn d selected rest tr rq cache :
  selects_video twitch menu videos selected →
  app (S (S d)) (ShowVideos channel) (mkState (selected :: rest) tr rq cache)
  = app (S d) (ShowVideos channel)
      (mkState rest (tr ++ turn selected) (S rq) cache).
Proof using videos_nonempty videos_stable.
  intros (Hopt & Hlist & Hback). cbn [run]. unfold show_videos.
  unfold request at 1. unfold bind at 1.
  cbn [requests replies trace _user_follows]. rewrite videos_stable.
  cbv zeta. rewrite videos_dict_nonempty.
  rewrite (bind_return _ _ _ _ _
             (show_items_branch menu _ d _ _ _ _ _ selected rest _ _ _
                KnownItem
                (classifies_known _ _ _ _ Hlist (λ H, Hback (proj1 H))))).
  cbn [gate_branch].
  destruct (dict_get_keys videos_dict selected Hopt) as [video Hvideo].
  unfold subscript at 1. rewrite Hvideo.
  rewrite (bind_return _ _ _ video _ eq_refl).
  rewrite (bind_return _ _ _ _ _ (play_stream_selected_events _ _ _ _ _ _ _)).
  unfold videos_turn, videos_drawn. rewrite Hvideo.
  by rewrite <- !app_assoc.
Qed.

Lemma show_videos_session k picks :
  Forall (selects_video twitch menu videos) picks →
  ∀ tr rq cache,
    app (length picks + S (S k)) (ShowVideos channel)
      (mkState picks tr rq cache)
    = (AwaitInput,
       mkState [] (tr ++ flat_map turn picks ++ drawn)
         (length picks + S rq) cache).
Proof using videos_nonempty videos_stable.
  induction 1 as [|selected picks Hsel _ IH]; intros tr rq cache.
  - cbn [length Nat.add flat_map]. by rewrite show_videos_waits.
  - cbn [length Nat.add flat_map].
    replace (length picks + S (S k))%nat with (S (length picks + S k))%nat
      by lia.
    rewrite (show_videos_turn _ _ _ _ _ _ Hsel).
    replace (S (length picks + S k))%nat with (length picks + S (S k))%nat
      by lia.
    rewrite IH. rewrite <- !app_assoc.
    by replace (length picks + S (S rq))%nat
      with (S (length picks + S rq))%nat by lia.
Qed.
End VideosFacts.

(** X11: A Videos session requests the list of videos on every turn: entered
    again after each video that is played, the screen asks the API anew.
    With [n] selections the session holds [n + 1] video requests (the
    answers taken to be the same list each time). *)
Theorem show_videos_fetches_every_turn
    (twitch : TwitchClient) (menu : Menu) (player_name : string)
    (tv_join : string → string) (calculate_live_time : string → string)
    (channel : BroadcasterInfo.t) (videos : list TwitchVideo.t)
    (picks : list string) (k : nat)
    (tr : list Event) (rq : nat) (cache : option (list ChannelUserFollows.t)) :
  videos ≠ [] →
  (∀ n, get_videos twitch n (BroadcasterInfo.broadcaster_id channel)
        = videos) →
  Forall (selects_video twitch menu videos) picks →
  let id := BroadcasterInfo.broadcaster_id channel in
  ∃ st',
    run twitch menu player_name tv_join calculate_live_time
      (length picks + S (S k)) (ShowVideos channel)
      (mkState picks tr rq cache)
    = (AwaitInput, st') ∧
    trace st'
    = tr ++ flat_map (videos_turn twitch menu player_name tv_join channel
                        videos) picks
         ++ videos_drawn twitch menu channel videos ∧
    count_requests (ReqVideos id) (trace st')
    = (count_requests (ReqVideos id) tr + length picks + 1)%nat ∧
    requests st' = (length picks + S rq)%nat.
Proof.
  intros Hne Hstable Hpicks id. subst id.
  eexists. split; [by apply show_videos_session|].
  split; [done|]. split; [|done].
  cbn [trace]. rewrite !count_requests_app.
  assert (count_requests (ReqVideos (BroadcasterInfo.broadcaster_id channel))
            (flat_map (videos_turn twitch menu player_name tv_join channel
                         videos) picks) = length picks) as ->.
  { clear Hpicks. induction picks as [|p picks IH]; [done|].
    cbn [flat_map length].
    by rewrite count_requests_app, count_requests_videos_turn, IH. }
  simpl. rewrite decide_True by done. lia.
Qed.

Lemma show_videos_fetches_every_turn_witness :
  let picks := [DemoVideos.first_video; DemoVideos.first_video] in
  ∃ st',
    run DemoVideos.twitch Demo.menu "mpv" Demo.tv_join Demo.live_time
      (length picks + 2) (ShowVideos Demo.bob_channel)
      (mkState picks [] 0 None)
    = (AwaitInput, st') ∧
    trace st'
    = [] ++ flat_map (videos_turn DemoVideos.twitch Demo.menu "mpv"
                        Demo.tv_join Demo.bob_channel Demo.videos) picks
         ++ videos_drawn DemoVideos.twitch Demo.menu Demo.bob_channel
              Demo.videos ∧
    count_requests (ReqVideos "2") (trace st')
    = (count_requests (ReqVideos "2") [] + length picks + 1)%nat ∧
    requests st' = (length picks + 1)%nat.
Proof.
  intros picks.
  apply (show_videos_fetches_every_turn DemoVideos.twitch Demo.menu "mpv"
           Demo.tv_join Demo.live_time Demo.bob_channel Demo.videos picks
           0 [] 0 None).
  - discriminate.
  - reflexivity.
  - repeat constructor; by_evaluation.
Defined.

(** ** The root menu *)

Lemma menu_options_entries menu : menu_options menu = root_entries menu.
Proof.
  unfold menu_options, root_entries. simpl.
  rewrite decide_False; [done|].
  intros Heq. apply (inj (String.append _)) in Heq. discriminate.
Qed.

(** X15: The root menu offers "All follows" and "Live followed", in this
    order, without a back entry and without a fallback; the selected entry
    decides the screen that runs next: [show_follows_and_online] for the
    first, [show_online_follows] for the second. *)
Theorem show_menu_dispatch
    (twitch : TwitchClient) (menu : Menu) (player_name : string)
    (tv_join : string → string) (calculate_live_time : string → string)
    (d : nat) (selected : string) (c : Call) (rest : list string)
    (tr : list Event) (rq : nat) (cache : option (list ChannelUserFollows.t)) :
  (selected, c) ∈ root_entries menu →
  selected ∈ listing menu (root_entries menu).*1 (Some false) →
  run twitch menu player_name tv_join calculate_live_time (S (S d)) ShowMenu
    (mkState (selected :: rest) tr rq cache)
  = run twitch menu player_name tv_join calculate_live_time (S d) c
      (mkState rest
         (tr ++ [MenuShow (root_entries menu).*1 (Some "twitch:") (Some false)
                   None])
         rq cache).
Proof.
  intros Hentry Hlist. cbn [run]. unfold show_menu.
  rewrite menu_options_entries. unfold dict_keys.
  rewrite (bind_return _ _ _ _ _
             (show_items_branch menu _ d _ _ _ _ _ selected rest _ _ _
                KnownItem
                (classifies_known _ _ _ _ Hlist (λ H, proj2 H eq_refl)))).
  cbn [gate_branch].
  assert (dict_get selected (root_entries menu) = Some c) as Hget.
  { unfold root_entries in *. simpl.
    apply elem_of_cons in Hentry as [[= -> ->]|Hentry].
    - by rewrite decide_True.
    - apply list_elem_of_singleton in Hentry as [= -> ->].
      rewrite decide_False, decide_True; [done|done|].
      intros Heq. apply (inj (String.append _)) in Heq. discriminate. }
  unfold subscript. rewrite Hget.
  by rewrite (bind_return _ _ _ c _ eq_refl).
Qed.

Lemma show_menu_dispatch_witness :
  Demo.app 5 ShowMenu (mkState ["- Live followed"; "bob"] [] 0 None)
  = Demo.app 4 ShowOnlineFollows
      (mkState ["bob"]
         ([] ++ [MenuShow (root_entries Demo.menu).*1 (Some "twitch:")
                   (Some false) None])
         0 None).
Proof.
  apply (show_menu_dispatch Demo.twitch Demo.menu "mpv" Demo.tv_join
           Demo.live_time 3 "- Live followed" ShowOnlineFollows ["bob"]
           [] 0 None).
  - apply elem_of_cons. right. apply elem_of_cons. left. reflexivity.
  - by_evaluation.
Defined.

(** ** The "Live followed" screen *)

Lemma dict_set_nonempty {V} k (v : V) d : dict_set k v d ≠ [].
Proof. destruct d as [|[k' v'] d]; simpl; [done|]. by destruct (decide _). Qed.

Lemma dict_of_nonempty {V} (key : V → string) l :
  l ≠ [] → is_empty (dict_of key l) = false.
Proof.
  intros Hl. unfold dict_of.
  destruct l as [|x l] using rev_ind; [done|].
  rewrite fold_left_app. simpl.
  pose proof (dict_set_nonempty (key x) x
                (fold_left (λ d y, dict_set (key y) y d) l [])) as Hne.
  by destruct (dict_set _ _ _).
Qed.

(** A selection without icon, delimiter and outer white space is the name
    the player gets. *)
Lemma online_name_bare twitch selected st :
  icon_free (live_icon twitch) selected = true →
  delimiter_free (delimiter twitch) selected = true →
  str_strip selected = selected →
  online_name twitch selected st = (Return selected, st).
Proof.
  unfold online_name, clean_string, str_remove, str_split, icon_free,
    delimiter_free.
  intros Hicon Hdelim Hstrip.
  assert (match live_icon twitch with
          | EmptyString => selected
          | String _ _ =>
              str_remove_go (String.length selected) (live_icon twitch)
                selected
          end = selected) as ->.
  { destruct (live_icon twitch) as [|l icon]; [done|].
    apply negb_true_iff in Hicon. by apply str_remove_go_free. }
  destruct (delimiter twitch) as [|dl delim]; [done|].
  apply negb_true_iff in Hdelim.
  rewrite str_split_go_free by done. by rewrite Hstrip.
Qed.

(** X16: With no followed channel live, the "Live followed" screen logs and
    shows a message and returns to its caller, whatever the answer to the
    message. *)
Theorem show_online_follows_none
    (twitch : TwitchClient) (menu : Menu) (player_name : string)
    (tv_join : string → string) (calculate_live_time : string → string)
    (d : nat) (r : string) (rest : list string)
    (tr : list Event) (rq : nat) (cache : option (list ChannelUserFollows.t)) :
  channels_live_for_menu twitch rq = [] →
  run twitch menu player_name tv_join calculate_live_time (S d)
    ShowOnlineFollows (mkState (r :: rest) tr rq cache)
  = (Return tt,
     mkState rest
       (tr ++ [Api ReqChannelsLiveForMenu;
               Log WARNING "No online followed channels";
               MenuShow ["No online followed channels"] None None None])
       (S rq) cache).
Proof.
  intros Hnone. cbn [run]. unfold show_online_follows.
  unfold request at 1. unfold bind at 1.
  cbn [requests replies trace _user_follows]. rewrite Hnone.
  cbv zeta. change (dict_of _ []) with (@nil (string * FollowedStream.t)).
  cbn [is_empty]. rewrite show_no_results_message_answered.
  by rewrite <- app_assoc.
Qed.

Lemma show_online_follows_none_witness :
  channels_live_for_menu Demo.lonely 0 = [] ∧
  Demo.lonely_app 1 ShowOnlineFollows (Demo.start ["ok"; "next"])
  = (Return tt,
     mkState ["next"]
       ([] ++ [Api ReqChannelsLiveForMenu;
               Log WARNING "No online followed channels";
               MenuShow ["No online followed channels"] None None None])
       1 None).
Proof.
  split; [reflexivity|].
  apply (show_online_follows_none Demo.lonely Demo.menu "mpv" Demo.tv_join
           Demo.live_time 0 "ok" ["next"] [] 0 None).
  reflexivity.
Defined.

(** X17: A channel selected on the "Live followed" screen goes to the player
    under the selected name, and the screen returns: for a selection that
    holds neither the first character of the live icon nor that of the
    delimiter and no white space at its ends, the trace ends with the log
    record, the notification and the player started on that name. *)
Theorem show_online_follows_plays_selection
    (twitch : TwitchClient) (menu : Menu) (player_name : string)
    (tv_join : string → string) (calculate_live_time : string → string)
    (d : nat) (selected : string) (rest : list string)
    (tr : list Event) (rq : nat) (cache : option (list ChannelUserFollows.t)) :
  let options :=
    dict_keys (dict_of FollowedStream.user_name
                 (channels_live_for_menu twitch rq)) in
  channels_live_for_menu twitch rq ≠ [] →
  picks menu options selected →
  icon_free (live_icon twitch) selected = true →
  delimiter_free (delimiter twitch) selected = true →
  str_strip selected = selected →
  run twitch menu player_name tv_join calculate_live_time (S (S d))
    ShowOnlineFollows (mkState (selected :: rest) tr rq cache)
  = (Return tt,
     mkState rest
       (tr ++ [Api ReqChannelsLiveForMenu;
               MenuShow options (Some "'twitch live:'") (Some true) None]
           ++ stream_played player_name tv_join selected)
       (S rq) cache).
Proof.
  intros options Hlive [Hlist Hback] Hicon Hdelim Hstrip.
  rewrite (show_online_follows_plays twitch menu player_name tv_join
             calculate_live_time d selected selected rest tr rq cache);
    [done|by apply dict_of_nonempty|done|done|].
  intros st. by apply online_name_bare.
Qed.

Lemma show_online_follows_plays_selection_witness :
  Demo.app 2 ShowOnlineFollows (Demo.start ["bob"; "next"])
  = (Return tt,
     mkState ["next"]
       ([] ++ [Api ReqChannelsLiveForMenu;
               MenuShow ["bob"] (Some "'twitch live:'") (Some true) None]
           ++ stream_played "mpv" Demo.tv_join "bob")
       1 None).
Proof.
  apply (show_online_follows_plays_selection Demo.twitch Demo.menu "mpv"
           Demo.tv_join Demo.live_time 0 "bob" ["next"] [] 0 None).
  - discriminate.
  - split; by_evaluation.
  - reflexivity.
  - reflexivity.
  - reflexivity.
Defined.

(** ** The Follows screen, whatever is selected *)

Section FollowsFacts.
Variable twitch : TwitchClient.
Variable menu : Menu.
Variable player_name : string.
Variable tv_join : string → string.
Variable calculate_live_time : string → string.
Variable d : nat.
Variable users : list ChannelUserFollows.t.
Variable selected : string.
Variable rest : list string.
Variable tr tr1 : list Event.
Variable rq rq1 : nat.
Variable cache cache1 : option (list ChannelUserFollows.t).

Local Abbreviation app :=
  (run twitch menu player_name tv_join calculate_live_time).
Local Abbreviation follows_dict :=
  (dict_of ChannelUserFollows.to_name users).
Local Abbreviation names :=
  (merge_with_online twitch menu calculate_live_time
     (sorted (dict_keys follows_dict)) (followed_streams_live twitch rq1)).
Local Abbreviation drawn :=
  (mkState rest
     (tr1 ++ [Api ReqFollowedStreamsLive;
              MenuShow names (Some "'twitch follows:'") (Some true)
                (Some (follows_mesg menu))])
     (S rq1) cache1).

Hypothesis follows_read :
  user_follows twitch (mkState (selected :: rest) tr rq cache)
  = (Return users, mkState (selected :: rest) tr1 rq1 cache1).
Hypothesis selected_picks : picks menu names selected.

(** The screen once an item is selected: the selection is resolved and
    the Info screen of the follow entered. *)
Lemma show_follows_selected :
  app (S (S d)) ShowFollowsAndOnline (mkState (selected :: rest) tr rq cache)
  = (do follow <- resolve_follow twitch follows_dict selected;
     app (S d) (ShowInfo (ChannelUserFollows.to_id follow))) drawn.
Proof using follows_read selected_picks.
  destruct selected_picks as [Hlist Hback].
  cbn [run]. unfold show_follows_and_online, show_follows.
  rewrite bind_assoc, (bind_return _ _ _ _ _ follows_read). cbv zeta.
  rewrite bind_assoc. unfold request at 1. unfold bind at 1.
  cbn [requests replies trace _user_follows].
  rewrite bind_assoc.
  rewrite (bind_return _ _ _ _ _
             (show_items_branch menu _ d _ _ _ _ _ selected rest _ _ _
                KnownItem
                (classifies_known _ _ _ _ Hlist (λ H, Hback (proj1 H))))).
  cbn [gate_branch]. by rewrite <- app_assoc.
Qed.

(** X18: A selection without the live icon is looked up as it is: the follow
    of that name is found and its Info screen entered. *)
Theorem show_follows_offline_selection_to_info f :
  str_contains (live_icon twitch) selected = false →
  dict_get selected follows_dict = Some f →
  app (S (S d)) ShowFollowsAndOnline (mkState (selected :: rest) tr rq cache)
  = app (S d) (ShowInfo (ChannelUserFollows.to_id f)) drawn.
Proof using follows_read selected_picks.
  intros Hicon Hget. rewrite show_follows_selected.
  unfold resolve_follow, follow_key. rewrite Hicon.
  rewrite bind_assoc, (bind_return _ _ _ selected _ eq_refl).
  unfold subscript. rewrite Hget.
  by rewrite (bind_return _ _ _ f _ eq_refl).
Qed.

(** X19: A selection that holds the live icon but no space has no second
    token: [selected.split(" ")[1]] raises [IndexError] and the run ends
    there, with the Follows screen drawn. *)
Theorem show_follows_index_error :
  str_contains (live_icon twitch) selected = true →
  has_char " " selected = false →
  app (S (S d)) ShowFollowsAndOnline (mkState (selected :: rest) tr rq cache)
  = (Raise IndexError, drawn).
Proof using follows_read selected_picks.
  intros Hicon Hspace. rewrite show_follows_selected.
  unfold resolve_follow, follow_key. rewrite Hicon.
  unfold str_split. by rewrite str_split_go_free.
Qed.
End FollowsFacts.

Lemma show_follows_offline_selection_to_info_witness :
  Demo.app 4 ShowFollowsAndOnline (mkState ["alice"; "next"] [] 0 None)
  = Demo.app 3 (ShowInfo "1")
      (mkState ["next"]
         ([Api ReqFollows]
          ++ [Api ReqFollowedStreamsLive;
              MenuShow
                (merge_with_online Demo.twitch Demo.menu Demo.live_time
                   (sorted
                      (dict_keys
                         (dict_of ChannelUserFollows.to_name
                            (follows Demo.twitch 0))))
                   (followed_streams_live Demo.twitch 1))
                (Some "'twitch follows:'") (Some true)
                (Some (follows_mesg Demo.menu))])
         2 (Some (follows Demo.twitch 0))).
Proof.
  assert (picks Demo.menu
            (merge_with_online Demo.twitch Demo.menu Demo.live_time
               (sorted
                  (dict_keys
                     (dict_of ChannelUserFollows.to_name
                        (follows Demo.twitch 0))))
               (followed_streams_live Demo.twitch 1)) "alice") as Hpicks.
  { split; by_evaluation. }
  apply (show_follows_offline_selection_to_info Demo.twitch Demo.menu "mpv"
           Demo.tv_join Demo.live_time 2 (follows Demo.twitch 0) "alice"
           ["next"] [] [Api ReqFollows] 0 1 None
           (Some (follows Demo.twitch 0)) eq_refl Hpicks
           (ChannelUserFollows.mk "1" "alice")).
  - reflexivity.
  - reflexivity.
Defined.

Lemma show_follows_index_error_witness :
  run DemoIcon.twitch Demo.menu "mpv" Demo.tv_join Demo.live_time 4
    ShowFollowsAndOnline (mkState ["LIVEwire"; "next"] [] 0 None)
  = (Raise IndexError,
     mkState ["next"]
       ([Api ReqFollows]
        ++ [Api ReqFollowedStreamsLive;
            MenuShow
              (merge_with_online DemoIcon.twitch Demo.menu Demo.live_time
                 (sorted
                    (dict_keys
                       (dict_of ChannelUserFollows.to_name
                          (follows DemoIcon.twitch 0))))
                 (followed_streams_live DemoIcon.twitch 1))
              (Some "'twitch follows:'") (Some true)
              (Some (follows_mesg Demo.menu))])
       2 (Some (follows DemoIcon.twitch 0))).
Proof.
  assert (picks Demo.menu
            (merge_with_online DemoIcon.twitch Demo.menu Demo.live_time
               (sorted
                  (dict_keys
                     (dict_of ChannelUserFollows.to_name
                        (follows DemoIcon.twitch 0))))
               (followed_streams_live DemoIcon.twitch 1)) "LIVEwire")
    as Hpicks.
  { split; by_evaluation. }
  apply (show_follows_index_error DemoIcon.twitch Demo.menu "mpv"
           Demo.tv_join Demo.live_time 2 (follows DemoIcon.twitch 0)
           "LIVEwire" ["next"] [] [Api ReqFollows] 0 1 None
           (Some (follows DemoIcon.twitch 0)) eq_refl Hpicks).
  - reflexivity.
  - reflexivity.
Defined.

Lemma bind_congr {A B} (m m' : M A) (f : A → M B) st st' :
  m st = m' st' → bind m f st = bind m' f st'.
Proof. unfold bind. by intros ->. Qed.

(** X20: Backing out of the Follows screen does not end the screen. When the
    answer is the back entry the menu put on the list, [show_items] runs
    the root menu and, if that returns, hands the back entry to
    [show_follows] as the selection: it is looked up among the follows,
    and (holding no live icon and being no follow's name) raises
    [KeyError]. *)
Theorem show_follows_back_key_error
    (twitch : TwitchClient) (menu : Menu) (player_name : string)
    (tv_join : string → string) (calculate_live_time : string → string)
    (d : nat) (users : list ChannelUserFollows.t) (rest : list string)
    (tr tr1 : list Event) (rq rq1 : nat)
    (cache cache1 : option (list ChannelUserFollows.t)) (st2 : State) :
  let follows := dict_of ChannelUserFollows.to_name users in
  let names :=
    merge_with_online twitch menu calculate_live_time
      (sorted (dict_keys follows)) (followed_streams_live twitch rq1) in
  user_follows twitch (mkState (back menu :: rest) tr rq cache)
  = (Return users, mkState (back menu :: rest) tr1 rq1 cache1) →
  back menu ∈ listing menu names (Some true) →
  run twitch menu player_name tv_join calculate_live_time (S d) ShowMenu
    (mkState rest
       (tr1 ++ [Api ReqFollowedStreamsLive;
                MenuShow names (Some "'twitch follows:'") (Some true)
                  (Some (follows_mesg menu))])
       (S rq1) cache1)
  = (Return tt, st2) →
  str_contains (live_icon twitch) (back menu) = false →
  dict_get (back menu) follows = None →
  run twitch menu player_name tv_join calculate_live_time (S (S d))
    ShowFollowsAndOnline (mkState (back menu :: rest) tr rq cache)
  = (Raise (KeyError (back menu)), st2).
Proof.
  intros follows names Hfetch Hlist Hroot Hicon Hget. subst names follows.
  cbn [run]. unfold show_follows_and_online, show_follows.
  rewrite bind_assoc, (bind_return _ _ _ _ _ Hfetch). cbv zeta.
  rewrite bind_assoc. unfold request at 1. unfold bind at 1.
  cbn [requests replies trace _user_follows].
  rewrite bind_assoc.
  assert (Some ShowMenu ≠ None) as Hbound by done.
  rewrite (bind_congr _ _ _ _ _
             (show_items_branch menu _ d _ _ _ _ _ (back menu) rest _ _ _ Back
                (classifies_back _ _ _ _ Hlist eq_refl Hbound))).
  cbn [gate_branch run_fallback]. rewrite bind_assoc.
  rewrite <- app_assoc. cbn [app].
  cbn [run] in Hroot. rewrite (bind_return _ _ _ _ _ Hroot).
  rewrite (bind_return _ _ _ (back menu) _ eq_refl).
  unfold resolve_follow, follow_key. rewrite Hicon.
  rewrite bind_assoc, (bind_return _ _ _ (back menu) _ eq_refl).
  unfold subscript. by rewrite Hget.
Qed.

Lemma show_follows_back_key_error_witness :
  DemoBack.app 4 ShowFollowsAndOnline
    (Demo.start ["< Back"; "- Live followed"; "ok"])
  = (Raise (KeyError "< Back"),
     mkState []
       [Api ReqFollows; Api ReqFollowedStreamsLive;
        MenuShow [] (Some "'twitch follows:'") (Some true)
          (Some "- Offline and Online channels");
        MenuShow ["- All follows"; "- Live followed"] (Some "twitch:")
          (Some false) None;
        Api ReqChannelsLiveForMenu;
        Log WARNING "No online followed channels";
        MenuShow ["No online followed channels"] None None None]
       3 (Some [])).
Proof.
  apply (show_follows_back_key_error Demo.lonely DemoBack.menu "mpv"
           Demo.tv_join Demo.live_time 2 [] ["- Live followed"; "ok"]
           [] [Api ReqFollows] 0 1 None (Some [])).
  - reflexivity.
  - by_evaluation.
  - reflexivity.
  - reflexivity.
  - reflexivity.
Defined.

(** ** The options of the Clips and Videos screens *)

Lemma imap_index_NoDup {V} (key : nat → V → string) (l : list V) :
  (∀ i j x y, key i x = key j y → i = j) → NoDup (imap key l).
Proof.
  intros Hinj. apply NoDup_alt. intros i j s Hi Hj.
  rewrite list_lookup_imap in Hi, Hj.
  destruct (l !! i) as [x|]; [|done]. destruct (l !! j) as [y|]; [|done].
  simpl in Hi, Hj. apply (Hinj i j x y). congruence.
Qed.

(** X22: The labels offered on the Clips and on the Videos screen are pairwise
    distinct and as many as the entries, whatever the titles: the ordinal
    in front tells two entries apart even when everything else in their
    labels is the same. *)
Theorem screen_options_distinct
    (twitch : TwitchClient) (menu : Menu)
    (clips : list TwitchClip.t) (videos : list TwitchVideo.t) :
  (NoDup (clip_options twitch menu clips) ∧
   length (clip_options twitch menu clips) = length clips) ∧
  (NoDup (video_options twitch menu videos) ∧
   length (video_options twitch menu videos) = length videos).
Proof.
  unfold clip_options, video_options.
  rewrite !dict_keys_enumerate
    by (intros ????; first [apply clip_label_index|apply video_label_index]).
  rewrite !length_imap.
  repeat split; apply imap_index_NoDup; intros ????;
    [apply clip_label_index|apply video_label_index].
Qed.

(** ** [main] *)

Module MainFacts.
Import Main.

Lemma try_body_raised args w e :
  raised_in_try args w e ↔ (try_body args w).1 = Raised e.
Proof.
  unfold raised_in_try, try_body, entry.
  destruct (app_result w) as [[]|e1];
    [|simpl; intuition (done || congruence)].
  destruct (keybinds_result w) as [[]|e2];
    [|simpl; intuition (done || congruence)].
  destruct (test args), (channel args), (games args); simpl;
    intuition (done || congruence).
Qed.

(** X24: Wherever in the [try] it is raised (setting up the client, the key
    bindings, or in the entry point), an exception of the handled
    families or a [KeyboardInterrupt] does not leave [main]: the status is
    1. For a handled exception the run ends with the key bindings
    unregistered, the exception shown as the one item of the error menu
    and logged, in this order; for [KeyboardInterrupt] it ends with the
    log record alone. *)
Theorem main_caught_exits_one (args : Args) (w : World) (e : Exn) :
  help args = false →
  raised_in_try args w e →
  (∀ repr, e ≠ Other repr) →
  (main args w).1 = Ok 1%Z ∧
  ∃ evs,
    (main args w).2
    = evs ++
      match e with
      | Handled repr msg =>
          [UnregisterAll; Select [repr] false "PyTwitchErr>"; LogError msg]
      | _ => [LogInfo "terminated by user"]
      end.
Proof.
  intros Hhelp Hraised Hcaught. apply try_body_raised in Hraised.
  unfold main. rewrite Hhelp.
  destruct (try_body args w) as [res evs]. simpl in Hraised. subst res.
  destruct e as [repr msg| |repr]; simpl.
  - split; [done|]. eexists. by rewrite app_comm_cons, app_assoc.
  - split; [done|]. eexists. by rewrite app_comm_cons, app_assoc.
  - by destruct (Hcaught repr).
Qed.

Lemma main_caught_exits_one_witness :
  let args := {| help := false; verbose := true; test := false;
                 channel := true; games := false |} in
  let w := {| app_result := Ok tt;
              keybinds_result := Ok tt;
              run_result := λ _,
                Raised (Handled "ConnectError('down')" "down") |} in
  (main args w).1 = Ok 1%Z ∧
  ∃ evs,
    (main args w).2
    = evs ++ [UnregisterAll;
              Select ["ConnectError('down')"] false "PyTwitchErr>";
              LogError "down"].
Proof.
  intros args w.
  apply (main_caught_exits_one args w (Handled "ConnectError('down')" "down")).
  - reflexivity.
  - right. right. by repeat split.
  - discriminate.
Defined.

(** X25: At most one entry point runs, and only with the client and the key
    bindings set up: it is the one the flags select, [test] before
    [channel] before [games], [show_all_streams] when none is set, and
    never with [help]. *)
Theorem main_runs_selected_entry (args : Args) (w : World) (e : Entry) :
  Run e ∈ (main args w).2 →
  help args = false ∧
  app_result w = Ok tt ∧ keybinds_result w = Ok tt ∧
  e = entry args ∧
  (main args w).1
  = match run_result w e with
    | Raised (Handled _ _) | Raised KeyboardInterrupt => Ok 1%Z
    | r => r
    end.
Proof.
  unfold main, try_body, entry.
  destruct (help args).
  { intros Hin. apply list_elem_of_singleton in Hin. discriminate. }
  assert (∀ (evs : list Event),
            Run e ∈ LoggerVerbose (verbose args)
                    :: (if verbose args then [LogDebugArguments] else [])
                    ++ [SetupMenu] ++ evs →
            Run e ∈ evs) as Hpre.
  { intros evs Hin. destruct (verbose args); simpl in Hin;
      repeat (apply elem_of_cons in Hin as [Hin|Hin]; [discriminate|]);
      done. }
  destruct (app_result w) as [[]|e1].
  - destruct (keybinds_result w) as [[]|e2].
    + destruct (test args), (channel args), (games args);
        match goal with
        | |- context [run_result w ?x] =>
            destruct (run_result w x) as [status|[repr msg| |repr]] eqn:E
        end;
        cbn beta iota zeta; cbn [fst snd]; intros Hin;
        rewrite ?app_comm_cons, <- ?app_assoc in Hin;
        rewrite <- ?app_comm_cons in Hin;
        apply Hpre in Hin;
        repeat (apply elem_of_cons in Hin as [Hin|Hin];
                [try discriminate|]);
        try (by apply elem_of_nil in Hin);
        injection Hin as ->; by rewrite E.
    + destruct e2 as [repr msg| |repr]; cbn beta iota zeta; cbn [fst snd];
        intros Hin;
        rewrite ?app_comm_cons, <- ?app_assoc in Hin;
        rewrite <- ?app_comm_cons in Hin;
        apply Hpre in Hin;
        repeat (apply elem_of_cons in Hin as [Hin|Hin]; [discriminate|]);
        by apply elem_of_nil in Hin.
  - destruct e1 as [repr msg| |repr]; cbn beta iota zeta; cbn [fst snd];
      intros Hin;
      rewrite ?app_comm_cons, <- ?app_assoc in Hin;
      rewrite <- ?app_comm_cons in Hin;
      apply Hpre in Hin;
      repeat (apply elem_of_cons in Hin as [Hin|Hin]; [discriminate|]);
      by apply elem_of_nil in Hin.
Qed.

Lemma main_runs_selected_entry_witness :
  let args := {| help := false; verbose := false; test := false;
                 channel := true; games := true |} in
  let w := {| app_result := Ok tt;
              keybinds_result := Ok tt;
              run_result := λ _, Ok 0%Z |} in
  help args = false ∧
  app_result w = Ok tt ∧ keybinds_result w = Ok tt ∧
  ShowByQuery = entry args ∧
  (main args w).1
  = match run_result w ShowByQuery with
    | Raised (Handled _ _) | Raised KeyboardInterrupt => Ok 1%Z
    | r => r
    end.
Proof.
  intros args w.
  apply (main_runs_selected_entry args w ShowByQuery).
  apply list_elem_of_In. vm_compute. auto 10.
Defined.
End MainFacts.

(** ** Backing out, and invalid selections, where the parent loops *)

Section ParentLoops.
Variable twitch : TwitchClient.
Variable menu : Menu.
Variable player_name : string.
Variable tv_join : string → string.
Variable calculate_live_time : string → string.

Local Abbreviation app :=
  (run twitch menu player_name tv_join calculate_live_time).

Lemma bind_loops f depth (k : unit → M unit) st :
  loops f = true → bind (app depth f) k st = app depth f st.
Proof.
  intros Hf. destruct (app depth f st) as [o st'] eqn:E.
  assert (∀ v, o ≠ Return v) as Hnot.
  { intros v Ho.
    apply (loops_never_return twitch menu player_name tv_join
             calculate_live_time depth f st v Hf).
    by rewrite E. }
  rewrite (bind_unwind _ _ _ _ _ E Hnot). by rewrite unwind_same.
Qed.

(** The gate answered with the back entry, under a parent that loops:
    what the screen would do with the selection is never reached. *)
Lemma gate_back_is_parent depth d items f prompt back_ mesg
    (k : string → M unit) rest tr rq cache :
  back menu ∈ listing menu items (Some back_) →
  loops f = true →
  bind (show_items menu (app depth) (S d) items (Some f) prompt back_ mesg) k
    (mkState (back menu :: rest) tr rq cache)
  = app depth f
      (mkState rest (tr ++ [MenuShow items (Some prompt) (Some back_) mesg])
         rq cache).
Proof.
  intros Hlist Hf.
  assert (Some f ≠ None) as Hbound by done.
  rewrite (bind_congr _ _ _ _ _
             (show_items_branch menu _ d _ _ _ _ _ (back menu) rest _ _ _ Back
                (classifies_back _ _ _ _ Hlist eq_refl Hbound))).
  cbn [gate_branch run_fallback]. rewrite bind_assoc.
  by apply bind_loops.
Qed.

(** X14: Where the fallback function is a screen that loops (Info, Follows),
    an invalid selection does not end the process: once the information
    screen is acknowledged the run is the run of that screen, as for the
    back entry; neither [sys.exit(1)] nor what the caller would do with
    the selection is reached. *)
Theorem invalid_selection_enters_looping_parent depth d items f prompt back_ mesg
    (k : string → M unit) r ack rest tr rq cache :
  r ∉ listing menu items (Some back_) →
  ack ∈ listing menu [not_found_message r] (Some false) →
  loops f = true →
  bind (show_items menu (app depth) (S (S d)) items (Some f) prompt back_
          mesg) k
    (mkState (r :: ack :: rest) tr rq cache)
  = app depth f
      (mkState rest (tr ++ invalid_events items prompt back_ mesg r) rq cache).
Proof.
  intros Hout Hack Hf.
  pose proof (show_items_missing_ack menu (app depth) d items (Some f) prompt
                back_ mesg r ack rest tr rq cache Hout Hack) as Hgate.
  cbv beta iota zeta in Hgate.
  destruct (app depth f _) as [o st'] eqn:E in Hgate.
  assert (∀ v, o ≠ Return v) as Hnot.
  { intros v Ho.
    match type of E with
    | run _ _ _ _ _ _ _ ?s = _ =>
        apply (loops_never_return twitch menu player_name tv_join
                 calculate_live_time depth f s v Hf)
    end.
    by rewrite E. }
  rewrite E.
  assert (then_exit (o, st') = (unwind o, st')) as Hexit.
  { destruct o as [a| | | |]; try done; by destruct (Hnot a). }
  rewrite Hexit in Hgate.
  rewrite (bind_unwind _ _ _ _ _ Hgate).
  - destruct o as [a| | | |]; try done; by destruct (Hnot a).
  - intros a. destruct o as [a0| | | |]; try done; by destruct (Hnot a0).
Qed.
End ParentLoops.

(** ** The back entry, screen by screen *)

Section BackEntry.
Variable twitch : TwitchClient.
Variable menu : Menu.
Variable player_name : string.
Variable tv_join : string → string.
Variable calculate_live_time : string → string.
Variable d : nat.
Variable rest : list string.
Variable tr : list Event.
Variable rq : nat.
Variable cache : option (list ChannelUserFollows.t).

Local Abbreviation app :=
  (run twitch menu player_name tv_join calculate_live_time).

(** X9: The back entry of the Info screen enters the Follows screen, and
    nothing of the Info screen runs after it. *)
Theorem show_info_back_to_follows (user_id : string) :
  let channel := information twitch rq user_id in
  let online := is_online twitch (S rq) user_id in
  back menu ∈ listing menu (info_options twitch channel online) (Some true) →
  app (S (S d)) (ShowInfo user_id) (mkState (back menu :: rest) tr rq cache)
  = app (S d) ShowFollowsAndOnline
      (mkState rest (tr ++ info_drawn twitch channel online user_id)
         (S (S rq)) cache).
Proof.
  intros channel online Hlist. subst channel online.
  cbn [run]. unfold show_info.
  unfold request at 1. unfold bind at 1.
  cbn [requests replies trace _user_follows].
  unfold request at 1. unfold bind at 1.
  cbn [requests replies trace _user_follows]. cbv zeta.
  rewrite (gate_back_is_parent twitch menu player_name tv_join
             calculate_live_time (S d) d _ ShowFollowsAndOnline) by done.
  unfold info_drawn, info_options, info_status.
  by rewrite <- !app_assoc.
Qed.

(** X12: The back entry of the Videos screen enters the Info screen of the
    channel whose videos were shown. *)
Theorem show_videos_back_to_info (channel : BroadcasterInfo.t) :
  let id := BroadcasterInfo.broadcaster_id channel in
  let videos := get_videos twitch rq id in
  videos ≠ [] →
  back menu ∈ listing menu (video_options twitch menu videos) (Some true) →
  app (S (S d)) (ShowVideos channel) (mkState (back menu :: rest) tr rq cache)
  = app (S d) (ShowInfo id)
      (mkState rest (tr ++ videos_drawn twitch menu channel videos)
         (S rq) cache).
Proof.
  intros id videos Hne Hlist. subst id videos.
  cbn [run]. unfold show_videos.
  unfold request at 1. unfold bind at 1.
  cbn [requests replies trace _user_follows]. cbv zeta.
  rewrite (videos_dict_nonempty twitch menu _ Hne).
  rewrite (gate_back_is_parent twitch menu player_name tv_join
             calculate_live_time (S d) d _ (ShowInfo _)) by done.
  unfold videos_drawn. by rewrite <- !app_assoc.
Qed.

(** X13: The back entry of the Clips screen enters the Info screen of the
    channel; the clips the screen was showing are dropped. *)
Theorem show_clips_back_to_info (channel : BroadcasterInfo.t)
    (c : TwitchClip.t) (cs : list TwitchClip.t) :
  let id := BroadcasterInfo.broadcaster_id channel in
  back menu ∈ listing menu (clip_options twitch menu (c :: cs)) (Some true) →
  app (S (S d)) (ShowClips channel (Some (c :: cs)))
    (mkState (back menu :: rest) tr rq cache)
  = app (S d) (ShowInfo id)
      (mkState rest (tr ++ [clips_draw twitch menu channel (c :: cs)])
         rq cache).
Proof.
  intros id Hlist. subst id.
  cbn [run]. unfold show_clips. cbv zeta. cbn [clips_or_fetch].
  rewrite (bind_return _ _ _ (c :: cs) _ eq_refl).
  assert (is_empty (dict_of_enumerate (clip_label twitch menu) (c :: cs))
          = false) as ->.
  { destruct (dict_of_enumerate _ _) eqn:E; [|done].
    apply dict_of_enumerate_nil in E; [done|].
    intros ????. apply clip_label_index. }
  rewrite (bind_return _ _ _ tt _ eq_refl).
  by rewrite (gate_back_is_parent twitch menu player_name tv_join
                calculate_live_time (S d) d _ (ShowInfo _)) by done.
Qed.
End BackEntry.

Lemma show_info_back_to_follows_witness :
  run Demo.twitch DemoBack.menu "mpv" Demo.tv_join Demo.live_time 3
    (ShowInfo "2") (mkState ["< Back"; "alice"] [] 0 None)
  = run Demo.twitch DemoBack.menu "mpv" Demo.tv_join Demo.live_time 2
      ShowFollowsAndOnline
      (mkState ["alice"]
         ([] ++ info_drawn Demo.twitch (information Demo.twitch 0 "2")
                  (is_online Demo.twitch 1 "2") "2")
         2 None).
Proof.
  apply (show_info_back_to_follows Demo.twitch DemoBack.menu "mpv"
           Demo.tv_join Demo.live_time 1 ["alice"] [] 0 None "2").
  by_evaluation.
Defined.

Lemma show_videos_back_to_info_witness :
  run DemoVideos.twitch DemoBack.menu "mpv" Demo.tv_join Demo.live_time 3
    (ShowVideos Demo.bob_channel) (mkState ["< Back"] [] 0 None)
  = run DemoVideos.twitch DemoBack.menu "mpv" Demo.tv_join Demo.live_time 2
      (ShowInfo "2")
      (mkState []
         ([] ++ videos_drawn DemoVideos.twitch DemoBack.menu Demo.bob_channel
                  (get_videos DemoVideos.twitch 0 "2"))
         1 None).
Proof.
  apply (show_videos_back_to_info DemoVideos.twitch DemoBack.menu "mpv"
           Demo.tv_join Demo.live_time 1 [] [] 0 None Demo.bob_channel).
  - discriminate.
  - by_evaluation.
Defined.

Lemma show_clips_back_to_info_witness :
  run Demo.twitch DemoBack.menu "mpv" Demo.tv_join Demo.live_time 3
    (ShowClips Demo.bob_channel (Some Demo.clips))
    (mkState ["< Back"] [] 0 None)
  = run Demo.twitch DemoBack.menu "mpv" Demo.tv_join Demo.live_time 2
      (ShowInfo "2")
      (mkState []
         ([] ++ [clips_draw Demo.twitch DemoBack.menu Demo.bob_channel
                   Demo.clips])
         0 None).
Proof.
  apply (show_clips_back_to_info Demo.twitch DemoBack.menu "mpv"
           Demo.tv_join Demo.live_time 1 [] [] 0 None Demo.bob_channel).
  by_evaluation.
Defined.

Lemma invalid_selection_enters_looping_parent_witness :
  bind (show_items Demo.menu (Demo.app 2) 2 ["Videos: Get videos"]
          (Some ShowFollowsAndOnline) "'bob info:'" true None)
    (λ _, ret tt)
    (mkState ["Vidoes"; "Option 'Vidoes' selected not found."; "alice"]
       [] 0 None)
  = Demo.app 2 ShowFollowsAndOnline
      (mkState ["alice"]
         ([] ++ invalid_events ["Videos: Get videos"] "'bob info:'" true None
                  "Vidoes")
         0 None).
Proof.
  apply (invalid_selection_enters_looping_parent Demo.twitch Demo.menu "mpv"
           Demo.tv_join Demo.live_time 2 0 ["Videos: Get videos"]
           ShowFollowsAndOnline "'bob info:'" true None (λ _, ret tt)
           "Vidoes" "Option 'Vidoes' selected not found." ["alice"] [] 0
           None).
  - by_evaluation.
  - by_evaluation.
  - reflexivity.
Defined.

(** ** The options of the Follows screen are distinct *)

Lemma dict_set_keys {V} k (v : V) d x :
  x ∈ (dict_set k v d).*1 ↔ x = k ∨ x ∈ d.*1.
Proof.
  induction d as [|[k' v'] d IH]; simpl.
  - rewrite elem_of_cons, elem_of_nil. tauto.
  - destruct (decide (k = k')) as [->|Hne]; simpl;
      rewrite !elem_of_cons, ?IH; tauto.
Qed.

Lemma dict_set_keys_NoDup {V} k (v : V) d :
  NoDup d.*1 → NoDup (dict_set k v d).*1.
Proof.
  induction d as [|[k' v'] d IH]; simpl; intros Hd.
  - apply NoDup_singleton.
  - apply NoDup_cons in Hd as [Hk' Hd].
    destruct (decide (k = k')) as [->|Hne]; simpl.
    + by apply NoDup_cons.
    + apply NoDup_cons. split; [|by apply IH].
      rewrite dict_set_keys. intros [->|?]; done.
Qed.

Lemma fold_dict_set_keys {V} (key : V → string) (l : list V) (d : dict V) :
  NoDup d.*1 →
  NoDup (fold_left (λ d x, dict_set (key x) x d) l d).*1 ∧
  ∀ x, x ∈ (fold_left (λ d x, dict_set (key x) x d) l d).*1 →
       x ∈ d.*1 ∨ ∃ v, v ∈ l ∧ key v = x.
Proof.
  revert d. induction l as [|y l IH]; intros d Hd; simpl; [by auto|].
  destruct (IH (dict_set (key y) y d)) as [Hnd Hin];
    [by apply dict_set_keys_NoDup|].
  split; [done|]. intros x Hx.
  destruct (Hin x Hx) as [Hd'|(v & Hv & Hk)].
  - apply dict_set_keys in Hd' as [->|?]; [|by left].
    right. exists y. split; [by left|done].
  - right. exists v. split; [by right|done].
Qed.

Lemma dict_of_keys {V} (key : V → string) (l : list V) :
  NoDup (dict_keys (dict_of key l)) ∧
  ∀ x, x ∈ dict_keys (dict_of key l) → ∃ v, v ∈ l ∧ key v = x.
Proof.
  destruct (fold_dict_set_keys key l []) as [Hnd Hin]; [constructor|].
  split; [done|]. intros x Hx.
  destruct (Hin x Hx) as [Hnil|?]; [|done]. by apply elem_of_nil in Hnil.
Qed.

Lemma insert_sorted_perm x l : insert_sorted x l ≡ₚ x :: l.
Proof.
  induction l as [|y l IH]; simpl; [done|].
  destruct (String.leb x y); [done|]. rewrite IH. apply Permutation_swap.
Qed.

Lemma sorted_perm l : sorted l ≡ₚ l.
Proof.
  induction l as [|x l IH]; simpl; [done|].
  by rewrite insert_sorted_perm, IH.
Qed.

Section Distinct.
Variable twitch : TwitchClient.
Variable menu : Menu.
Variable calculate_live_time : string → string.

Local Abbreviation label := (live_label twitch menu calculate_live_time).
Local Abbreviation merge := (merge_with_online twitch menu calculate_live_time).

Lemma live_label_has_space c : has_char " " (label c) = true.
Proof.
  destruct (live_label_shape twitch menu calculate_live_time c) as [tail ->].
  rewrite has_char_app. apply orb_true_iff. right.
  by rewrite str_app_cons.
Qed.

Lemma live_label_name_inj c c' :
  has_char " " (FollowedStream.user_name c) = false →
  has_char " " (FollowedStream.user_name c') = false →
  label c = label c' →
  FollowedStream.user_name c = FollowedStream.user_name c'.
Proof.
  intros Hc Hc' Heq.
  destruct (live_label_shape twitch menu calculate_live_time c) as [t Ht].
  destruct (live_label_shape twitch menu calculate_live_time c') as [t' Ht'].
  rewrite Ht, Ht' in Heq. apply (inj (String.append _)) in Heq.
  rewrite !str_app_cons, !str_app_nil in Heq. injection Heq as Heq.
  by apply (app_sep_inj " "%char _ _ _ _ Hc Hc' Heq).
Qed.

Lemma merge_NoDup L S :
  NoDup L →
  (∀ x, x ∈ L → has_char " " x = false) →
  (∀ c, c ∈ S → has_char " " (FollowedStream.user_name c) = false) →
  NoDup (merge L S).
Proof.
  intros HL Hnames Hstreams.
  assert (labels_apart twitch menu calculate_live_time S) as Hap.
  { intros c c' _ Hc' Heq. specialize (Hstreams c' Hc').
    rewrite Heq, live_label_has_space in Hstreams. done. }
  apply NoDup_alt. intros i j x Hi Hj.
  assert (is_Some (L !! i)) as [a Ha].
  { apply lookup_lt_is_Some. rewrite <- (merge_length twitch menu
      calculate_live_time L S). by eapply lookup_lt_Some. }
  assert (is_Some (L !! j)) as [b Hb].
  { apply lookup_lt_is_Some. rewrite <- (merge_length twitch menu
      calculate_live_time L S). by eapply lookup_lt_Some. }
  assert (has_char " " a = false) as Hsa.
  { apply Hnames. by eapply list_elem_of_lookup_2. }
  assert (has_char " " b = false) as Hsb.
  { apply Hnames. by eapply list_elem_of_lookup_2. }
  assert (a = b) as ->; [|by eapply NoDup_lookup].
  destruct (merge_entries twitch menu calculate_live_time L S Hap i a Ha)
    as [Hia|(c & Hc & Hca & Hia)];
  destruct (merge_entries twitch menu calculate_live_time L S Hap j b Hb)
    as [Hjb|(c' & Hc' & Hcb & Hjb)].
  - congruence.
  - assert (a = label c') as Heq by congruence.
    rewrite Heq, live_label_has_space in Hsa. done.
  - assert (b = label c) as Heq by congruence.
    rewrite Heq, live_label_has_space in Hsb. done.
  - assert (label c = label c') as Heq by congruence.
    rewrite <- Hca, <- Hcb. rewrite <- Hca in Hsa. rewrite <- Hcb in Hsb.
    by apply live_label_name_inj.
Qed.

(** X21: The options of the Follows screen are pairwise distinct when no
    followed name and no live name holds a space: every label of the
    screen selects one follow. *)
Theorem follows_options_distinct (users : list ChannelUserFollows.t)
    (streams : list FollowedStream.t) :
  (∀ u, u ∈ users → has_char " " (ChannelUserFollows.to_name u) = false) →
  (∀ c, c ∈ streams → has_char " " (FollowedStream.user_name c) = false) →
  NoDup (merge
           (sorted (dict_keys (dict_of ChannelUserFollows.to_name users)))
           streams).
Proof.
  intros Husers Hstreams.
  destruct (dict_of_keys ChannelUserFollows.to_name users) as [Hnd Hin].
  apply merge_NoDup; [by rewrite sorted_perm| |done].
  intros x Hx. rewrite sorted_perm in Hx.
  destruct (Hin x Hx) as (u & Hu & <-). by apply Husers.
Qed.
End Distinct.

Lemma follows_options_distinct_witness :
  NoDup (merge_with_online Demo.twitch Demo.menu Demo.live_time
           (sorted (dict_keys (dict_of ChannelUserFollows.to_name
                                 (follows Demo.twitch 0))))
           [Demo.bob; Demo.bob_again]).
Proof.
  apply (follows_options_distinct Demo.twitch Demo.menu Demo.live_time
           (follows Demo.twitch 0) [Demo.bob; Demo.bob_again]).
  - intros u Hu. cbn in Hu.
    repeat (apply elem_of_cons in Hu as [->|Hu]; [reflexivity|]).
    by apply elem_of_nil in Hu.
  - intros c Hc.
    repeat (apply elem_of_cons in Hc as [->|Hc]; [reflexivity|]).
    by apply elem_of_nil in Hc.
Defined.

Lemma user_follows_never_refetched_witness :
  let st := mkState ["bob"; "Clips: Get clips"] [] 0
              (Some (follows Demo.twitch 0)) in
  _user_follows (Demo.app 5 ShowFollowsAndOnline st).2
  = Some (follows Demo.twitch 0) ∧
  count_requests ReqFollows (trace (Demo.app 5 ShowFollowsAndOnline st).2)
  = count_requests ReqFollows (trace st).
Proof.
  intros st.
  apply (user_follows_never_refetched Demo.twitch Demo.menu "mpv"
           Demo.tv_join Demo.live_time 5 ShowFollowsAndOnline st
           (ChannelUserFollows.mk "1" "alice")
           [ChannelUserFollows.mk "2" "bob";
            ChannelUserFollows.mk "3" "carol"]).
  reflexivity.
Defined.
